(** * The Dropbox extractor ([yt_dlp/extractor/dropbox.py])

    A shallow embedding of [DropboxIE._real_extract] and of the library
    routines it relies on, followed by the properties of the extraction
    procedure: the password gate, the reverse scan over the embedded
    payloads, the thumbnail table, the metadata request and the assembly of
    the result. *)

From Stdlib Require Import ZArith NArith QArith String Ascii Lia ZifyNat Sorted.
From stdpp Require Import base option list gmap.

Set Warnings "-register-all".

Local Open Scope N_scope.
Local Open Scope list_scope.

(** ** Python strings and bytes

    A Python [str] is a sequence of code points and a [bytes] object a
    sequence of octets; both are lists of [N]. *)

Abbreviation str := (list N) (only parsing).
Abbreviation bytes := (list N) (only parsing).

Definition lit (s : string) : str :=
  map N_of_ascii (list_ascii_of_string s).

Definition LF : N := 10.
Definition TAB : N := 9.
Definition DQUOTE : N := 34.
Definition SQUOTE : N := 39.

Definition str_eqb (a b : str) : bool := bool_decide (a = b).

(** [s.startswith(p)], returning the remainder *)
Fixpoint strip_prefix (p s : str) : option str :=
  match p, s with
  | [], _ => Some s
  | a :: p', b :: s' => if a =? b then strip_prefix p' s' else None
  | _ :: _, [] => None
  end.

(** [needle in hay] *)
Fixpoint contains (needle hay : str) : bool :=
  match strip_prefix needle hay with
  | Some _ => true
  | None => match hay with
            | [] => false
            | _ :: hay' => contains needle hay'
            end
  end.

(** ** Character classes of the [re] module (str patterns, no flags) *)

Definition in_range (lo hi c : N) : bool := (lo <=? c) && (c <=? hi).

Definition ascii_alnum (c : N) : bool :=
  in_range 48 57 c || in_range 65 90 c || in_range 97 122 c.

(** [\s]: the characters for which [str.isspace()] holds *)
Definition re_space (c : N) : bool :=
  in_range 9 13 c || in_range 28 32 c || (c =? 133) || (c =? 160)
  || (c =? 5760) || in_range 8192 8202 c || (c =? 8232) || (c =? 8233)
  || (c =? 8239) || (c =? 8287) || (c =? 12288).

Definition re_nonspace (c : N) : bool := negb (re_space c).

(** [.] without DOTALL *)
Definition re_dot (c : N) : bool := negb (c =? LF).

Section Classes.
(** [str.isalnum()] above the ASCII range is a table of the Unicode
    database; it is a parameter here. *)
Variable unicode_alnum : N -> bool.

(** [\w] *)
Definition re_word (c : N) : bool :=
  if c <? 128 then ascii_alnum c || (c =? 95) else unicode_alnum c.

(** [[\w/+=]] *)
Definition re_token_char (c : N) : bool :=
  re_word c || (c =? 47) || (c =? 43) || (c =? 61).
End Classes.

(** [[^\x03\x08\x12\n]] *)
Definition re_m3u8_char (c : N) : bool :=
  negb ((c =? 3) || (c =? 8) || (c =? 18) || (c =? LF)).

(** ** Regular expressions

    The fragment of [re] syntax the extractor uses: literals, classes,
    concatenation, alternation, optional parts, greedy and lazy repetition
    of a class, one capturing group and negative lookahead. *)

Inductive regex : Type :=
| Eps
| Chr (p : N -> bool)
| Cat (r1 r2 : regex)
| Alt (r1 r2 : regex)
| Opt (r : regex)
| Rep (greedy : bool) (at_least_one : bool) (p : N -> bool)
| Grp (r : regex)
| NegAhead (r : regex).

Fixpoint Lit (s : str) : regex :=
  match s with
  | [] => Eps
  | c :: s' => Cat (Chr (N.eqb c)) (Lit s')
  end.

Fixpoint Seq (rs : list regex) : regex :=
  match rs with
  | [] => Eps
  | r :: rs' => Cat r (Seq rs')
  end.

(** Backtracking matcher in continuation-passing style, with the priorities
    of [re]: a greedy repetition tries the longest run first, a lazy one the
    shortest, an alternation its left branch. *)

Fixpoint rep_greedy {R : Type} (p : N -> bool) (s : str)
    (k : str -> option R) : option R :=
  match s with
  | c :: s' =>
      if p c then
        match rep_greedy p s' k with
        | Some r => Some r
        | None => k s
        end
      else k s
  | [] => k []
  end.

Fixpoint rep_lazy {R : Type} (p : N -> bool) (s : str)
    (k : str -> option R) : option R :=
  match k s with
  | Some r => Some r
  | None =>
      match s with
      | c :: s' => if p c then rep_lazy p s' k else None
      | [] => None
      end
  end.

Definition rep {R : Type} (greedy : bool) (p : N -> bool) (s : str)
    (k : str -> option R) : option R :=
  if greedy then rep_greedy p s k else rep_lazy p s k.

Fixpoint run (r : regex) {R : Type} (s : str) (g : option str)
    (k : str -> option str -> option R) : option R :=
  match r with
  | Eps => k s g
  | Chr p =>
      match s with
      | c :: s' => if p c then k s' g else None
      | [] => None
      end
  | Cat r1 r2 => run r1 s g (fun s1 g1 => run r2 s1 g1 k)
  | Alt r1 r2 =>
      match run r1 s g k with
      | Some x => Some x
      | None => run r2 s g k
      end
  | Opt r1 =>
      match run r1 s g k with
      | Some x => Some x
      | None => k s g
      end
  | Rep greedy one p =>
      if one then
        match s with
        | c :: s' => if p c then rep greedy p s' (fun s1 => k s1 g) else None
        | [] => None
        end
      else rep greedy p s (fun s1 => k s1 g)
  | Grp r1 =>
      run r1 s g (fun s1 _ => k s1 (Some (take (length s - length s1) s)))
  | NegAhead r1 =>
      match run r1 s g (fun _ _ => Some tt) with
      | Some _ => None
      | None => k s g
      end
  end.

(** A match anchored at the start of [s]: the unread rest and the group. *)
Definition match_at (r : regex) (s : str) : option (str * option str) :=
  run r s None (fun s1 g => Some (s1, g)).

(** [re.match(r, s)], as the value of its group *)
Definition re_match (r : regex) (s : str) : option (option str) :=
  snd <$> match_at r s.

(** [re.search(r, s)], as the value of its group *)
Fixpoint re_search (r : regex) (s : str) : option (option str) :=
  match match_at r s with
  | Some (_, g) => Some g
  | None =>
      match s with
      | [] => None
      | _ :: s' => re_search r s'
      end
  end.

(** [re.findall(r, s)] for a pattern with one group: the groups of the
    non-overlapping matches, left to right.  [skip] counts the characters
    still covered by the previous match. *)
Fixpoint findall_from (r : regex) (skip : nat) (s : str) : list str :=
  match s with
  | [] =>
      match skip, match_at r [] with
      | O, Some (_, g) => [default [] g]
      | _, _ => []
      end
  | _ :: s' =>
      match skip with
      | S n => findall_from r n s'
      | O =>
          match match_at r s with
          | Some (rest, g) =>
              default [] g
              :: findall_from r (length s - length rest - 1) s'
          | None => findall_from r 0 s'
          end
      end
  end.

Definition re_findall (r : regex) (s : str) : list str := findall_from r 0 s.

(** ** The patterns of the extractor *)

Section Patterns.
Variable unicode_alnum : N -> bool.

Let w := re_word unicode_alnum.
Let tok := re_token_char unicode_alnum.
Let sp := Rep true false re_space.

(** [_VALID_URL]:
    [https?://(?:www\.)?dropbox\.com/(?:(?:e/)?scl/fi|sh?)/(?P<id>\w+)] *)
Definition _VALID_URL : regex :=
  Seq [ Lit (lit "http"); Opt (Lit (lit "s")); Lit (lit "://");
        Opt (Lit (lit "www.")); Lit (lit "dropbox.com/");
        Alt (Cat (Opt (Lit (lit "e/"))) (Lit (lit "scl/fi")))
            (Cat (Lit (lit "s")) (Opt (Lit (lit "h"))));
        Lit (lit "/"); Grp (Rep true true w) ].

(** [content_id=(.*?)[\x22\x27]], the class being the two quote
    characters *)
Definition re_content_id : regex :=
  Seq [ Lit (lit "content_id="); Grp (Rep false false re_dot);
        Chr (fun c => (c =? DQUOTE) || (c =? SQUOTE)) ].

(** [registerStreamedPrefetch\s*\(\s*Q[\w/+=]+Q\s*,\s*Q([\w/+=]+)Q]
    where Q stands for the double quote character *)
Definition re_register : regex :=
  Seq [ Lit (lit "registerStreamedPrefetch"); sp; Lit (lit "("); sp;
        Lit [DQUOTE]; Rep true true tok; Lit [DQUOTE]; sp; Lit (lit ",");
        sp; Lit [DQUOTE]; Grp (Rep true true tok); Lit [DQUOTE] ].
End Patterns.

(** [\n.(https://[^\x03\x08\x12\n]+\.m3u8)] *)
Definition re_transcode_url : regex :=
  Seq [ Lit [LF]; Chr re_dot;
        Grp (Seq [ Lit (lit "https://"); Rep true true re_m3u8_char;
                   Lit (lit ".m3u8") ]) ].

(** [(anonymous:\tanonymous)] *)
Definition re_anonymous : regex :=
  Grp (Seq [ Lit (lit "anonymous:"); Lit [TAB]; Lit (lit "anonymous") ]).

(** [(https://(?![^\s]*?scrubber_thumb_vtt[^\s]*?).+?thumb[^\s]*?\.jpeg)] *)
Definition re_thumbnail_url : regex :=
  Grp (Seq [ Lit (lit "https://");
             NegAhead (Seq [ Rep false false re_nonspace;
                             Lit (lit "scrubber_thumb_vtt");
                             Rep false false re_nonspace ]);
             Rep false true re_dot; Lit (lit "thumb");
             Rep false false re_nonspace; Lit (lit ".jpeg") ]).

(** [(https://(?![^\s]*?hls[^\s]*?).+?scrubber_thumb_vtt[^\s]*?\.vtt)] *)
Definition re_vtt_url : regex :=
  Grp (Seq [ Lit (lit "https://");
             NegAhead (Seq [ Rep false false re_nonspace; Lit (lit "hls");
                             Rep false false re_nonspace ]);
             Rep false true re_dot; Lit (lit "scrubber_thumb_vtt");
             Rep false false re_nonspace; Lit (lit ".vtt") ]).

(** [id:(\S+)] *)
Definition re_internal_id : regex :=
  Seq [ Lit (lit "id:"); Grp (Rep true true re_nonspace) ].

(** ** Exceptions and results *)

Inductive exn : Type :=
| ExtractorError (msg : string) (expected : bool)
| RegexNotFoundError (name : string)
| AttributeError (msg : string)
| BinasciiError (msg : string)
| ValueError (msg : string)
| UnicodeEncodeError (msg : string)
| OtherError (msg : string).

(** An [ExtractorError] raised with [expected=True] is reported to the user
    as it is; every other exception is an unexpected failure. *)
Definition is_expected (e : exn) : bool :=
  match e with
  | ExtractorError _ b => b
  | _ => false
  end.

Inductive result (A : Type) : Type :=
| Raise (e : exn)
| Return (a : A).
Arguments Raise {A} e.
Arguments Return {A} a.

(** ** [base64.b64decode] and [bytes.decode("utf-8", "ignore")]

    The two standard-library routines behind line 95 of the source. *)

Definition b64_value (c : N) : option N :=
  if in_range 65 90 c then Some (c - 65)
  else if in_range 97 122 c then Some (c - 97 + 26)
  else if in_range 48 57 c then Some (c - 48 + 52)
  else if c =? 43 then Some 62
  else if c =? 47 then Some 63
  else None.

Definition byte_of (n : N) : N := N.land n 255.

(** [binascii.a2b_base64] without [strict_mode]: characters outside the
    alphabet are skipped, a complete run of padding ends the input, and
    input that stops inside a quad is an error. *)
Fixpoint a2b_base64 (data : bytes) (quad_pos leftchar pads : N)
    (out : bytes) : result bytes :=
  match data with
  | [] =>
      if quad_pos =? 0 then Return out
      else if quad_pos =? 1 then
        Raise (BinasciiError "Invalid base64-encoded string")
      else Raise (BinasciiError "Incorrect padding")
  | c :: rest =>
      if c =? 61 then
        if 2 <=? quad_pos then
          if 4 <=? quad_pos + (pads + 1) then Return out
          else a2b_base64 rest quad_pos leftchar (pads + 1) out
        else a2b_base64 rest quad_pos leftchar pads out
      else
        match b64_value c with
        | None => a2b_base64 rest quad_pos leftchar pads out
        | Some v =>
            if quad_pos =? 0 then a2b_base64 rest 1 v 0 out
            else if quad_pos =? 1 then
              a2b_base64 rest 2 (N.land v 15) 0
                (out ++ [byte_of (N.lor (N.shiftl leftchar 2) (N.shiftr v 4))])
            else if quad_pos =? 2 then
              a2b_base64 rest 3 (N.land v 3) 0
                (out ++ [byte_of (N.lor (N.shiftl leftchar 4) (N.shiftr v 2))])
            else
              a2b_base64 rest 0 0 0
                (out ++ [byte_of (N.lor (N.shiftl leftchar 6) v)])
        end
  end.

Definition is_ascii (s : str) : bool := forallb (fun c => c <? 128) s.

(** [base64.b64decode(s)] for a [str] argument: the string is first encoded
    as ASCII, which fails on any other character. *)
Definition b64decode (s : str) : result bytes :=
  if is_ascii s then a2b_base64 s 0 0 0 []
  else Raise (ValueError "string argument should contain only ASCII characters").

Definition b64_is_data (c : N) : bool :=
  match b64_value c with
  | Some _ => true
  | None => false
  end.

(** The characters the decoder looks at: the alphabet and the padding. *)
Definition b64_relevant (c : N) : bool := (c =? 61) || b64_is_data c.

Definition b64_data_count (s : str) : nat := length (List.filter b64_is_data s).

(** The position in the quad after reading [body] from position
    [quad_pos], when no padding ends the input before. *)
Definition quad_after (quad_pos : N) (body : str) : N :=
  N.of_nat ((N.to_nat quad_pos + b64_data_count body) mod 4).

(** The tokens the decoder reads to an end: whole quads; or two characters
    of a quad and then two paddings, with no character of the alphabet
    between the two; or three characters of a quad and then one padding. *)
Definition well_padded (token : str) : Prop :=
  (b64_data_count token mod 4 = 0)%nat
  \/ (exists body junk rest,
        token = body ++ [61] ++ junk ++ [61] ++ rest
        /\ (b64_data_count body mod 4 = 2)%nat
        /\ b64_data_count junk = 0%nat)
  \/ (exists body rest,
        token = body ++ [61] ++ rest
        /\ (b64_data_count body mod 4 = 3)%nat).

(** UTF-8 decoding with the [ignore] error handler.  [need] continuation
    bytes are still expected, the next one within [lo..hi]; [cp] holds the
    bits read so far.  An ill-formed or truncated sequence is dropped and the
    offending byte is read again as the start of a sequence. *)
Definition utf8_start (b : N) : option (N * N * N * N) + option N :=
  if b <? 128 then inr (Some b)
  else if in_range 194 223 b then inl (Some (1, N.land b 31, 128, 191))
  else if b =? 224 then inl (Some (2, N.land b 15, 160, 191))
  else if b =? 237 then inl (Some (2, N.land b 15, 128, 159))
  else if in_range 225 239 b then inl (Some (2, N.land b 15, 128, 191))
  else if b =? 240 then inl (Some (3, N.land b 7, 144, 191))
  else if in_range 241 243 b then inl (Some (3, N.land b 7, 128, 191))
  else if b =? 244 then inl (Some (3, N.land b 7, 128, 143))
  else inr None.

Fixpoint utf8_ignore (data : bytes) (need cp lo hi : N) : str :=
  match data with
  | [] => []
  | b :: rest =>
      if (0 <? need) && in_range lo hi b then
        let cp' := N.lor (N.shiftl cp 6) (N.land b 63) in
        if need =? 1 then cp' :: utf8_ignore rest 0 0 0 0
        else utf8_ignore rest (need - 1) cp' 128 191
      else
        match utf8_start b with
        | inr (Some c) => c :: utf8_ignore rest 0 0 0 0
        | inr None => utf8_ignore rest 0 0 0 0
        | inl (Some (n, c, l, h)) => utf8_ignore rest n c l h
        | inl None => utf8_ignore rest 0 0 0 0
        end
  end.

Definition decode_utf8_ignore (data : bytes) : str := utf8_ignore data 0 0 0 0.

(** [base64.b64decode(encoded).decode("utf-8", "ignore")] *)
Definition decode_token (encoded : str) : result str :=
  match b64decode encoded with
  | Raise e => Raise e
  | Return data => Return (decode_utf8_ignore data)
  end.

(** ** [str.encode("utf-8")]

    A string holds code points up to 10FFFF (hex).  A surrogate, D800 to
    DFFF, has no UTF-8 form: the encoder raises on it. *)

Definition is_surrogate (c : N) : bool := in_range 55296 57343 c.

(** the UTF-8 form of one code point *)
Definition utf8_char (c : N) : bytes :=
  if c <? 128 then [c]
  else if c <? 2048 then [192 + c / 64; 128 + c mod 64]
  else if c <? 65536 then
    [224 + c / 4096; 128 + (c / 64) mod 64; 128 + c mod 64]
  else
    [240 + c / 262144; 128 + (c / 4096) mod 64; 128 + (c / 64) mod 64;
     128 + c mod 64].

Definition utf8 (s : str) : bytes := flat_map utf8_char s.

Definition surrogates_not_allowed : exn :=
  UnicodeEncodeError "'utf-8' codec can't encode character: surrogates not allowed".

Definition str_encode (s : str) : result bytes :=
  if existsb is_surrogate s then Raise surrogates_not_allowed
  else Return (utf8 s).

(** ** What the UTF-8 reader is given

    A stretch of bytes is the UTF-8 form of a code point, or a byte that
    cannot start a sequence, or the first [k] bytes of a longer form, cut
    short. *)
Inductive piece : Type :=
| Whole (c : N)
| Stray (b : N)
| Cut (c : N) (k : nat).

Definition piece_bytes (p : piece) : bytes :=
  match p with
  | Whole c => utf8_char c
  | Stray b => [b]
  | Cut c k => take k (utf8_char c)
  end.

(** what the reader keeps of a piece *)
Definition piece_text (p : piece) : str :=
  match p with
  | Whole c => [c]
  | _ => []
  end.

(** Whether the byte [b] continues the UTF-8 form of [c] after its first
    [k] bytes.  A continuation byte is one of 80 to BF (hex); the second
    byte is one of A0 to BF after E0, of 80 to 9F after ED, of 90 to BF
    after F0 and of 80 to 8F after F4. *)
Definition continues (c : N) (k : nat) (b : N) : bool :=
  let lead := hd 0 (utf8_char c) in
  if Nat.eqb k 1 then
    in_range (if lead =? 224 then 160 else if lead =? 240 then 144 else 128)
             (if lead =? 237 then 159 else if lead =? 244 then 143 else 191)
             b
  else in_range 128 191 b.

(** The form of [c] stops after [k] bytes: [next] is empty or starts with
    a byte that does not continue it. *)
Definition left_short (c : N) (k : nat) (next : bytes) : Prop :=
  match next with
  | [] => True
  | b :: _ => continues c k b = false
  end.

(** ** Python values

    JSON documents, format descriptors and subtitle maps are plain Python
    objects; a [dict] is an association list read at its first binding. *)

Inductive pyval : Type :=
| VNone
| VBool (b : bool)
| VInt (z : Z)
| VFloat (q : Q)
| VStr (s : str)
| VList (l : list pyval)
| VDict (d : list (str * pyval)).

Definition py_truthy (v : pyval) : bool :=
  match v with
  | VNone => false
  | VBool b => b
  | VInt z => negb (z =? 0)%Z
  | VFloat q => negb (Qnum q =? 0)%Z
  | VStr s => negb (str_eqb s [])
  | VList l => match l with [] => false | _ => true end
  | VDict d => match d with [] => false | _ => true end
  end.

Fixpoint dict_get (d : list (str * pyval)) (k : str) : option pyval :=
  match d with
  | [] => None
  | (k', v) :: d' => if str_eqb k' k then Some v else dict_get d' k
  end.

(** [v.get(k, dflt)]: only a dict has the method *)
Definition py_get (v : pyval) (k : str) (dflt : pyval) : result pyval :=
  match v with
  | VDict d => Return (default dflt (dict_get d k))
  | _ => Raise (AttributeError "object has no attribute 'get'")
  end.

(** [v == s] for a string [s] *)
Definition py_eq_str (v : pyval) (s : str) : bool :=
  match v with
  | VStr t => str_eqb t s
  | _ => false
  end.

(** truth value of a local that holds a string, [None] or [False] *)
Definition opt_truthy (o : option str) : bool :=
  match o with
  | Some (_ :: _) => true
  | _ => false
  end.

(** ** [os.path.splitext] *)

Fixpoint rfind_from (c : N) (p : str) (i acc : Z) : Z :=
  match p with
  | [] => acc
  | x :: p' => rfind_from c p' (i + 1)%Z (if x =? c then i else acc)
  end.

(** [p.rfind(c)] for a single character *)
Definition rfind (c : N) (p : str) : Z := rfind_from c p 0%Z (-1)%Z.

(** [os.path.splitext(p)[0]] as posixpath has it, with the slash as the
    separator: the extension starts at the last dot of the last component,
    unless that component has only dots before it. *)
Definition splitext_root (p : str) : str :=
  let sepIndex := rfind 47 p in
  let dotIndex := rfind 46 p in
  if (sepIndex <? dotIndex)%Z then
    let between :=
      take (Z.to_nat (dotIndex - (sepIndex + 1))) (drop (Z.to_nat (sepIndex + 1)) p) in
    if existsb (fun x => negb (x =? 46)) between
    then take (Z.to_nat dotIndex) p
    else p
  else p.

(** ** The extractor framework

    What [DropboxIE] inherits from [InfoExtractor] and imports from
    [utils]; none of it is defined in [dropbox.py].  [World] is the state
    behind the HTTP layer: the remote site and the cookie jar.  A download
    answers and moves the world on; reading the cookies does not. *)

Record InfoExtractor (World : Type) : Type := {
  unicode_alnum : N -> bool;
  (** [self.get_param("videopassword")] *)
  videopassword : option str;
  (** [self._download_webpage(url, video_id)] *)
  download_webpage : str -> World -> result str * World;
  (** [self._download_json(url, video_id, data=..., headers=...)] *)
  download_json :
    str -> bytes -> list (string * str) -> World -> result pyval * World;
  (** [self._get_cookies(url)]: cookie name to cookie value *)
  get_cookies : str -> World -> gmap (list N) (list N);
  (** [self._og_search_title(webpage)] *)
  og_search_title : str -> option str;
  (** [self._extract_m3u8_formats_and_subtitles(url, video_id, "mp4")] *)
  extract_m3u8_formats_and_subtitles :
    str -> World -> result (list pyval * pyval) * World;
  update_url_query : str -> list (string * string) -> str;
  url_basename : str -> str;
  compat_urllib_parse_unquote : str -> str;
  (** [unified_strdate] on an argument other than [None] *)
  parse_strdate : pyval -> result pyval;
  json_dumps : pyval -> str;
  (** [.encode("utf-8")] on what [json.dumps] returns; that text is
      ASCII, on which the encoder cannot raise *)
  encode_utf8 : str -> bytes;
}.
Arguments unicode_alnum {World}.
Arguments videopassword {World}.
Arguments download_webpage {World}.
Arguments download_json {World}.
Arguments get_cookies {World}.
Arguments og_search_title {World}.
Arguments extract_m3u8_formats_and_subtitles {World}.
Arguments update_url_query {World}.
Arguments url_basename {World}.
Arguments compat_urllib_parse_unquote {World}.
Arguments parse_strdate {World}.
Arguments json_dumps {World}.
Arguments encode_utf8 {World}.

(** What the extractor asks of the framework, in order. *)
Inductive event : Type :=
| EvDownloadWebpage (url : str)
| EvDownloadJson (url : str) (data : bytes) (headers : list (string * str))
| EvGetCookie (url : str) (name : str)
| EvExtractM3u8 (url : str).

(** ** The extraction monad: the world, the log of requests, exceptions *)

Definition M (World A : Type) : Type :=
  World * list event -> result A * (World * list event).

#[export] Instance M_ret {World} : MRet (M World) :=
  fun A a s => (Return a, s).

#[export] Instance M_bind {World} : MBind (M World) :=
  fun A B f m s =>
    match m s with
    | (Return a, s') => f a s'
    | (Raise e, s') => (Raise e, s')
    end.

Definition raise {World A} (e : exn) : M World A := fun s => (Raise e, s).

Definition of_result {World A} (r : result A) : M World A := fun s => (r, s).

(** ** Results *)

Record thumbnail : Type := {
  url : str;
  width : Z;
  height : Z;
  preference : Z;
}.

Record info_dict : Type := {
  info_id : str;
  info_title : str;
  info_formats : list pyval;
  info_subtitles : pyval;
  info_thumbnails : list thumbnail;
  info_storyboard_url : option str;
  info_duration : pyval;
  info_upload_date : pyval;
}.

(** The locals assigned by the scan over the registration tokens
    (lines 85 to 87 of the source give their initial values). *)
Record locals : Type := {
  formats : list pyval;
  subtitles : pyval;
  has_anonymous_download : option str;
  thumbnail_url : option str;
  storyboard_url : option str;
  video_internal_id : option str;
}.

Definition locals_init : locals := {|
  formats := [];
  subtitles := VDict [];
  has_anonymous_download := None;
  thumbnail_url := None;
  storyboard_url := None;
  video_internal_id := None;
|}.

(** [sizes], lines 133 to 141 *)
Definition sizes : list (string * Z * Z) :=
  [ ("480x320", 480, 320); ("640x480", 640, 480); ("800x600", 800, 600);
    ("1024x768", 1024, 768); ("1280x960", 1280, 960);
    ("1600x1200", 1600, 1200); ("2048x1536", 2048, 1536) ]%string%Z.

(** ** [DropboxIE] *)

(** The two URLs whose cookies are looked up. *)
Definition www_dropbox : str := lit "https://www.dropbox.com".
Definition bare_dropbox : str := lit "https://dropbox.com".

Section DropboxIE.
Context {World : Type} (self : InfoExtractor World).

Local Abbreviation M := (M World).

(** *** Calls into the framework, each one logged *)

Definition _download_webpage (u : str) : M str :=
  fun '(w, log) =>
    let '(r, w') := download_webpage self u w in
    (r, (w', log ++ [EvDownloadWebpage u])).

Definition _download_json (u : str) (data : bytes)
    (headers : list (string * str)) : M pyval :=
  fun '(w, log) =>
    let '(r, w') := download_json self u data headers w in
    (r, (w', log ++ [EvDownloadJson u data headers])).

(** Modelled from the spec: [_download_json] with [fatal=False]; the
    helper is defined in extractor/common.py.  A failure of the request
    is absorbed and the call evaluates to [False]. *)
Definition _download_json_nonfatal (u : str) (data : bytes)
    (headers : list (string * str)) : M pyval :=
  fun s =>
    match _download_json u data headers s with
    | (Raise _, s') => (Return (VBool false), s')
    | (Return v, s') => (Return v, s')
    end.

(** [self._get_cookies(u).get(name)], as the cookie's value.  A cookie
    that is present is a truthy object. *)
Definition _get_cookie (u name : str) : M (option str) :=
  fun '(w, log) =>
    (Return (get_cookies self u w !! name), (w, log ++ [EvGetCookie u name])).

Definition no_value : exn :=
  AttributeError "'NoneType' object has no attribute 'value'".

(** [self._get_cookies(u).get(name).value] *)
Definition _get_cookie_value (u name : str) : M str :=
  c ← _get_cookie u name;
  match c with
  | Some v => mret v
  | None => raise no_value
  end.

Definition _extract_m3u8_formats_and_subtitles (u : str)
    : M (list pyval * pyval) :=
  fun '(w, log) =>
    let '(r, w') := extract_m3u8_formats_and_subtitles self u w in
    (r, (w', log ++ [EvExtractM3u8 u])).

(** Modelled from the spec: [_search_regex] with a [default]; the helper
    is defined in extractor/common.py.  It is [re.search] returning the
    group of the match, and the default ([None] or [False]) without one. *)
Definition _search_regex (r : regex) (s : str) : option str :=
  mjoin (re_search r s).

(** Modelled from the spec: [_search_regex] without a [default]; a
    pattern that is not found is a fatal error. *)
Definition _search_regex_fatal (r : regex) (s : str) (name : string) : M str :=
  match _search_regex r s with
  | Some g => mret g
  | None => raise (RegexNotFoundError name)
  end.

(** Modelled from the spec: [unified_strdate] is defined in utils; an
    absent date stays absent. *)
Definition unified_strdate (v : pyval) : result pyval :=
  match v with
  | VNone => Return VNone
  | _ => parse_strdate self v
  end.

(** [mobj = self._match_valid_url(url); mobj.group("id")] *)
Definition _match_id (u : str) : M str :=
  match re_match (_VALID_URL (unicode_alnum self)) u with
  | Some (Some g) => mret g
  | _ => raise (AttributeError "'NoneType' object has no attribute 'group'")
  end.

(** *** The password gate, lines 53 to 83 *)

Definition is_gated (webpage : str) : bool :=
  bool_decide (og_search_title self webpage
               = Some (lit "Dropbox - Password Required"))
  || contains (lit "Enter the password for this link") webpage.

Definition auth_payload (t content_id password u : str) : str :=
  lit "is_xhr=true&t=" ++ t ++ lit "&content_id=" ++ content_id
  ++ lit "&password=" ++ password ++ lit "&url=" ++ u.

Definition auth_url : str := lit "https://www.dropbox.com/sm/auth".

Definition auth_headers : list (string * str) :=
  [ ("content-type"%string,
     lit "application/x-www-form-urlencoded; charset=UTF-8") ].

Definition password_required : exn :=
  ExtractorError "Password protected video, use --video-password <password>"
    true.

Definition authentication_failed : exn :=
  ExtractorError "Authentication failed!" true.

Definition password_gate (u webpage : str) : M str :=
  let password := videopassword self in
  if is_gated webpage then
    if opt_truthy password then
      content_id ← _search_regex_fatal re_content_id webpage "content_id";
      t ← _get_cookie_value www_dropbox (lit "t");
      let payload := auth_payload t content_id (default [] password) u in
      data ← of_result (str_encode payload);
      response ← _download_json auth_url data auth_headers;
      status ← of_result (py_get response (lit "status") VNone);
      if negb (py_eq_str status (lit "authed")) then
        raise authentication_failed
      else _download_webpage u
    else
      sm_auth ← _get_cookie bare_dropbox (lit "sm_auth");
      if bool_decide (is_Some sm_auth) then _download_webpage u
      else
        raise password_required
  else mret webpage.

(** *** The scan over the registration tokens, lines 89 to 130 *)

Definition tokens (webpage : str) : list str :=
  re_findall (re_register (unicode_alnum self)) webpage.

(** The body of the loop after a manifest URL was found, up to [break]. *)
Definition commit (decoded transcode_url : str) : M locals :=
  '(fmts, subs) ← _extract_m3u8_formats_and_subtitles transcode_url;
  mret {|
    formats := fmts;
    subtitles := subs;
    has_anonymous_download := _search_regex re_anonymous decoded;
    thumbnail_url := _search_regex re_thumbnail_url decoded;
    storyboard_url := _search_regex re_vtt_url decoded;
    video_internal_id := _search_regex re_internal_id decoded;
  |}.

(** The loop, over the tokens in the order they are visited. *)
Fixpoint scan (encodeds : list str) : M locals :=
  match encodeds with
  | [] => mret locals_init
  | encoded :: rest =>
      decoded ← of_result (decode_token encoded);
      let transcode_url := _search_regex re_transcode_url decoded in
      if negb (opt_truthy transcode_url) then scan rest
      else commit decoded (default [] transcode_url)
  end.

(** The token the loop stops at, if any, with its decoded text and
    manifest URL: the part of [scan] that does not touch the world. *)
Fixpoint find_payload (encodeds : list str) : result (option (str * str)) :=
  match encodeds with
  | [] => Return None
  | encoded :: rest =>
      match decode_token encoded with
      | Raise e => Raise e
      | Return decoded =>
          let transcode_url := _search_regex re_transcode_url decoded in
          if negb (opt_truthy transcode_url) then find_payload rest
          else Return (Some (decoded, default [] transcode_url))
      end
  end.

(** A token the loop passes over: it decodes, and its text holds no
    manifest URL. *)
Definition rejected (encoded : str) : bool :=
  match decode_token encoded with
  | Return decoded => negb (opt_truthy (_search_regex re_transcode_url decoded))
  | Raise _ => false
  end.

(** *** Thumbnails, lines 132 to 156 *)

Definition thumbnail_of (base : str) (size : string * Z * Z) : thumbnail :=
  let '(label, wd, ht) := size in
  {| url := update_url_query self base
              [("size", label); ("size_mode", "2")]%string;
     width := wd;
     height := ht;
     preference := if (wd =? 1280)%Z then 1%Z else (-1)%Z |}.

Definition thumbnails_of (thumbnail_url : option str) : list thumbnail :=
  if opt_truthy thumbnail_url
  then map (thumbnail_of (default [] thumbnail_url)) sizes
  else [].

(** *** The metadata request, lines 158 to 183 *)

Definition metadata_url : str :=
  lit "https://www.dropbox.com/2/files/get_file_content_metadata".

Definition metadata_headers (t : str) : list (string * str) :=
  [ ("Accept", lit "application/json");
    ("content-type", lit "application/json; charset=utf-8");
    ("x-csrf-token", t);
    ("x-dropbox-uid", lit "-1") ]%string.

Definition metadata_payload (internal_id u : str) : pyval :=
  VDict [ (lit "file_path_or_id", VStr (lit "id:" ++ internal_id));
          (lit "url", VStr u) ].

Definition fetch_metadata (u : str) (video_internal_id : option str)
    : M pyval :=
  if opt_truthy video_internal_id then
    t ← _get_cookie_value www_dropbox (lit "t");
    let headers := metadata_headers t in
    let payload := metadata_payload (default [] video_internal_id) u in
    json_result ← _download_json_nonfatal metadata_url
                    (encode_utf8 self (json_dumps self payload)) headers;
    if py_truthy json_result
    then of_result (py_get json_result (lit "metadata") (VDict []))
    else mret (VDict [])
  else mret (VDict []).

(** *** The original file, lines 185 to 198 *)

Definition original_format (u : str) (wd ht fps vcodec : pyval) : pyval :=
  VDict [ (lit "url", VStr (update_url_query self u [("dl", "1")]%string));
          (lit "format_id", VStr (lit "original"));
          (lit "format_note", VStr (lit "Original"));
          (lit "quality", VInt 1);
          (lit "width", wd);
          (lit "height", ht);
          (lit "fps", fps);
          (lit "vcodec", vcodec) ].

Definition with_original (u : str) (l : locals) (additional_metadata : pyval)
    : result (list pyval) :=
  if opt_truthy (has_anonymous_download l) then
    match py_get additional_metadata (lit "resolution_width") VNone,
          py_get additional_metadata (lit "resolution_height") VNone,
          py_get additional_metadata (lit "frame_rate") VNone,
          py_get additional_metadata (lit "codec") VNone with
    | Return wd, Return ht, Return fps, Return vcodec =>
        Return (formats l ++ [original_format u wd ht fps vcodec])
    | Raise e, _, _, _ | _, Raise e, _, _
    | _, _, Raise e, _ | _, _, _, Raise e => Raise e
    end
  else Return (formats l).

(** *** [_real_extract] *)

(** Lines 47 to 83: the identifier and the page that will be scanned. *)
Definition fetch_page (u : str) : M (str * str) :=
  video_id ← _match_id u;
  webpage ← _download_webpage u;
  webpage ← password_gate u webpage;
  mret (video_id, webpage).

(** Lines 132 to 211: everything after the scan. *)
Definition finish (u video_id : str) (l : locals) : M info_dict :=
  let fn := compat_urllib_parse_unquote self (url_basename self u) in
  let title := splitext_root fn in
  let thumbnails := thumbnails_of (thumbnail_url l) in
  additional_metadata ← fetch_metadata u (video_internal_id l);
  fmts ← of_result (with_original u l additional_metadata);
  duration ← of_result (py_get additional_metadata (lit "duration") VNone);
  capture_date ←
    of_result (py_get additional_metadata (lit "capture_date") VNone);
  upload_date ← of_result (unified_strdate capture_date);
  mret {|
    info_id := video_id;
    info_title := title;
    info_formats := fmts;
    info_subtitles := subtitles l;
    info_thumbnails := thumbnails;
    info_storyboard_url := storyboard_url l;
    info_duration := duration;
    info_upload_date := upload_date;
  |}.

Definition _real_extract (u : str) : M info_dict :=
  '(video_id, webpage) ← fetch_page u;
  l ← scan (rev (tokens webpage));
  finish u video_id l.

(** A call of [_real_extract] starts with an empty log. *)
Definition extract (u : str) (w : World)
    : result info_dict * (World * list event) :=
  _real_extract u (w, []).
End DropboxIE.

(** ** Reading the log *)

Definition is_page_download (e : event) : bool :=
  match e with
  | EvDownloadWebpage _ => true
  | _ => false
  end.

Definition is_post_to (target : str) (e : event) : bool :=
  match e with
  | EvDownloadJson u _ _ => str_eqb u target
  | _ => false
  end.

Definition is_auth_post : event -> bool := is_post_to auth_url.
Definition is_metadata_post : event -> bool := is_post_to metadata_url.

Definition count (p : event -> bool) (log : list event) : nat :=
  length (List.filter p log).

(** The cookies the extractor looks at. *)
Definition cookie_read_allowed (e : event) : Prop :=
  match e with
  | EvGetCookie u name =>
      (u = www_dropbox /\ name = lit "t")
      \/ (u = bare_dropbox /\ name = lit "sm_auth")
  | _ => True
  end.

(** [anonymous:\tanonymous] *)
Definition anonymous_marker : str :=
  lit "anonymous:" ++ [TAB] ++ lit "anonymous".


(** The world moves only when the framework performs a download; [replay]
    applies the downloads of a log to a world, in order. *)
Section Replay.
Context {World : Type} (self : InfoExtractor World).

Definition step (w : World) (e : event) : World :=
  match e with
  | EvDownloadWebpage u => (download_webpage self u w).2
  | EvDownloadJson u data headers => (download_json self u data headers w).2
  | EvGetCookie _ _ => w
  | EvExtractM3u8 u => (extract_m3u8_formats_and_subtitles self u w).2
  end.

Definition replay (log : list event) (w : World) : World :=
  foldl step w log.

(** [m] only adds to the log, every event it adds satisfies [P], and the
    world it leaves is the one it found advanced by these events. *)
Definition traced {A : Type} (P : event -> Prop) (m : M World A) : Prop :=
  forall w log, exists r ev,
    m (w, log) = (r, (replay ev w, log ++ ev)) /\ Forall P ev.
End Replay.

Section Assembled.
Context {World : Type} (self : InfoExtractor World).

(** The result assembled from the locals and a metadata dict. *)
Definition assembled (u video_id : str) (l : locals)
    (md : list (list N * pyval)) (upload_date : pyval) : info_dict := {|
  info_id := video_id;
  info_title :=
    splitext_root (compat_urllib_parse_unquote self (url_basename self u));
  info_formats :=
    formats l
    ++ (if opt_truthy (has_anonymous_download l)
        then [original_format self u
                (default VNone (dict_get md (lit "resolution_width")))
                (default VNone (dict_get md (lit "resolution_height")))
                (default VNone (dict_get md (lit "frame_rate")))
                (default VNone (dict_get md (lit "codec")))]
        else []);
  info_subtitles := subtitles l;
  info_thumbnails := thumbnails_of self (thumbnail_url l);
  info_storyboard_url := storyboard_url l;
  info_duration := default VNone (dict_get md (lit "duration"));
  info_upload_date := upload_date;
|}.
End Assembled.

(** The record returned when nothing was recovered from the page. *)
Definition bare_result {World : Type} (self : InfoExtractor World)
    (u video_id : str) : info_dict :=
  assembled self u video_id locals_init [] VNone.

(** ** What a pattern matches

    The strings a pattern can consume, with the group before and after:
    the reading of the syntax that the matcher is checked against.  A
    lookahead consumes nothing. *)
Fixpoint sem (r : regex) (pre : str) (g g' : option str) : Prop :=
  match r with
  | Eps => pre = [] /\ g' = g
  | Chr p => exists c, pre = [c] /\ p c = true /\ g' = g
  | Cat r1 r2 =>
      exists a b gm, pre = a ++ b /\ sem r1 a g gm /\ sem r2 b gm g'
  | Alt r1 r2 => sem r1 pre g g' \/ sem r2 pre g g'
  | Opt r1 => (pre = [] /\ g' = g) \/ sem r1 pre g g'
  | Rep _ one p =>
      forallb p pre = true /\ (one = true -> pre <> []) /\ g' = g
  | Grp r1 => (exists gi, sem r1 pre g gi) /\ g' = Some pre
  | NegAhead _ => pre = [] /\ g' = g
  end.

(** the end of a run of characters of a class *)
Definition run_ends (p : N -> bool) (rest : str) : Prop :=
  rest = [] \/ exists c r, rest = c :: r /\ p c = false.

(** the paths of [_VALID_URL] *)
Definition kinds : list str :=
  [lit "s"; lit "sh"; lit "scl/fi"; lit "e/scl/fi"].

(** More ways of reading the log. *)
Definition is_m3u8_call (e : event) : bool :=
  match e with
  | EvExtractM3u8 _ => true
  | _ => false
  end.

Definition is_cookie_read (e : event) : bool :=
  match e with
  | EvGetCookie _ _ => true
  | _ => false
  end.

Definition is_json_post (e : event) : bool :=
  match e with
  | EvDownloadJson _ _ _ => true
  | _ => false
  end.

(** a POST to a URL other than the two endpoints *)
Definition is_other_post (e : event) : bool :=
  is_json_post e && negb (is_auth_post e) && negb (is_metadata_post e).

(** What the bytes written so far fall short of three quarters of the
    characters read, by the position in the quad. *)
Definition quad_slack (quad_pos : N) : nat :=
  if quad_pos =? 0 then 0 else if quad_pos =? 1 then 3
  else if quad_pos =? 2 then 2 else 1.

(** A Unicode scalar value: at most 10FFFF (hex) and not a surrogate. *)
Definition is_scalar (c : N) : Prop :=
  c <= 1114111 /\ (c < 55296 \/ 57343 < c).

(** The states of the UTF-8 reader from which only scalar values come. *)
Definition pending_ok (need cp lo hi : N) : Prop :=
  need = 0
  \/ (need = 1 /\ cp <= 17407 /\ (cp < 864 \/ 895 < cp))
  \/ (need = 2 /\ 128 <= lo /\ hi <= 191
      /\ (cp <= 12 \/ (14 <= cp /\ cp <= 271) \/ (cp = 13 /\ hi <= 159)))
  \/ (need = 3 /\ 128 <= lo /\ hi <= 191
      /\ ((cp = 0 /\ 144 <= lo) \/ (1 <= cp /\ cp <= 3)
          \/ (cp = 4 /\ hi <= 143))).

(** A piece as the reader keeps or drops it: a whole form is that of a
    scalar value, a stray byte is one that cannot start a sequence, and a
    form cut short is followed by nothing or by a byte that does not
    continue it. *)
Definition piece_ok (p : piece) (next : bytes) : Prop :=
  match p with
  | Whole c => is_scalar c
  | Stray b => utf8_start b = inr None
  | Cut c k =>
      is_scalar c /\ (0 < k < length (utf8_char c))%nat /\ left_short c k next
  end.

Fixpoint pieces_ok (ps : list piece) : Prop :=
  match ps with
  | [] => True
  | p :: ps' => piece_ok p (flat_map piece_bytes ps') /\ pieces_ok ps'
  end.

Definition is_dict (v : pyval) : bool :=
  match v with
  | VDict _ => true
  | _ => false
  end.

Definition no_get : exn := AttributeError "object has no attribute 'get'".

(** What the part after the gate may log: no page download, no POST to
    the auth endpoint, and no cookie lookup but that of [t]. *)
Definition after_gate_event (e : event) : Prop :=
  is_page_download e = false
  /\ is_auth_post e = false
  /\ forall u name, e = EvGetCookie u name -> name = lit "t".

(** [m] only adds to the log, and at most [n] events that satisfy [p]. *)
Definition within {World A : Type} (p : event -> bool) (n : nat)
    (m : M World A) : Prop :=
  forall w log, exists r w' ev,
    m (w, log) = (r, (w', log ++ ev)) /\ (count p ev <= n)%nat.

(** ** A scripted framework

    A small stand-in for the HTTP layer, used to run the extractor on
    concrete pages: the site answers page downloads from a list, the two
    JSON endpoints and the manifest resolver with fixed answers, and the
    auth endpoint may set cookies. *)

Module Mock.
Record world : Type := {
  served : nat;
  jar : gmap (list N) (list N);
}.

Record script : Type := {
  sc_password : option str;
  sc_pages : list str;
  sc_auth : result pyval;
  sc_grant : list (list N * list N);
  sc_metadata : result pyval;
  sc_manifest : result (list pyval * pyval);
}.

Fixpoint before_char (c : N) (s : str) : str :=
  match s with
  | [] => []
  | x :: s' => if x =? c then [] else x :: before_char c s'
  end.

Definition basename (u : str) : str :=
  let path := before_char 63 u in
  drop (Z.to_nat (rfind 47 path + 1)) path.

Definition add_query (u : str) (q : list (string * string)) : str :=
  foldl (fun acc kv => acc ++ lit "&" ++ lit (fst kv) ++ lit "=" ++ lit (snd kv))
        (before_char 63 u ++ lit "?v=1") q.

Definition framework (sc : script) : InfoExtractor world := {|
  unicode_alnum := fun _ => false;
  videopassword := sc_password sc;
  download_webpage := fun _ w =>
    (match sc_pages sc !! served w with
     | Some p => Return p
     | None => Raise (ExtractorError "Unable to download webpage" false)
     end,
     {| served := S (served w); jar := jar w |});
  download_json := fun u _ _ w =>
    if str_eqb u auth_url
    then (sc_auth sc,
          {| served := served w;
             jar := foldr (fun kv m => <[kv.1 := kv.2]> m) (jar w) (sc_grant sc) |})
    else (sc_metadata sc, w);
  get_cookies := fun _ w => jar w;
  og_search_title := fun _ => None;
  extract_m3u8_formats_and_subtitles := fun _ w => (sc_manifest sc, w);
  update_url_query := add_query;
  url_basename := basename;
  compat_urllib_parse_unquote := fun s => s;
  parse_strdate := fun v =>
    match v with
    | VStr s => Return (VStr s)
    | _ => Raise (AttributeError "object has no attribute 'replace'")
    end;
  json_dumps := fun _ => lit "{}";
  encode_utf8 := fun s => s;
|}.

Definition register (key token : string) : str :=
  lit "registerStreamedPrefetch(" ++ [DQUOTE] ++ lit key ++ [DQUOTE]
  ++ lit ", " ++ [DQUOTE] ++ lit token ++ [DQUOTE] ++ lit ");".

Definition share_url : str :=
  lit "https://www.dropbox.com/s/nelirfsxnmcfbfh/clip.final.mp4?dl=0".

(** base64 of a payload with a manifest, the download marker, a
    thumbnail, a storyboard and an internal id *)
Definition token_full : string :=
  "CgFodHRwczovL3YuZXhhbXBsZS9obHMvbWFzdGVyLm0zdTgDCmFub255bW91czoJYW5vbnltb3VzCmh0dHBzOi8vdC5leGFtcGxlL3AvdGh1bWIveC5qcGVnCmh0dHBzOi8vdC5leGFtcGxlL3Avc2NydWJiZXJfdGh1bWJfdnR0L3gudnR0CmlkOkFiQzEyMwo=".

(** base64 of a payload with a manifest and nothing else *)
Definition token_plain : string :=
  "CgFodHRwczovL3YuZXhhbXBsZS9obHMvbWFzdGVyLm0zdTgDCm5vIGRvd25sb2FkIGhlcmUK".

(** base64 of a text without a manifest *)
Definition token_junk : string := "bm90aGluZyB0byBzZWU=".

(** two data characters and no padding: not decodable *)
Definition token_short : string := "QQ".

Definition manifest_url : str := lit "https://v.example/hls/master.m3u8".

Definition hls_format : pyval :=
  VDict [ (lit "url", VStr (lit "https://v.example/hls/720.m3u8"));
          (lit "format_id", VStr (lit "hls-720"));
          (lit "height", VInt 720) ].

Definition metadata_doc : pyval :=
  VDict [ (lit "metadata",
           VDict [ (lit "resolution_width", VInt 1920);
                   (lit "resolution_height", VInt 1080);
                   (lit "frame_rate", VFloat (2997 # 100));
                   (lit "codec", VStr (lit "h264"));
                   (lit "duration", VInt 12);
                   (lit "capture_date", VStr (lit "20240131")) ]) ].

Definition gate_page : str :=
  lit "<h1>Enter the password for this link</h1><form action='/sm/auth?content_id=CID42'>".

Definition csrf_jar : gmap (list N) (list N) := {[ lit "t" := lit "tok" ]}.

Definition start (j : gmap (list N) (list N)) : world :=
  {| served := 0; jar := j |}.

Definition authed : pyval := VDict [ (lit "status", VStr (lit "authed")) ].
Definition denied : pyval := VDict [ (lit "status", VStr (lit "error")) ].

Definition site (pw : option str) (pages : list str)
    (auth metadata : result pyval) : script := {|
  sc_password := pw;
  sc_pages := pages;
  sc_auth := auth;
  sc_grant := [ (lit "sm_auth", lit "1") ];
  sc_metadata := metadata;
  sc_manifest := Return ([hls_format], VDict []);
|}.

Definition unreachable : result pyval := Raise (OtherError "HTTP Error 500").

(** a page with a junk payload followed by a complete one *)
Definition open_page : str :=
  lit "<html>" ++ register "a" token_junk ++ register "b" token_full.

(** a page whose later payload has no manifest *)
Definition fallback_page : str :=
  lit "<html>" ++ register "a" token_plain ++ register "b" token_junk.

(** a page whose only payload has no manifest *)
Definition empty_page : str := lit "<html>" ++ register "a" token_junk.

(** a page whose later token cannot be decoded *)
Definition broken_page : str :=
  lit "<html>" ++ register "a" token_full ++ register "b" token_short.

(** a page whose only token cannot be decoded *)
Definition short_page : str := lit "<html>" ++ register "a" token_short.

(** the text behind [token_full] and the locals the scan takes from it *)
Definition thumb_url : str := lit "https://t.example/p/thumb/x.jpeg".
Definition vtt_url : str :=
  lit "https://t.example/p/scrubber_thumb_vtt/x.vtt".

Definition full_text : str :=
  [LF; 1] ++ manifest_url ++ [3; LF] ++ anonymous_marker ++ [LF]
  ++ thumb_url ++ [LF] ++ vtt_url ++ [LF] ++ lit "id:AbC123" ++ [LF].

Definition full_locals : locals := {|
  formats := [hls_format];
  subtitles := VDict [];
  has_anonymous_download := Some anonymous_marker;
  thumbnail_url := Some thumb_url;
  storyboard_url := Some vtt_url;
  video_internal_id := Some (lit "AbC123");
|}.

(** the world before the first request, with and without the [t] cookie *)
Definition w0 : world := start csrf_jar.
Definition bare : world := start ∅.

(** the text behind [token_plain] *)
Definition plain_text : str :=
  [LF; 1] ++ manifest_url ++ [3; LF] ++ lit "no download here" ++ [LF].

Definition video_id : str := lit "nelirfsxnmcfbfh".

(** sites serving one open page *)
Definition open_site : InfoExtractor world :=
  framework (site None [open_page] unreachable (Return metadata_doc)).
Definition offline_metadata_site : InfoExtractor world :=
  framework (site None [open_page] unreachable unreachable).
Definition fallback_site : InfoExtractor world :=
  framework (site None [fallback_page] unreachable unreachable).
Definition empty_site : InfoExtractor world :=
  framework (site None [empty_page] unreachable unreachable).
Definition broken_site : InfoExtractor world :=
  framework (site None [broken_page] unreachable unreachable).
Definition short_site : InfoExtractor world :=
  framework (site None [short_page] unreachable unreachable).

(** a site behind the password gate, that serves the open page once
    authenticated *)
Definition locked_site (pw : option str) (auth : result pyval)
    : InfoExtractor world :=
  framework (site pw [gate_page; open_page] auth (Return metadata_doc)).

(** a jar with the session cookie of an earlier authentication *)
Definition session_jar : gmap (list N) (list N) :=
  {[ lit "sm_auth" := lit "1" ]}.

(** the open page on a site whose manifests cannot be fetched *)
Definition dead_manifest_site : InfoExtractor world :=
  framework {|
    sc_password := None;
    sc_pages := [open_page];
    sc_auth := unreachable;
    sc_grant := [];
    sc_metadata := Return metadata_doc;
    sc_manifest := Raise (ExtractorError "Failed to download m3u8" false);
  |}.

(** the open page on a site whose metadata endpoint answers with a list *)
Definition odd_metadata_site : InfoExtractor world :=
  framework (site None [open_page] unreachable (Return (VList [VInt 1]))).

(** a URL of another site *)
Definition foreign_url : str := lit "https://example.com/s/abc".

(** a page with three payloads: a complete one, one with a manifest only,
    one without a manifest *)
Definition layered_page : str :=
  lit "<html>" ++ register "a" token_full ++ register "b" token_plain
  ++ register "c" token_junk.
Definition layered_site : InfoExtractor world :=
  framework (site None [layered_page] unreachable unreachable).

(** base64, written with two characters outside the alphabet, of bytes
    that are not all UTF-8: the byte FF, the sequence E2 82 cut short, then
    a payload with a manifest and a word with a two-byte character *)
Definition token_noisy : string :=
  "/+KCCgFodH_RwczovL3YuZXhhbXBsZS_9obHMvbWFzdGVyLm0zdTgDCmNhZsOpCg==".

Definition noisy_bytes : bytes :=
  [255; 226; 130] ++ [LF; 1] ++ manifest_url ++ [3; LF] ++ lit "caf"
  ++ [195; 169; LF].

Definition noisy_text : str :=
  [LF; 1] ++ manifest_url ++ [3; LF] ++ lit "caf" ++ [233; LF].

(** the bytes behind [token_noisy], piece by piece; 20AC (hex) is a
    character whose UTF-8 form starts with E2 82 *)
Definition noisy_pieces : list piece :=
  [Stray 255; Cut 8364 2] ++ map Whole noisy_text.

Definition noisy_page : str :=
  lit "<html>" ++ register "a" token_full ++ register "b" token_noisy.
Definition noisy_site : InfoExtractor world :=
  framework (site None [noisy_page] unreachable unreachable).

End Mock.

(** * Properties *)

Section Monad_facts.
Context {World : Type}.

Lemma bind_run {A B : Type} (m : M World A) (f : A -> M World B) s :
  (m ≫= f) s
  = match m s with
    | (Return a, s') => f a s'
    | (Raise e, s') => (Raise e, s')
    end.
Proof. reflexivity. Qed.

Lemma bind_return {A B : Type} (m : M World A) (f : A -> M World B) s a s' :
  m s = (Return a, s') -> (m ≫= f) s = f a s'.
Proof. intros H. rewrite bind_run, H. reflexivity. Qed.

Lemma bind_raise {A B : Type} (m : M World A) (f : A -> M World B) s e s' :
  m s = (Raise e, s') -> (m ≫= f) s = (Raise e, s').
Proof. intros H. rewrite bind_run, H. reflexivity. Qed.

Lemma bind_of_result {A B : Type} (r : result A) (f : A -> M World B) s :
  (of_result r ≫= f) s
  = match r with
    | Return a => f a s
    | Raise e => (Raise e, s)
    end.
Proof. rewrite bind_run. unfold of_result. destruct r; reflexivity. Qed.
End Monad_facts.

Section Traced_facts.
Context {World : Type} (self : InfoExtractor World).
Variable P : event -> Prop.

Lemma replay_app ev1 ev2 (w : World) :
  replay self (ev1 ++ ev2) w = replay self ev2 (replay self ev1 w).
Proof. unfold replay. apply foldl_app. Qed.

Lemma traced_ret {A : Type} (a : A) : traced self P (mret a).
Proof.
  intros w log. exists (Return a), []. split; [|constructor].
  rewrite app_nil_r. reflexivity.
Qed.

Lemma traced_raise {A : Type} (e : exn) : traced self P (@raise World A e).
Proof.
  intros w log. exists (Raise e), []. split; [|constructor].
  rewrite app_nil_r. reflexivity.
Qed.

Lemma traced_of_result {A : Type} (r : result A) :
  traced self P (@of_result World A r).
Proof.
  intros w log. exists r, []. split; [|constructor].
  rewrite app_nil_r. reflexivity.
Qed.

Lemma traced_bind {A B : Type} (m : M World A) (f : A -> M World B) :
  traced self P m -> (forall a, traced self P (f a)) ->
  traced self P (m ≫= f).
Proof.
  intros Hm Hf w log. destruct (Hm w log) as (r & ev & E & HP).
  rewrite bind_run, E. destruct r as [e|a].
  - exists (Raise e), ev. auto.
  - destruct (Hf a (replay self ev w) (log ++ ev)) as (r' & ev' & E' & HP').
    exists r', (ev ++ ev'). rewrite E', replay_app, app_assoc.
    split; [reflexivity|]. apply Forall_app; auto.
Qed.

Lemma traced_download_webpage u :
  P (EvDownloadWebpage u) -> traced self P (_download_webpage self u).
Proof.
  intros HP w log. unfold _download_webpage.
  destruct (download_webpage self u w) as [r w'] eqn:E.
  exists r, [EvDownloadWebpage u]. split; [|auto].
  cbn. rewrite E. reflexivity.
Qed.

Lemma traced_download_json u data headers :
  P (EvDownloadJson u data headers) ->
  traced self P (_download_json self u data headers).
Proof.
  intros HP w log. unfold _download_json.
  destruct (download_json self u data headers w) as [r w'] eqn:E.
  exists r, [EvDownloadJson u data headers]. split; [|auto].
  cbn. rewrite E. reflexivity.
Qed.

Lemma traced_download_json_nonfatal u data headers :
  P (EvDownloadJson u data headers) ->
  traced self P (_download_json_nonfatal self u data headers).
Proof.
  intros HP w log.
  destruct (traced_download_json u data headers HP w log) as (r & ev & E & H).
  unfold _download_json_nonfatal. rewrite E.
  destruct r; eauto.
Qed.

Lemma traced_get_cookie u name :
  P (EvGetCookie u name) -> traced self P (_get_cookie self u name).
Proof.
  intros HP w log.
  exists (Return (get_cookies self u w !! name)), [EvGetCookie u name].
  split; [reflexivity|auto].
Qed.

Lemma traced_get_cookie_value u name :
  P (EvGetCookie u name) -> traced self P (_get_cookie_value self u name).
Proof.
  intros HP. apply traced_bind; [apply traced_get_cookie, HP|].
  intros [v|]; [apply traced_ret|apply traced_raise].
Qed.

Lemma traced_extract_m3u8 u :
  P (EvExtractM3u8 u) ->
  traced self P (_extract_m3u8_formats_and_subtitles self u).
Proof.
  intros HP w log. unfold _extract_m3u8_formats_and_subtitles.
  destruct (extract_m3u8_formats_and_subtitles self u w) as [r w'] eqn:E.
  exists r, [EvExtractM3u8 u]. split; [|auto].
  cbn. rewrite E. reflexivity.
Qed.

Lemma traced_search_regex_fatal r s name :
  traced self P (_search_regex_fatal (World:=World) r s name).
Proof.
  unfold _search_regex_fatal.
  destruct (_search_regex r s); [apply traced_ret|apply traced_raise].
Qed.

Lemma traced_match_id u : traced self P (_match_id self u).
Proof.
  unfold _match_id.
  destruct (re_match _ u) as [[g|]|]; [apply traced_ret|apply traced_raise..].
Qed.
End Traced_facts.

Section Phases_traced.
Context {World : Type} (self : InfoExtractor World).
Variable P : event -> Prop.

Lemma traced_password_gate u webpage :
  P (EvDownloadWebpage u) ->
  (forall data headers, P (EvDownloadJson auth_url data headers)) ->
  P (EvGetCookie www_dropbox (lit "t")) ->
  P (EvGetCookie bare_dropbox (lit "sm_auth")) ->
  traced self P (password_gate self u webpage).
Proof.
  intros Hget Hpost Ht Hsm. unfold password_gate.
  destruct (is_gated self webpage); [|apply traced_ret].
  destruct (opt_truthy (videopassword self)).
  - apply traced_bind; [apply traced_search_regex_fatal|intros content_id].
    apply traced_bind; [apply traced_get_cookie_value, Ht|intros t].
    apply traced_bind; [apply traced_of_result|intros data].
    apply traced_bind; [apply traced_download_json, Hpost|intros response].
    apply traced_bind; [apply traced_of_result|intros status].
    destruct (negb _); [apply traced_raise|].
    apply traced_download_webpage, Hget.
  - apply traced_bind; [apply traced_get_cookie, Hsm|intros sm_auth].
    destruct (bool_decide _); [|apply traced_raise].
    apply traced_download_webpage, Hget.
Qed.

Lemma traced_fetch_page u :
  P (EvDownloadWebpage u) ->
  (forall data headers, P (EvDownloadJson auth_url data headers)) ->
  P (EvGetCookie www_dropbox (lit "t")) ->
  P (EvGetCookie bare_dropbox (lit "sm_auth")) ->
  traced self P (fetch_page self u).
Proof.
  intros Hget Hpost Ht Hsm. unfold fetch_page.
  apply traced_bind; [apply traced_match_id|intros video_id].
  apply traced_bind; [apply traced_download_webpage, Hget|intros webpage].
  apply traced_bind; [apply traced_password_gate; auto|intros webpage'].
  apply traced_ret.
Qed.

Lemma traced_commit decoded transcode_url :
  P (EvExtractM3u8 transcode_url) ->
  traced self P (commit self decoded transcode_url).
Proof.
  intros H. unfold commit.
  apply traced_bind; [apply traced_extract_m3u8, H|intros [fmts subs]].
  apply traced_ret.
Qed.

Lemma traced_scan encodeds :
  (forall u, P (EvExtractM3u8 u)) -> traced self P (scan self encodeds).
Proof.
  intros H. induction encodeds as [|encoded rest IH]; [apply traced_ret|].
  cbn [scan].
  apply traced_bind; [apply traced_of_result|intros decoded].
  destruct (negb _); [exact IH|apply traced_commit, H].
Qed.

Lemma traced_fetch_metadata u video_internal_id :
  P (EvGetCookie www_dropbox (lit "t")) ->
  (forall data headers, P (EvDownloadJson metadata_url data headers)) ->
  traced self P (fetch_metadata self u video_internal_id).
Proof.
  intros Ht Hpost. unfold fetch_metadata.
  destruct (opt_truthy video_internal_id); [|apply traced_ret].
  apply traced_bind; [apply traced_get_cookie_value, Ht|intros t].
  apply traced_bind;
    [apply traced_download_json_nonfatal, Hpost|intros json_result].
  destruct (py_truthy json_result); [apply traced_of_result|apply traced_ret].
Qed.

Lemma traced_finish u video_id l :
  P (EvGetCookie www_dropbox (lit "t")) ->
  (forall data headers, P (EvDownloadJson metadata_url data headers)) ->
  traced self P (finish self u video_id l).
Proof.
  intros Ht Hpost. unfold finish.
  apply traced_bind; [apply traced_fetch_metadata; auto|intros md].
  apply traced_bind; [apply traced_of_result|intros fmts].
  apply traced_bind; [apply traced_of_result|intros duration].
  apply traced_bind; [apply traced_of_result|intros capture_date].
  apply traced_bind; [apply traced_of_result|intros upload_date].
  apply traced_ret.
Qed.

Lemma traced_real_extract u :
  P (EvDownloadWebpage u) ->
  (forall v data headers, P (EvDownloadJson v data headers)) ->
  P (EvGetCookie www_dropbox (lit "t")) ->
  P (EvGetCookie bare_dropbox (lit "sm_auth")) ->
  (forall v, P (EvExtractM3u8 v)) ->
  traced self P (_real_extract self u).
Proof.
  intros Hget Hpost Ht Hsm Hm. unfold _real_extract.
  apply traced_bind; [apply traced_fetch_page; auto|intros [video_id webpage]].
  apply traced_bind; [apply traced_scan; auto|intros l].
  apply traced_finish; auto.
Qed.
End Phases_traced.

Section Frame.
Context {World : Type} (self : InfoExtractor World).

(** C9: the cookies an extraction looks at are [t], asked for the URL
    https://www.dropbox.com, and [sm_auth], asked for https://dropbox.com,
    and nothing is written: the world after the call is the world before
    it advanced by the downloads of the log, which lists every request. *)
Theorem cookies_read_only (u : str) (w : World) :
  exists r log,
    extract self u w = (r, (replay self log w, log))
    /\ Forall cookie_read_allowed log
    /\ forall name v,
         In (EvGetCookie v name) log -> name = lit "t" \/ name = lit "sm_auth".
Proof.
  destruct (traced_real_extract self cookie_read_allowed u) with (w := w) (log := @nil event)
    as (r & log & E & H); cbn; auto.
  exists r, log. split; [exact E|]. split; [exact H|].
  intros name v Hin. rewrite Forall_forall in H.
  apply list_elem_of_In, H in Hin. cbn in Hin. tauto.
Qed.
End Frame.

Section Gate.
Context {World : Type} (self : InfoExtractor World).

Lemma fetch_page_run u w log video_id page w1 :
  re_match (_VALID_URL (unicode_alnum self)) u = Some (Some video_id) ->
  download_webpage self u w = (Return page, w1) ->
  fetch_page self u (w, log)
  = match password_gate self u page (w1, log ++ [EvDownloadWebpage u]) with
    | (Return p, s) => (Return (video_id, p), s)
    | (Raise e, s) => (Raise e, s)
    end.
Proof.
  intros Hid Hpage. unfold fetch_page, _match_id. rewrite Hid.
  rewrite bind_run. cbn [mret M_ret]. rewrite bind_run.
  unfold _download_webpage at 1. rewrite Hpage. rewrite bind_run.
  destruct (password_gate self u page _) as [[e|p] s]; reflexivity.
Qed.

Lemma real_extract_run u s video_id page s1 :
  fetch_page self u s = (Return (video_id, page), s1) ->
  _real_extract self u s
  = (scan self (rev (tokens self page)) ≫= finish self u video_id) s1.
Proof. intros H. unfold _real_extract. rewrite (bind_return _ _ _ _ _ H). reflexivity. Qed.

Lemma real_extract_raise u s e s1 :
  fetch_page self u s = (Raise e, s1) -> _real_extract self u s = (Raise e, s1).
Proof. intros H. unfold _real_extract. apply bind_raise, H. Qed.

Lemma gate_open u page s :
  is_gated self page = false -> password_gate self u page s = (Return page, s).
Proof. intros H. unfold password_gate. rewrite H. reflexivity. Qed.

Lemma gate_closed u page w log :
  is_gated self page = true ->
  opt_truthy (videopassword self) = false ->
  get_cookies self bare_dropbox w !! lit "sm_auth" = None ->
  password_gate self u page (w, log)
  = (Raise password_required,
     (w, log ++ [EvGetCookie bare_dropbox (lit "sm_auth")])).
Proof.
  intros Hg Hp Hc. unfold password_gate. rewrite Hg, Hp.
  rewrite bind_run. unfold _get_cookie. rewrite Hc. reflexivity.
Qed.

(** C2: on a gated page, without a password and without the [sm_auth]
    cookie, extraction raises the expected error that asks for a password;
    all it has done by then is the first page download and the cookie
    lookup, so there is no auth POST and no second page download. *)
Theorem password_required_without_credentials u w video_id page w1 :
  re_match (_VALID_URL (unicode_alnum self)) u = Some (Some video_id) ->
  download_webpage self u w = (Return page, w1) ->
  is_gated self page = true ->
  opt_truthy (videopassword self) = false ->
  get_cookies self bare_dropbox w1 !! lit "sm_auth" = None ->
  exists log,
    extract self u w = (Raise password_required, (w1, log))
    /\ is_expected password_required = true
    /\ log = [EvDownloadWebpage u; EvGetCookie bare_dropbox (lit "sm_auth")]
    /\ count is_auth_post log = 0%nat
    /\ count is_page_download log = 1%nat.
Proof.
  intros Hid Hpage Hg Hp Hc. eexists. split; [|split; [reflexivity|]].
  - unfold extract. apply real_extract_raise.
    rewrite (fetch_page_run _ _ _ _ _ _ Hid Hpage).
    rewrite (gate_closed _ _ _ _ Hg Hp Hc). reflexivity.
  - repeat split; reflexivity.
Qed.
End Gate.

Section Counting.
Lemma count_app p l1 l2 : count p (l1 ++ l2) = (count p l1 + count p l2)%nat.
Proof. unfold count. rewrite List.filter_app, length_app. reflexivity. Qed.

Lemma count_none p l : Forall (fun e => p e = false) l -> count p l = 0%nat.
Proof.
  unfold count. induction 1 as [|e l He _ IH]; [reflexivity|].
  cbn. rewrite He. exact IH.
Qed.
End Counting.

Section After_the_gate.
Context {World : Type} (self : InfoExtractor World).

(** What follows the gate downloads no page and posts nothing to the auth
    endpoint. *)
Lemma after_gate_quiet u video_id page w log :
  exists res rest,
    (scan self (rev (tokens self page)) ≫= finish self u video_id) (w, log)
    = (res, (replay self rest w, log ++ rest))
    /\ count is_page_download rest = 0%nat
    /\ count is_auth_post rest = 0%nat.
Proof.
  pose (P := fun e => is_page_download e = false /\ is_auth_post e = false).
  assert (T : traced self P
                (scan self (rev (tokens self page)) ≫= finish self u video_id)).
  { apply traced_bind; [apply traced_scan|intros l; apply traced_finish];
      intros; split; reflexivity. }
  destruct (T w log) as (res & rest & E & HP).
  exists res, rest. split; [exact E|].
  split; apply count_none; eapply Forall_impl; try exact HP;
    intros e [H1 H2]; assumption.
Qed.

(** Before the metadata request nothing is posted to the metadata
    endpoint. *)
Lemma before_metadata_quiet u w res w' log :
  (fetch_page self u ≫= fun p => scan self (rev (tokens self p.2))) (w, [])
  = (res, (w', log)) ->
  count is_metadata_post log = 0%nat.
Proof.
  pose (P := fun e => is_metadata_post e = false).
  assert (T : traced self P
                (fetch_page self u ≫= fun p => scan self (rev (tokens self p.2)))).
  { apply traced_bind; [apply traced_fetch_page|intros p; apply traced_scan];
      intros; reflexivity. }
  destruct (T w []) as (res' & rest & E & HP). rewrite E.
  intros [= _ _ <-]. apply count_none, HP.
Qed.
End After_the_gate.

Section Authentication.
Context {World : Type} (self : InfoExtractor World).

Lemma gate_auth u page w log pw content_id t r w2 :
  is_gated self page = true ->
  videopassword self = Some pw ->
  opt_truthy (Some pw) = true ->
  _search_regex re_content_id page = Some content_id ->
  get_cookies self www_dropbox w !! lit "t" = Some t ->
  existsb is_surrogate (auth_payload t content_id pw u) = false ->
  let data := utf8 (auth_payload t content_id pw u) in
  download_json self auth_url data auth_headers w = (r, w2) ->
  let log2 := log ++ [EvGetCookie www_dropbox (lit "t");
                      EvDownloadJson auth_url data auth_headers] in
  password_gate self u page (w, log)
  = match r with
    | Raise e => (Raise e, (w2, log2))
    | Return response =>
        match py_get response (lit "status") VNone with
        | Raise e => (Raise e, (w2, log2))
        | Return status =>
            if py_eq_str status (lit "authed")
            then _download_webpage self u (w2, log2)
            else (Raise authentication_failed, (w2, log2))
        end
    end.
Proof.
  intros Hg Hpw Hp Hcid Ht Henc data Hpost log2.
  unfold password_gate. rewrite Hg, Hpw, Hp.
  unfold _search_regex_fatal. rewrite Hcid.
  rewrite bind_run. cbn [mret M_ret]. rewrite bind_run.
  unfold _get_cookie_value. rewrite bind_run. unfold _get_cookie. rewrite Ht.
  cbn [mret M_ret]. change (default [] (Some pw)) with pw.
  rewrite bind_of_result. unfold str_encode. rewrite Henc. rewrite bind_run.
  unfold _download_json. fold data. rewrite Hpost.
  subst log2. rewrite <- app_assoc. cbn [app].
  destruct r as [e|response]; [reflexivity|].
  rewrite bind_of_result.
  destruct (py_get response (lit "status") VNone) as [e|status]; [reflexivity|].
  destruct (py_eq_str status (lit "authed")); reflexivity.
Qed.

Lemma gate_without_csrf u page w log pw :
  is_gated self page = true ->
  videopassword self = Some pw ->
  opt_truthy (Some pw) = true ->
  get_cookies self www_dropbox w !! lit "t" = None ->
  password_gate self u page (w, log)
  = match _search_regex re_content_id page with
    | None => (Raise (RegexNotFoundError "content_id"), (w, log))
    | Some _ =>
        (Raise no_value, (w, log ++ [EvGetCookie www_dropbox (lit "t")]))
    end.
Proof.
  intros Hg Hpw Hp Ht. unfold password_gate. rewrite Hg, Hpw, Hp.
  unfold _search_regex_fatal.
  destruct (_search_regex re_content_id page) as [cid|]; [|reflexivity].
  rewrite bind_run. cbn [mret M_ret]. rewrite bind_run.
  unfold _get_cookie_value. rewrite bind_run. unfold _get_cookie. rewrite Ht.
  reflexivity.
Qed.

Lemma gate_unencodable u page w log pw content_id t :
  is_gated self page = true ->
  videopassword self = Some pw ->
  opt_truthy (Some pw) = true ->
  _search_regex re_content_id page = Some content_id ->
  get_cookies self www_dropbox w !! lit "t" = Some t ->
  existsb is_surrogate (auth_payload t content_id pw u) = true ->
  password_gate self u page (w, log)
  = (Raise surrogates_not_allowed,
     (w, log ++ [EvGetCookie www_dropbox (lit "t")])).
Proof.
  intros Hg Hpw Hp Hcid Ht Henc.
  unfold password_gate. rewrite Hg, Hpw, Hp.
  unfold _search_regex_fatal. rewrite Hcid.
  rewrite bind_run. cbn [mret M_ret]. rewrite bind_run.
  unfold _get_cookie_value. rewrite bind_run. unfold _get_cookie. rewrite Ht.
  cbn [mret M_ret]. change (default [] (Some pw)) with pw.
  rewrite bind_of_result. unfold str_encode. rewrite Henc. reflexivity.
Qed.
End Authentication.

Section Auth_post.
Context {World : Type} (self : InfoExtractor World).

Lemma is_auth_post_auth data headers :
  is_auth_post (EvDownloadJson auth_url data headers) = true.
Proof. cbn. apply bool_decide_eq_true_2. reflexivity. Qed.

Lemma count_auth_prefix u cu cn data headers rest :
  count is_auth_post rest = 0%nat ->
  count is_auth_post
    ([EvDownloadWebpage u; EvGetCookie cu cn;
      EvDownloadJson auth_url data headers] ++ rest)
  = 1%nat.
Proof.
  intros H. rewrite count_app, H. unfold count. cbn [List.filter].
  change (is_auth_post (EvDownloadWebpage u)) with false.
  change (is_auth_post (EvGetCookie cu cn)) with false.
  rewrite is_auth_post_auth. reflexivity.
Qed.

(** C3, as the code has it: on a gated page with a password, once the
    [content_id] is found in the page, the [t] cookie is present and the
    body of the POST has no surrogate in it, exactly one POST goes to the
    auth endpoint.  If it answers with a JSON object whose status is
    "authed", the page is downloaded once more, no other page download or
    auth POST follows, and extraction continues on the new page; if the
    status is anything else, extraction raises the expected authentication
    error straight after the POST, with the first page download as the only
    one.  When the [content_id] is not found, or the [t] cookie is absent,
    or the body cannot be encoded, extraction raises before any POST to the
    auth endpoint. *)
Theorem one_auth_post_then_one_refetch u w video_id page w1 pw :
  re_match (_VALID_URL (unicode_alnum self)) u = Some (Some video_id) ->
  download_webpage self u w = (Return page, w1) ->
  is_gated self page = true ->
  videopassword self = Some pw ->
  opt_truthy (Some pw) = true ->
  let log_t := [EvDownloadWebpage u; EvGetCookie www_dropbox (lit "t")] in
  (forall content_id t r w2,
     _search_regex re_content_id page = Some content_id ->
     get_cookies self www_dropbox w1 !! lit "t" = Some t ->
     existsb is_surrogate (auth_payload t content_id pw u) = false ->
     let data := utf8 (auth_payload t content_id pw u) in
     download_json self auth_url data auth_headers w1 = (r, w2) ->
     let log2 := [EvDownloadWebpage u; EvGetCookie www_dropbox (lit "t");
                  EvDownloadJson auth_url data auth_headers] in
     (exists res w' rest,
        extract self u w = (res, (w', log2 ++ rest))
        /\ count is_auth_post (log2 ++ rest) = 1%nat)
     /\ (forall response status,
           r = Return response ->
           py_get response (lit "status") VNone = Return status ->
           py_eq_str status (lit "authed") = true ->
           (exists res w' rest,
              extract self u w
              = (res, (w', log2 ++ EvDownloadWebpage u :: rest))
              /\ count is_page_download rest = 0%nat
              /\ count is_auth_post rest = 0%nat)
           /\ forall page2 w3,
                download_webpage self u w2 = (Return page2, w3) ->
                extract self u w
                = (scan self (rev (tokens self page2))
                   ≫= finish self u video_id)
                    (w3, log2 ++ [EvDownloadWebpage u]))
     /\ (forall response status,
           r = Return response ->
           py_get response (lit "status") VNone = Return status ->
           py_eq_str status (lit "authed") = false ->
           extract self u w = (Raise authentication_failed, (w2, log2))
           /\ is_expected authentication_failed = true
           /\ count is_page_download log2 = 1%nat))
  /\ (_search_regex re_content_id page = None ->
      extract self u w
      = (Raise (RegexNotFoundError "content_id"), (w1, [EvDownloadWebpage u])))
  /\ (forall content_id,
        _search_regex re_content_id page = Some content_id ->
        get_cookies self www_dropbox w1 !! lit "t" = None ->
        extract self u w = (Raise no_value, (w1, log_t)))
  /\ (forall content_id t,
        _search_regex re_content_id page = Some content_id ->
        get_cookies self www_dropbox w1 !! lit "t" = Some t ->
        existsb is_surrogate (auth_payload t content_id pw u) = true ->
        extract self u w = (Raise surrogates_not_allowed, (w1, log_t)))
  /\ count is_auth_post [EvDownloadWebpage u] = 0%nat
  /\ count is_auth_post log_t = 0%nat.
Proof.
  intros Hid Hpage Hg Hpw Hp log_t.
  pose proof (fetch_page_run self u w [] video_id page w1 Hid Hpage) as F0.
  split; [|split; [|split; [|split; [|split; reflexivity]]]].
  2:{ intros Hcid. unfold extract. apply real_extract_raise.
      rewrite F0. unfold password_gate. rewrite Hg, Hpw, Hp.
      unfold _search_regex_fatal. rewrite Hcid. reflexivity. }
  2:{ intros content_id Hcid Ht. unfold extract. apply real_extract_raise.
      rewrite F0, (gate_without_csrf self u page w1 _ pw Hg Hpw Hp Ht), Hcid.
      reflexivity. }
  2:{ intros content_id t Hcid Ht Henc. unfold extract. apply real_extract_raise.
      rewrite F0,
        (gate_unencodable self u page w1 _ pw content_id t Hg Hpw Hp Hcid Ht Henc).
      reflexivity. }
  intros content_id t r w2 Hcid Ht Henc data Hpost log2.
  pose proof F0 as F.
  rewrite (gate_auth self u page w1 _ pw content_id t r w2
             Hg Hpw Hp Hcid Ht Henc Hpost) in F.
  cbn [app] in F. fold data in F. fold log2 in F.
  assert (Hauthed : forall response status,
    r = Return response ->
    py_get response (lit "status") VNone = Return status ->
    py_eq_str status (lit "authed") = true ->
    (exists res w' rest,
       extract self u w = (res, (w', log2 ++ EvDownloadWebpage u :: rest))
       /\ count is_page_download rest = 0%nat
       /\ count is_auth_post rest = 0%nat)
    /\ forall page2 w3,
         download_webpage self u w2 = (Return page2, w3) ->
         extract self u w
         = (scan self (rev (tokens self page2)) ≫= finish self u video_id)
             (w3, log2 ++ [EvDownloadWebpage u])).
  { intros response status -> Hs Ha. rewrite Hs, Ha in F.
    unfold _download_webpage in F.
    destruct (download_webpage self u w2) as [[e|page2] w3] eqn:E2.
    - split; [|intros ? ? [=]].
      exists (Raise e), w3, []. split; [|split; reflexivity].
      unfold extract. apply real_extract_raise. exact F.
    - assert (R : extract self u w
                  = (scan self (rev (tokens self page2)) ≫= finish self u video_id)
                      (w3, log2 ++ [EvDownloadWebpage u])).
      { unfold extract. apply real_extract_run. exact F. }
      split; [|intros ? ? [= <- <-]; exact R].
      destruct (after_gate_quiet self u video_id page2 w3
                  (log2 ++ [EvDownloadWebpage u]))
        as (res & rest & E & Hq1 & Hq2).
      exists res, (replay self rest w3), rest.
      rewrite R, E. split; [|auto]. rewrite <- app_assoc. reflexivity. }
  assert (Hdenied : forall response status,
    r = Return response ->
    py_get response (lit "status") VNone = Return status ->
    py_eq_str status (lit "authed") = false ->
    extract self u w = (Raise authentication_failed, (w2, log2))).
  { intros response status -> Hs Ha. rewrite Hs, Ha in F.
    unfold extract. apply real_extract_raise. exact F. }
  split; [|split; [exact Hauthed|]].
  - destruct r as [e|response].
    { exists (Raise e), w2, []. rewrite app_nil_r. split.
      - unfold extract. apply real_extract_raise. exact F.
      - rewrite <- (app_nil_r log2). apply (count_auth_prefix u _ _ data auth_headers []).
        reflexivity. }
    destruct (py_get response (lit "status") VNone) as [e|status] eqn:Hs.
    { exists (Raise e), w2, []. rewrite app_nil_r. split.
      - unfold extract. apply real_extract_raise. exact F.
      - rewrite <- (app_nil_r log2). apply (count_auth_prefix u _ _ data auth_headers []).
        reflexivity. }
    destruct (py_eq_str status (lit "authed")) eqn:Ha.
    + destruct (Hauthed response status eq_refl Hs Ha)
        as [(res & w' & rest & E & _ & Hq) _].
      exists res, w', (EvDownloadWebpage u :: rest). split; [exact E|].
      apply (count_auth_prefix u _ _ data auth_headers (EvDownloadWebpage u :: rest)).
      exact Hq.
    + exists (Raise authentication_failed), w2, []. rewrite app_nil_r. split.
      * exact (Hdenied response status eq_refl Hs Ha).
      * rewrite <- (app_nil_r log2). apply (count_auth_prefix u _ _ data auth_headers []).
        reflexivity.
  - intros response status Hr Hs Ha.
    split; [exact (Hdenied response status Hr Hs Ha)|split; reflexivity].
Qed.
End Auth_post.

Section Finish.
Context {World : Type} (self : InfoExtractor World).

Lemma finish_with_metadata u video_id l s md s' :
  fetch_metadata self u (video_internal_id l) s = (Return (VDict md), s') ->
  finish self u video_id l s
  = match unified_strdate self
            (default VNone (dict_get md (lit "capture_date"))) with
    | Return upload_date =>
        (Return (assembled self u video_id l md upload_date), s')
    | Raise e => (Raise e, s')
    end.
Proof.
  intros H. unfold finish. rewrite (bind_return _ _ _ _ _ H).
  rewrite bind_of_result. unfold with_original, py_get.
  destruct (opt_truthy (has_anonymous_download l)) eqn:Ha;
    rewrite !bind_of_result;
    (destruct (unified_strdate _ _); [reflexivity|]);
    unfold assembled; rewrite Ha, ?app_nil_r; reflexivity.
Qed.

Lemma finish_without_metadata_raise u video_id l s e s' :
  fetch_metadata self u (video_internal_id l) s = (Raise e, s') ->
  finish self u video_id l s = (Raise e, s').
Proof. intros H. unfold finish. apply bind_raise, H. Qed.

Lemma fetch_metadata_no_id u id s :
  opt_truthy id = false -> fetch_metadata self u id s = (Return (VDict []), s).
Proof. intros H. unfold fetch_metadata. rewrite H. reflexivity. Qed.

Lemma fetch_metadata_without_csrf u id w log :
  opt_truthy id = true ->
  get_cookies self www_dropbox w !! lit "t" = None ->
  fetch_metadata self u id (w, log)
  = (Raise no_value, (w, log ++ [EvGetCookie www_dropbox (lit "t")])).
Proof.
  intros Hid Ht. unfold fetch_metadata. rewrite Hid.
  rewrite bind_run. unfold _get_cookie_value. rewrite bind_run.
  unfold _get_cookie. rewrite Ht. reflexivity.
Qed.

Lemma fetch_metadata_request u id w log t r w' :
  opt_truthy id = true ->
  get_cookies self www_dropbox w !! lit "t" = Some t ->
  let data :=
    encode_utf8 self (json_dumps self (metadata_payload (default [] id) u)) in
  download_json self metadata_url data (metadata_headers t) w = (r, w') ->
  let log' := log ++ [EvGetCookie www_dropbox (lit "t");
                      EvDownloadJson metadata_url data (metadata_headers t)] in
  fetch_metadata self u id (w, log)
  = match r with
    | Raise _ => (Return (VDict []), (w', log'))
    | Return json_result =>
        if py_truthy json_result
        then (py_get json_result (lit "metadata") (VDict []), (w', log'))
        else (Return (VDict []), (w', log'))
    end.
Proof.
  intros Hid Ht data Hr log'. unfold fetch_metadata. rewrite Hid.
  rewrite bind_run. unfold _get_cookie_value. rewrite bind_run.
  unfold _get_cookie. rewrite Ht. cbn [mret M_ret]. rewrite bind_run.
  unfold _download_json_nonfatal, _download_json. fold data. rewrite Hr.
  subst log'. rewrite <- app_assoc. cbn [app].
  destruct r as [e|json_result]; [reflexivity|].
  destruct (py_truthy json_result); reflexivity.
Qed.
End Finish.

Section Csrf_cookie.
Context {World : Type} (self : InfoExtractor World).

Lemma extract_after_scan u w video_id page s1 l s2 :
  fetch_page self u (w, []) = (Return (video_id, page), s1) ->
  scan self (rev (tokens self page)) s1 = (Return l, s2) ->
  extract self u w = finish self u video_id l s2
  /\ (fetch_page self u ≫= fun p => scan self (rev (tokens self p.2))) (w, [])
     = (Return l, s2).
Proof.
  intros Hf Hs. split.
  - unfold extract. rewrite (real_extract_run self _ _ _ _ _ Hf).
    apply bind_return, Hs.
  - rewrite (bind_return _ _ _ _ _ Hf). exact Hs.
Qed.

(** C10: the [t] cookie is read without a guard.  On a gated page with a
    password, and again once an internal id has been recovered, a cookie
    jar without [t] makes extraction fail with an error that is not an
    expected one, before the request that needs the cookie is issued: the
    log holds no POST to the auth endpoint, respectively none to the
    metadata endpoint. *)
Theorem csrf_cookie_is_required u w :
  (forall video_id page w1 pw,
     re_match (_VALID_URL (unicode_alnum self)) u = Some (Some video_id) ->
     download_webpage self u w = (Return page, w1) ->
     is_gated self page = true ->
     videopassword self = Some pw ->
     opt_truthy (Some pw) = true ->
     get_cookies self www_dropbox w1 !! lit "t" = None ->
     exists e log,
       extract self u w = (Raise e, (w1, log))
       /\ is_expected e = false
       /\ count is_auth_post log = 0%nat
       /\ (is_Some (_search_regex re_content_id page) -> e = no_value))
  /\ (forall video_id page s1 l w2 log2,
        fetch_page self u (w, []) = (Return (video_id, page), s1) ->
        scan self (rev (tokens self page)) s1 = (Return l, (w2, log2)) ->
        opt_truthy (video_internal_id l) = true ->
        get_cookies self www_dropbox w2 !! lit "t" = None ->
        extract self u w
        = (Raise no_value, (w2, log2 ++ [EvGetCookie www_dropbox (lit "t")]))
        /\ is_expected no_value = false
        /\ count is_metadata_post
             (log2 ++ [EvGetCookie www_dropbox (lit "t")]) = 0%nat).
Proof.
  split.
  - intros video_id page w1 pw Hid Hpage Hg Hpw Hp Ht.
    pose proof (fetch_page_run self u w [] video_id page w1 Hid Hpage) as F.
    rewrite (gate_without_csrf self u page w1 _ pw Hg Hpw Hp Ht) in F.
    destruct (_search_regex re_content_id page) as [cid|].
    + exists no_value, ([EvDownloadWebpage u] ++ [EvGetCookie www_dropbox (lit "t")]).
      split; [unfold extract; apply real_extract_raise, F|].
      repeat split; reflexivity.
    + exists (RegexNotFoundError "content_id"), ([] ++ [EvDownloadWebpage u]).
      split; [unfold extract; apply real_extract_raise, F|].
      repeat split; try reflexivity. intros [x [=]].
  - intros video_id page s1 l w2 log2 Hf Hs Hid Ht.
    destruct (extract_after_scan u w video_id page s1 l _ Hf Hs) as [E Q].
    split; [|split; [reflexivity|]].
    + rewrite E. apply finish_without_metadata_raise.
      apply fetch_metadata_without_csrf; assumption.
    + rewrite count_app, (before_metadata_quiet self u w _ _ _ Q). reflexivity.
Qed.

(** C6: once an internal id has been recovered and the metadata request
    has been issued, its failure does not raise: extraction returns a
    record whose duration and upload date are unset, and the entry of the
    original file, when there is one, has width, height, fps and vcodec
    unset. *)
Theorem metadata_failure_is_absorbed
    u w video_id page s1 l w2 log2 t e w3 :
  fetch_page self u (w, []) = (Return (video_id, page), s1) ->
  scan self (rev (tokens self page)) s1 = (Return l, (w2, log2)) ->
  opt_truthy (video_internal_id l) = true ->
  get_cookies self www_dropbox w2 !! lit "t" = Some t ->
  let data :=
    encode_utf8 self
      (json_dumps self
         (metadata_payload (default [] (video_internal_id l)) u)) in
  download_json self metadata_url data (metadata_headers t) w2 = (Raise e, w3) ->
  exists r log,
    extract self u w = (Return r, (w3, log))
    /\ r = assembled self u video_id l [] VNone
    /\ info_duration r = VNone
    /\ info_upload_date r = VNone
    /\ info_formats r
       = formats l
         ++ (if opt_truthy (has_anonymous_download l)
             then [original_format self u VNone VNone VNone VNone]
             else [])
    /\ log = log2 ++ [EvGetCookie www_dropbox (lit "t");
                      EvDownloadJson metadata_url data (metadata_headers t)].
Proof.
  intros Hf Hs Hid Ht data Hr.
  destruct (extract_after_scan u w video_id page s1 l _ Hf Hs) as [E _].
  pose proof (fetch_metadata_request self u _ w2 log2 t _ w3 Hid Ht Hr) as F.
  cbv zeta in F. fold data in F.
  eexists _, _. split.
  - rewrite E. rewrite (finish_with_metadata self _ _ _ _ _ _ F). reflexivity.
  - repeat split; reflexivity.
Qed.
End Csrf_cookie.

Section Scan.
Context {World : Type} (self : InfoExtractor World).

Lemma scan_find_payload encodeds s :
  scan self encodeds s
  = match find_payload encodeds with
    | Raise e => (Raise e, s)
    | Return None => (Return locals_init, s)
    | Return (Some (decoded, transcode_url)) =>
        commit self decoded transcode_url s
    end.
Proof.
  induction encodeds as [|encoded rest IH]; [reflexivity|].
  cbn [scan find_payload]. rewrite bind_of_result.
  destruct (decode_token encoded) as [e|decoded]; [reflexivity|].
  destruct (negb _); [exact IH|reflexivity].
Qed.

Lemma find_payload_rejected later rest :
  forallb rejected later = true ->
  find_payload (later ++ rest) = find_payload rest.
Proof.
  induction later as [|t later IH]; [reflexivity|].
  cbn [forallb app find_payload]. unfold rejected at 1.
  destruct (decode_token t) as [e|d]; [discriminate|].
  destruct (negb _); [exact IH|discriminate].
Qed.

Lemma find_payload_all_rejected encodeds :
  forallb rejected encodeds = true -> find_payload encodeds = Return None.
Proof.
  intros H. rewrite <- (app_nil_r encodeds).
  rewrite (find_payload_rejected _ _ H). reflexivity.
Qed.

(** C8, as the code has it: when every token of the page that passed the
    gate decodes to a text without a manifest URL, extraction returns,
    without a further request, the record with the identifier and the title
    taken from the URL, no formats, no subtitles, no thumbnails and the
    storyboard, duration and upload date unset.  For a page that is not
    gated, the page downloaded first is that page. *)
Theorem no_manifest_is_not_an_error u w :
  (forall video_id page s1,
     fetch_page self u (w, []) = (Return (video_id, page), s1) ->
     forallb rejected (tokens self page) = true ->
     extract self u w = (Return (bare_result self u video_id), s1))
  /\ (forall video_id page w1,
        re_match (_VALID_URL (unicode_alnum self)) u = Some (Some video_id) ->
        download_webpage self u w = (Return page, w1) ->
        is_gated self page = false ->
        forallb rejected (tokens self page) = true ->
        extract self u w
        = (Return (bare_result self u video_id), (w1, [EvDownloadWebpage u])))
  /\ (forall video_id,
        let r := bare_result self u video_id in
        info_id r = video_id
        /\ info_title r
           = splitext_root
               (compat_urllib_parse_unquote self (url_basename self u))
        /\ info_formats r = []
        /\ info_subtitles r = VDict []
        /\ info_thumbnails r = []
        /\ info_storyboard_url r = None
        /\ info_duration r = VNone
        /\ info_upload_date r = VNone).
Proof.
  assert (G : forall video_id page s1,
     fetch_page self u (w, []) = (Return (video_id, page), s1) ->
     forallb rejected (tokens self page) = true ->
     extract self u w = (Return (bare_result self u video_id), s1)).
  { intros video_id page s1 Hf Hrej.
    assert (Hrej' : forallb rejected (rev (tokens self page)) = true).
    { rewrite forallb_forall in *. intros x Hx. apply Hrej, in_rev, Hx. }
    unfold extract. rewrite (real_extract_run self _ _ _ _ _ Hf).
    rewrite bind_run, scan_find_payload, (find_payload_all_rejected _ Hrej').
    rewrite (finish_with_metadata self u video_id locals_init s1 [] s1);
      [reflexivity|].
    apply fetch_metadata_no_id. reflexivity. }
  split; [exact G|]. split.
  - intros video_id page w1 Hid Hpage Hg Hrej. apply (G video_id page); [|exact Hrej].
    rewrite (fetch_page_run self u w [] video_id page w1 Hid Hpage).
    rewrite (gate_open self u page _ Hg). reflexivity.
  - intros video_id. repeat split; reflexivity.
Qed.
End Scan.

Section Literal_patterns.

Lemma run_Lit {R : Type} p s g (k : str -> option str -> option R) :
  run (Lit p) s g k
  = match strip_prefix p s with
    | Some rest => k rest g
    | None => None
    end.
Proof.
  revert s. induction p as [|c p IH]; intros s; [reflexivity|].
  cbn [Lit run strip_prefix]. destruct s as [|x s]; [reflexivity|].
  destruct (c =? x); [apply IH|reflexivity].
Qed.




End Literal_patterns.

Section Result.
Context {World : Type} (self : InfoExtractor World).

(** An extraction that returns went through a metadata dict. *)
Lemma finish_returns u video_id l s r s' :
  finish self u video_id l s = (Return r, s') ->
  exists md upload_date,
    fetch_metadata self u (video_internal_id l) s = (Return (VDict md), s')
    /\ r = assembled self u video_id l md upload_date.
Proof.
  intros H.
  destruct (fetch_metadata self u (video_internal_id l) s) as [[e|v] s2] eqn:F.
  { rewrite (finish_without_metadata_raise self _ _ _ _ _ _ F) in H.
    discriminate. }
  destruct v as [| | | | | |md];
    try (exfalso; unfold finish in H; rewrite (bind_return _ _ _ _ _ F) in H;
         rewrite bind_of_result in H; unfold with_original in H;
         destruct (opt_truthy (has_anonymous_download l));
         cbn [py_get] in H; try discriminate;
         rewrite bind_of_result in H; discriminate).
  rewrite (finish_with_metadata self _ _ _ _ _ _ F) in H.
  destruct (unified_strdate self _) as [e|upload_date]; [discriminate|].
  injection H as <- <-. eauto.
Qed.




(** C4: when the scan left a non-empty thumbnail URL, the result has
    seven thumbnails, of widths 480, 640, 800, 1024, 1280, 1600 and 2048 in
    this order; the URL of each is the base URL with the query parameters
    size (the label of the entry) and size_mode=2; the entry of width 1280
    has preference 1 and the six others preference -1.  When the scan left
    no thumbnail URL, the result has no thumbnail. *)
Theorem seven_thumbnails u video_id l s r s' :
  finish self u video_id l s = (Return r, s') ->
  (forall base,
     thumbnail_url l = Some base -> base <> [] ->
     length (info_thumbnails r) = 7%nat
     /\ map width (info_thumbnails r)
        = [480; 640; 800; 1024; 1280; 1600; 2048]%Z
     /\ map height (info_thumbnails r)
        = [320; 480; 600; 768; 960; 1200; 1536]%Z
     /\ map url (info_thumbnails r)
        = map (fun label =>
                 update_url_query self base
                   [("size", label); ("size_mode", "2")]%string)
              ["480x320"; "640x480"; "800x600"; "1024x768"; "1280x960";
               "1600x1200"; "2048x1536"]%string
     /\ map (fun t => (width t, preference t)) (info_thumbnails r)
        = [(480, -1); (640, -1); (800, -1); (1024, -1); (1280, 1);
           (1600, -1); (2048, -1)]%Z
     /\ StronglySorted Z.lt (map width (info_thumbnails r)))
  /\ (thumbnail_url l = None -> info_thumbnails r = []).
Proof.
  intros H. apply finish_returns in H. destruct H as (md & ud & _ & ->).
  unfold assembled. cbn [info_thumbnails]. split.
  - intros base -> Hne. unfold thumbnails_of.
    destruct base as [|c base]; [congruence|].
    cbn [opt_truthy]. change (default [] (Some (c :: base))) with (c :: base).
    repeat split; try reflexivity.
    cbn. repeat (constructor; [|repeat constructor; lia]). constructor.
  - intros ->. reflexivity.
Qed.
End Result.

Section Decoding.

Lemma b64_data_count_cons c s :
  b64_data_count (c :: s)
  = ((if b64_is_data c then 1 else 0) + b64_data_count s)%nat.
Proof.
  unfold b64_data_count. cbn [List.filter].
  destruct (b64_is_data c); reflexivity.
Qed.

Lemma a2b_base64_app body tail :
  forall quad_pos leftchar pads out,
    quad_pos < 4 ->
    (forall leftchar' pads' out',
       exists r, a2b_base64 tail (quad_after quad_pos body) leftchar' pads' out'
                 = Return r) ->
    exists r, a2b_base64 (body ++ tail) quad_pos leftchar pads out = Return r.
Proof.
  unfold quad_after.
  induction body as [|c rest IH]; intros q lc p out Hq Ht.
  - cbn [app]. unfold b64_data_count in Ht. cbn [List.filter length] in Ht.
    replace (N.of_nat _) with q in Ht by lia. apply Ht.
  - cbn [app a2b_base64]. unfold b64_data_count in *. cbn [List.filter] in Ht.
    destruct (N.eqb_spec c 61) as [->|Hc].
    + change (b64_is_data 61) with false in Ht.
      destruct (2 <=? q); [destruct (4 <=? q + (p + 1)); [eauto|]|];
        apply IH; assumption.
    + unfold b64_is_data at 1 in Ht. destruct (b64_value c) as [v|].
      * cbn [length] in Ht.
        destruct (N.eqb_spec q 0) as [->|H0];
          [apply IH; [lia|]; intros; replace (N.of_nat _) with
             (N.of_nat ((N.to_nat 0 + S (length (List.filter b64_is_data rest)))
                        mod 4)) by lia; apply Ht|].
        destruct (N.eqb_spec q 1) as [->|H1];
          [apply IH; [lia|]; intros; replace (N.of_nat _) with
             (N.of_nat ((N.to_nat 1 + S (length (List.filter b64_is_data rest)))
                        mod 4)) by lia; apply Ht|].
        destruct (N.eqb_spec q 2) as [->|H2];
          [apply IH; [lia|]; intros; replace (N.of_nat _) with
             (N.of_nat ((N.to_nat 2 + S (length (List.filter b64_is_data rest)))
                        mod 4)) by lia; apply Ht|].
        assert (q = 3) as -> by lia.
        apply IH; [lia|]. intros. replace (N.of_nat _) with
             (N.of_nat ((N.to_nat 3 + S (length (List.filter b64_is_data rest)))
                        mod 4)) by lia. apply Ht.
      * apply IH; assumption.
Qed.

Lemma a2b_base64_second_pad junk rest :
  b64_data_count junk = 0%nat ->
  forall leftchar pads out,
    1 <= pads ->
    exists r, a2b_base64 (junk ++ [61] ++ rest) 2 leftchar pads out = Return r.
Proof.
  induction junk as [|c junk IH]; intros Hj lc p out Hp.
  - cbn [app a2b_base64]. change (61 =? 61) with true.
    change (2 <=? 2) with true. cbn match.
    destruct (N.leb_spec 4 (2 + (p + 1))); [eauto|lia].
  - rewrite b64_data_count_cons in Hj. cbn [app a2b_base64].
    destruct (N.eqb_spec c 61) as [->|Hc].
    + change (2 <=? 2) with true. cbn match.
      destruct (N.leb_spec 4 (2 + (p + 1))); [eauto|lia].
    + unfold b64_is_data in Hj. destruct (b64_value c); [lia|].
      apply IH; [lia|exact Hp].
Qed.

Lemma a2b_base64_returns token :
  well_padded token ->
  exists r, a2b_base64 token 0 0 0 [] = Return r.
Proof.
  intros [H|[(body & junk & rest & -> & H & Hj)|(body & rest & -> & H)]].
  - rewrite <- (app_nil_r token). apply a2b_base64_app; [reflexivity|].
    unfold quad_after. change (N.to_nat 0) with 0%nat. rewrite Nat.add_0_l, H.
    intros. cbn. eauto.
  - apply a2b_base64_app; [reflexivity|].
    unfold quad_after. change (N.to_nat 0) with 0%nat. rewrite Nat.add_0_l, H.
    intros lc p out. cbn [app a2b_base64]. change (61 =? 61) with true.
    change (2 <=? N.of_nat 2) with true. cbn match.
    destruct (4 <=? N.of_nat 2 + (p + 1)) eqn:E; [eauto|].
    apply (a2b_base64_second_pad junk rest Hj). lia.
  - apply a2b_base64_app; [reflexivity|].
    unfold quad_after. change (N.to_nat 0) with 0%nat. rewrite Nat.add_0_l, H.
    intros lc p out. cbn [app a2b_base64]. change (61 =? 61) with true.
    change (2 <=? N.of_nat 3) with true. cbn match.
    destruct (N.leb_spec 4 (N.of_nat 3 + (p + 1))); [eauto|lia].
Qed.

Lemma a2b_base64_padded data :
  forall quad_pos leftchar pads out r,
    quad_pos < 4 ->
    a2b_base64 data quad_pos leftchar pads out = Return r ->
    ((N.to_nat quad_pos + b64_data_count data) mod 4 = 0)%nat
    \/ (exists body junk rest,
          data = body ++ [61] ++ junk ++ [61] ++ rest
          /\ ((N.to_nat quad_pos + b64_data_count body) mod 4 = 2)%nat
          /\ b64_data_count junk = 0%nat)
    \/ (exists body rest,
          data = body ++ [61] ++ rest
          /\ ((N.to_nat quad_pos + b64_data_count body) mod 4 = 3)%nat)
    \/ (quad_pos = 2 /\ 1 <= pads
        /\ exists junk rest,
             data = junk ++ [61] ++ rest /\ b64_data_count junk = 0%nat).
Proof.
  induction data as [|c data IH]; intros q lc p out r Hq; cbn [a2b_base64].
  - destruct (N.eqb_spec q 0) as [->|H0]; [intros _; left; reflexivity|].
    destruct (q =? 1); discriminate.
  - assert (Lift : forall q' lc' p' out',
      q' < 4 ->
      ((N.to_nat q' + b64_data_count data) mod 4
       = (N.to_nat q + b64_data_count (c :: data)) mod 4)%nat ->
      (forall body, ((N.to_nat q' + b64_data_count body) mod 4
                     = (N.to_nat q + b64_data_count (c :: body)) mod 4)%nat) ->
      (q' = 2 -> 1 <= p' -> q = 2 /\ 1 <= p /\ b64_is_data c = false) ->
      a2b_base64 data q' lc' p' out' = Return r ->
      ((N.to_nat q + b64_data_count (c :: data)) mod 4 = 0)%nat
      \/ (exists body junk rest,
            c :: data = body ++ [61] ++ junk ++ [61] ++ rest
            /\ ((N.to_nat q + b64_data_count body) mod 4 = 2)%nat
            /\ b64_data_count junk = 0%nat)
      \/ (exists body rest,
            c :: data = body ++ [61] ++ rest
            /\ ((N.to_nat q + b64_data_count body) mod 4 = 3)%nat)
      \/ (q = 2 /\ 1 <= p
          /\ exists junk rest,
               c :: data = junk ++ [61] ++ rest /\ b64_data_count junk = 0%nat)).
    { intros q' lc' p' out' Hq' E1 E2 E4 H.
      destruct (IH q' lc' p' out' r Hq' H)
        as [H1|[(body & junk & rest & -> & H1 & H2)
               |[(body & rest & -> & H1)|(Hq2 & Hp & junk & rest & -> & Hj)]]].
      - left. rewrite <- E1. exact H1.
      - right. left. exists (c :: body), junk, rest.
        split; [reflexivity|]. rewrite <- E2. auto.
      - right. right. left. exists (c :: body), rest.
        split; [reflexivity|]. rewrite <- E2. exact H1.
      - destruct (E4 Hq2 Hp) as (-> & Hp' & Hc).
        right. right. right. split; [reflexivity|]. split; [exact Hp'|].
        exists (c :: junk), rest. split; [reflexivity|].
        rewrite b64_data_count_cons, Hc. exact Hj. }
    destruct (N.eqb_spec c 61) as [->|Hc].
    + destruct (N.leb_spec 2 q) as [H2|H2].
      * destruct (N.leb_spec 4 (q + (p + 1))) as [H4|H4].
        { intros _. assert (q = 3 \/ (q = 2 /\ 1 <= p)) as [-> | [-> Hp] ] by lia.
          - right. right. left. exists [], data. split; reflexivity.
          - right. right. right. split; [reflexivity|]. split; [exact Hp|].
            exists [], data. split; reflexivity. }
        assert (q = 2) as -> by lia. assert (p = 0) as -> by lia.
        intros H.
        destruct (IH 2 lc (0 + 1) out r Hq H)
          as [H1|[(body & junk & rest & -> & H1 & H2')
                 |[(body & rest & -> & H1)|(_ & _ & junk & rest & -> & Hj)]]].
        { left. rewrite b64_data_count_cons. exact H1. }
        { right. left. exists (61 :: body), junk, rest.
          split; [reflexivity|]. rewrite b64_data_count_cons. auto. }
        { right. right. left. exists (61 :: body), rest.
          split; [reflexivity|]. rewrite b64_data_count_cons. exact H1. }
        { right. left. exists [], junk, rest. split; [reflexivity|].
          split; [reflexivity|exact Hj]. }
      * apply Lift; [exact Hq| | |lia].
        { rewrite b64_data_count_cons. reflexivity. }
        { intros body. rewrite b64_data_count_cons. reflexivity. }
    + destruct (b64_value c) as [v|] eqn:Ev.
      * assert (Hd : b64_is_data c = true) by (unfold b64_is_data; rewrite Ev; reflexivity).
        assert (q = 0 \/ q = 1 \/ q = 2 \/ q = 3) as [-> | [-> | [-> | ->] ] ] by lia;
          cbn [N.eqb Pos.eqb]; apply Lift; try reflexivity; try lia;
          try (rewrite b64_data_count_cons, Hd; lia);
          try (intros body; rewrite b64_data_count_cons, Hd; lia).
      * assert (Hd : b64_is_data c = false) by (unfold b64_is_data; rewrite Ev; reflexivity).
        apply Lift; [exact Hq| | |].
        { rewrite b64_data_count_cons, Hd. reflexivity. }
        { intros body. rewrite b64_data_count_cons, Hd. reflexivity. }
        { intros -> Hp. auto. }
Qed.
Lemma a2b_base64_skips data :
  forall quad_pos leftchar pads out,
    a2b_base64 data quad_pos leftchar pads out
    = a2b_base64 (List.filter b64_relevant data) quad_pos leftchar pads out.
Proof.
  induction data as [|c rest IH]; intros q lc p out; [reflexivity|].
  cbn [List.filter]. unfold b64_relevant at 1, b64_is_data at 1.
  destruct (N.eqb_spec c 61) as [->|Hc].
  - cbn [orb a2b_base64]. change (61 =? 61) with true. cbn match.
    destruct (2 <=? q); [destruct (4 <=? q + (p + 1)); [reflexivity|]|];
      apply IH.
  - cbn [orb]. destruct (b64_value c) as [v|] eqn:Ev.
    + cbn [a2b_base64]. rewrite Ev.
      destruct (N.eqb_spec c 61) as [|_]; [contradiction|].
      destruct (q =? 0); [apply IH|].
      destruct (q =? 1); [apply IH|].
      destruct (q =? 2); apply IH.
    + cbn [a2b_base64]. rewrite Ev.
      destruct (N.eqb_spec c 61) as [|_]; [contradiction|]. apply IH.
Qed.

Lemma is_ascii_filter p s : is_ascii s = true -> is_ascii (List.filter p s) = true.
Proof.
  unfold is_ascii. rewrite !forallb_forall. intros H x Hx.
  apply List.filter_In in Hx. apply H, Hx.
Qed.
End Decoding.

(** * The properties on concrete pages *)

Section Concrete.
Import Mock.

(** A later token that does not decode aborts the extraction, although the
    earlier token holds a manifest. *)
Lemma undecodable_later_token_aborts_scan :
  tokens broken_site broken_page = [lit token_full; lit token_short]
  /\ (exists decoded,
        decode_token (lit token_full) = Return decoded
        /\ _search_regex re_transcode_url decoded = Some manifest_url)
  /\ decode_token (lit token_short) = Raise (BinasciiError "Incorrect padding")
  /\ scan broken_site (rev (tokens broken_site broken_page)) (w0, [])
     = (Raise (BinasciiError "Incorrect padding"), (w0, []))
  /\ (extract broken_site share_url w0).1
     = Raise (BinasciiError "Incorrect padding").
Proof.
  split; [vm_compute; reflexivity|].
  split; [eexists; split; vm_compute; reflexivity|].
  repeat split; vm_compute; reflexivity.
Qed.

(** The gated page without password and without session cookie. *)
Lemma password_required_on_gate_page :
  exists log,
    extract (locked_site None unreachable) share_url w0
    = (Raise password_required, ({| served := 1; jar := csrf_jar |}, log))
    /\ is_expected password_required = true
    /\ log = [EvDownloadWebpage share_url;
              EvGetCookie bare_dropbox (lit "sm_auth")]
    /\ count is_auth_post log = 0%nat
    /\ count is_page_download log = 1%nat.
Proof.
  apply (password_required_without_credentials
           (locked_site None unreachable) share_url w0 video_id gate_page).
  all: vm_compute; reflexivity.
Defined.

(** With a password but without the [t] cookie no POST reaches the auth
    endpoint. *)
Lemma no_auth_post_without_csrf_cookie :
  is_gated (locked_site (Some (lit "secret")) (Return authed)) gate_page = true
  /\ opt_truthy (videopassword (locked_site (Some (lit "secret")) (Return authed)))
     = true
  /\ exists s,
       extract (locked_site (Some (lit "secret")) (Return authed)) share_url bare
       = (Raise no_value, s)
       /\ count is_auth_post s.2 = 0%nat
       /\ count is_auth_post s.2 <> 1%nat.
Proof.
  split; [vm_compute; reflexivity|]. split; [vm_compute; reflexivity|].
  eexists. split; [vm_compute; reflexivity|]. split; [reflexivity|discriminate].
Qed.

(** A correct password: one POST, then one more page download. *)
Lemma correct_password_posts_once :
  exists res w' rest,
    extract (locked_site (Some (lit "secret")) (Return authed)) share_url w0
    = (res, (w', [EvDownloadWebpage share_url;
                  EvGetCookie www_dropbox (lit "t");
                  EvDownloadJson auth_url
                    (utf8 (auth_payload (lit "tok") (lit "CID42")
                             (lit "secret") share_url))
                    auth_headers]
                 ++ EvDownloadWebpage share_url :: rest))
    /\ count is_page_download rest = 0%nat
    /\ count is_auth_post rest = 0%nat.
Proof.
  refine (proj1 (proj1 (proj2
    (proj1
       (one_auth_post_then_one_refetch
          (locked_site (Some (lit "secret")) (Return authed)) share_url w0
          video_id gate_page {| served := 1; jar := csrf_jar |}
          (lit "secret") _ _ _ _ _)
       (lit "CID42") (lit "tok") (Return authed)
       {| served := 1; jar := <[lit "sm_auth" := lit "1"]> csrf_jar |}
       _ _ _ _)) authed (VStr (lit "authed")) _ _ _)).
  all: vm_compute; reflexivity.
Defined.

(** The seven thumbnails of the open page. *)
Lemma thumbnails_of_open_page :
  exists r s,
    finish open_site share_url video_id full_locals (w0, []) = (Return r, s)
    /\ map (fun t => (width t, preference t)) (info_thumbnails r)
       = [(480, -1); (640, -1); (800, -1); (1024, -1); (1280, 1);
          (1600, -1); (2048, -1)]%Z.
Proof.
  assert (E : exists r s,
    finish open_site share_url video_id full_locals (w0, []) = (Return r, s))
    by (vm_compute; eauto).
  destruct E as (r & s & E). exists r, s. split; [exact E|].
  apply (proj1 (seven_thumbnails open_site share_url video_id full_locals
                  (w0, []) r s E) thumb_url).
  - reflexivity.
  - discriminate.
Defined.


(** The metadata endpoint is down: the open page is still extracted. *)
Lemma offline_metadata_is_absorbed :
  exists r log,
    extract offline_metadata_site share_url w0
    = (Return r, ({| served := 1; jar := csrf_jar |}, log))
    /\ info_duration r = VNone
    /\ info_upload_date r = VNone
    /\ info_formats r
       = [hls_format;
          original_format offline_metadata_site share_url
            VNone VNone VNone VNone].
Proof.
  destruct (metadata_failure_is_absorbed offline_metadata_site share_url w0
              video_id open_page
              ({| served := 1; jar := csrf_jar |}, [EvDownloadWebpage share_url])
              full_locals {| served := 1; jar := csrf_jar |}
              [EvDownloadWebpage share_url; EvExtractM3u8 manifest_url]
              (lit "tok") (OtherError "HTTP Error 500")
              {| served := 1; jar := csrf_jar |})
    as (r & log & E & _ & Hd & Hu & Hf & _).
  1-5: vm_compute; reflexivity.
  exists r, log. repeat split; assumption.
Defined.

(** A matched token of two characters does not decode, and extraction
    raises. *)
Lemma short_token_raises :
  In (lit token_short) (tokens short_site short_page)
  /\ decode_token (lit token_short) = Raise (BinasciiError "Incorrect padding")
  /\ (extract short_site share_url w0).1
     = Raise (BinasciiError "Incorrect padding").
Proof. repeat split; vm_compute; auto. Qed.

(** A page without a manifest gives the bare record. *)
Lemma empty_page_gives_bare_result :
  extract empty_site share_url bare
  = (Return (bare_result empty_site share_url video_id),
     ({| served := 1; jar := ∅ |}, [EvDownloadWebpage share_url])).
Proof.
  apply (proj1 (proj2 (no_manifest_is_not_an_error empty_site share_url bare))
           video_id empty_page).
  all: vm_compute; reflexivity.
Defined.

(** A page that is not gated, none of whose tokens yields a manifest, on
    which extraction raises. *)
Lemma open_page_without_manifest_raises :
  download_webpage short_site share_url w0
  = (Return short_page, {| served := 1; jar := csrf_jar |})
  /\ is_gated short_site short_page = false
  /\ tokens short_site short_page = [lit token_short]
  /\ (forall decoded,
        decode_token (lit token_short) = Return decoded ->
        _search_regex re_transcode_url decoded = None)
  /\ (exists e s,
        extract short_site share_url w0 = (Raise e, s)
        /\ e <> password_required /\ e <> authentication_failed)
  /\ forall r s, extract short_site share_url w0 <> (Return r, s).
Proof.
  split; [vm_compute; reflexivity|]. split; [vm_compute; reflexivity|].
  split; [vm_compute; reflexivity|]. split; [intros d; vm_compute; discriminate|].
  split.
  - eexists _, _. split; [vm_compute; reflexivity|]. split; discriminate.
  - intros r s. vm_compute. discriminate.
Qed.

(** Without the [t] cookie: the gate with a password, and the open page
    with its internal id. *)
Lemma extraction_fails_without_csrf_cookie :
  (exists e log,
     extract (locked_site (Some (lit "secret")) (Return authed)) share_url bare
     = (Raise e, ({| served := 1; jar := ∅ |}, log))
     /\ is_expected e = false
     /\ count is_auth_post log = 0%nat
     /\ (is_Some (_search_regex re_content_id gate_page) -> e = no_value))
  /\ extract open_site share_url bare
     = (Raise no_value,
        ({| served := 1; jar := ∅ |},
         [EvDownloadWebpage share_url; EvExtractM3u8 manifest_url]
         ++ [EvGetCookie www_dropbox (lit "t")])).
Proof.
  split.
  - apply (proj1 (csrf_cookie_is_required
                    (locked_site (Some (lit "secret")) (Return authed))
                    share_url bare)
             video_id gate_page {| served := 1; jar := ∅ |} (lit "secret")).
    all: vm_compute; reflexivity.
  - apply (proj2 (csrf_cookie_is_required open_site share_url bare)
             video_id open_page
             ({| served := 1; jar := ∅ |}, [EvDownloadWebpage share_url])
             full_locals).
    all: vm_compute; reflexivity.
Defined.
End Concrete.

(** * Further properties *)

Section Matcher_soundness.

Lemma rep_greedy_sound {R : Type} p s (k : str -> option R) x :
  rep_greedy p s k = Some x ->
  exists pre rest, s = pre ++ rest /\ forallb p pre = true /\ k rest = Some x.
Proof.
  induction s as [|c s IH]; cbn [rep_greedy].
  - intros H. exists [], []. auto.
  - destruct (p c) eqn:Ep.
    + destruct (rep_greedy p s k) as [y|] eqn:E.
      * intros [= ->]. destruct (IH eq_refl) as (pre & rest & -> & Hp & Hk).
        exists (c :: pre), rest. cbn. rewrite Ep. auto.
      * intros H. exists [], (c :: s). auto.
    + intros H. exists [], (c :: s). auto.
Qed.

Lemma rep_lazy_sound {R : Type} p s (k : str -> option R) x :
  rep_lazy p s k = Some x ->
  exists pre rest, s = pre ++ rest /\ forallb p pre = true /\ k rest = Some x.
Proof.
  induction s as [|c s IH]; cbn [rep_lazy].
  - destruct (k []) eqn:E; [|discriminate].
    intros [= ->]. exists [], []. auto.
  - destruct (k (c :: s)) as [y|] eqn:E.
    + intros [= ->]. exists [], (c :: s). auto.
    + destruct (p c) eqn:Ep; [|discriminate].
      intros H. destruct (IH H) as (pre & rest & -> & Hp & Hk).
      exists (c :: pre), rest. cbn. rewrite Ep. auto.
Qed.

Lemma rep_sound {R : Type} greedy p s (k : str -> option R) x :
  rep greedy p s k = Some x ->
  exists pre rest, s = pre ++ rest /\ forallb p pre = true /\ k rest = Some x.
Proof. destruct greedy; [apply rep_greedy_sound|apply rep_lazy_sound]. Qed.

(** Whatever the matcher accepts, it accepts by consuming a prefix that
    the pattern describes and handing the rest to its continuation. *)
Lemma run_sound r :
  forall (R : Type) s g (k : str -> option str -> option R) x,
    run r s g k = Some x ->
    exists pre rest g',
      s = pre ++ rest /\ sem r pre g g' /\ k rest g' = Some x.
Proof.
  induction r as [|p|r1 IH1 r2 IH2|r1 IH1 r2 IH2|r1 IH1|greedy one p|r1 IH1|r1 IH1];
    intros R s g k x; cbn [run sem].
  - intros H. exists [], s, g. auto.
  - destruct s as [|c s]; [discriminate|].
    destruct (p c) eqn:Ep; [|discriminate].
    intros H. exists [c], s, g. split; [reflexivity|]. split; [|exact H].
    exists c. auto.
  - intros H. apply IH1 in H. destruct H as (a & rest1 & gm & -> & Ha & H).
    apply IH2 in H. destruct H as (b & rest & g' & -> & Hb & H).
    exists (a ++ b), rest, g'. rewrite <- app_assoc. split; [reflexivity|].
    split; [|exact H]. exists a, b, gm. auto.
  - destruct (run r1 s g k) as [y|] eqn:E.
    + intros [= ->]. apply IH1 in E. destruct E as (pre & rest & g' & -> & Hs & H).
      exists pre, rest, g'. auto.
    + intros H. apply IH2 in H. destruct H as (pre & rest & g' & -> & Hs & H).
      exists pre, rest, g'. auto.
  - destruct (run r1 s g k) as [y|] eqn:E.
    + intros [= ->]. apply IH1 in E. destruct E as (pre & rest & g' & -> & Hs & H).
      exists pre, rest, g'. auto.
    + intros H. exists [], s, g. auto.
  - destruct one.
    + destruct s as [|c s]; [discriminate|].
      destruct (p c) eqn:Ep; [|discriminate].
      intros H. apply rep_sound in H. destruct H as (pre & rest & -> & Hp & H).
      exists (c :: pre), rest, g. split; [reflexivity|]. split; [|exact H].
      cbn. rewrite Ep. repeat split; auto; try (intros; discriminate).
    + intros H. apply rep_sound in H. destruct H as (pre & rest & -> & Hp & H).
      exists pre, rest, g. repeat split; auto; try (intros; discriminate).
  - intros H. apply IH1 in H. destruct H as (pre & rest & gi & -> & Hs & H).
    exists pre, rest, (Some pre). split; [reflexivity|].
    split; [split; [eauto|reflexivity]|].
    rewrite length_app in H.
    replace (length pre + length rest - length rest)%nat with (length pre) in H
      by lia.
    rewrite take_app_length in H. exact H.
  - destruct (run r1 s g _); [discriminate|].
    intros H. exists [], s, g. auto.
Qed.

Lemma match_at_sound r s rest g :
  match_at r s = Some (rest, g) ->
  exists pre, s = pre ++ rest /\ sem r pre None g.
Proof.
  unfold match_at. intros H. apply run_sound in H.
  destruct H as (pre & rest' & g' & -> & Hs & [= -> ->]). eauto.
Qed.

Lemma re_search_sound r s g :
  re_search r s = Some g ->
  exists before pre rest, s = before ++ pre ++ rest /\ sem r pre None g.
Proof.
  induction s as [|c s IH]; cbn [re_search].
  - destruct (match_at r []) as [[rest g']|] eqn:E; [|discriminate].
    intros [= ->]. apply match_at_sound in E. destruct E as (pre & E & Hs).
    exists [], pre, rest. auto.
  - destruct (match_at r (c :: s)) as [[rest g']|] eqn:E.
    + intros [= ->]. apply match_at_sound in E. destruct E as (pre & E & Hs).
      exists [], pre, rest. auto.
    + intros H. destruct (IH H) as (before & pre & rest & -> & Hs).
      exists (c :: before), pre, rest. auto.
Qed.

Lemma findall_from_sound r s :
  forall skip t,
    In t (findall_from r skip s) ->
    exists before pre rest g,
      s = before ++ pre ++ rest /\ sem r pre None g /\ t = default [] g.
Proof.
  induction s as [|c s IH]; intros skip t; cbn [findall_from].
  - destruct skip; [|intros []].
    destruct (match_at r []) as [[rest g]|] eqn:E; [|intros []].
    intros [<-|[]]. apply match_at_sound in E. destruct E as (pre & E & Hs).
    exists [], pre, rest, g. auto.
  - assert (K : forall n, In t (findall_from r n s) ->
      exists before pre rest g,
        c :: s = before ++ pre ++ rest /\ sem r pre None g /\ t = default [] g).
    { intros n H. destruct (IH n t H) as (before & pre & rest & g & -> & Hs & Ht).
      exists (c :: before), pre, rest, g. auto. }
    destruct skip; [|apply K].
    destruct (match_at r (c :: s)) as [[rest g]|] eqn:E; [|apply K].
    intros [<-|H]; [|exact (K _ H)].
    apply match_at_sound in E. destruct E as (pre & E & Hs).
    exists [], pre, rest, g. auto.
Qed.

Lemma sem_Lit p pre g g' : sem (Lit p) pre g g' -> pre = p /\ g' = g.
Proof.
  revert pre g'. induction p as [|c p IH]; intros pre g'; cbn [Lit sem].
  - auto.
  - intros (a & b & gm & -> & (c' & -> & Hc & ->) & Hb).
    apply IH in Hb. destruct Hb as [-> ->].
    apply N.eqb_eq in Hc. subst. auto.
Qed.
End Matcher_soundness.

Section Pattern_shapes.

Ltac sem_inv :=
  repeat match goal with
    | H : sem (Lit _) _ _ _ |- _ => apply sem_Lit in H
    | H : exists _, _ |- _ => destruct H
    | H : _ /\ _ |- _ => destruct H
    end;
  subst.

Lemma search_regex_sound r s u :
  _search_regex r s = Some u ->
  exists before pre rest, s = before ++ pre ++ rest /\ sem r pre None (Some u).
Proof.
  unfold _search_regex. destruct (re_search r s) as [[g|]|] eqn:E; try discriminate.
  cbn. intros [= ->]. apply re_search_sound, E.
Qed.

Lemma sem_register ua pre g :
  sem (re_register ua) pre None g ->
  exists head t,
    pre = head ++ [DQUOTE] ++ t ++ [DQUOTE]
    /\ g = Some t /\ t <> [] /\ forallb (re_token_char ua) t = true.
Proof.
  unfold re_register. cbn [Seq sem]. intros H. sem_inv.
  match goal with
  | |- exists head t,
         ?a ++ ?b ++ ?c ++ ?d ++ ?e ++ ?f ++ ?g ++ ?h ++ ?i ++ ?j
         ++ [DQUOTE] ++ ?t0 ++ [DQUOTE] ++ [] = _ /\ _ =>
      exists (a ++ b ++ c ++ d ++ e ++ f ++ g ++ h ++ i ++ j), t0
  end.
  rewrite app_nil_r, <- !app_assoc. auto.
Qed.

(** X1: every token the scan visits stands between double quotes in the
    page, is not empty and is made of the characters of the class
    [[\w/+=]] only. *)
Theorem tokens_are_quoted_runs {World : Type} (self : InfoExtractor World)
    (page t : str) :
  In t (tokens self page) ->
  t <> []
  /\ forallb (re_token_char (unicode_alnum self)) t = true
  /\ exists before after, page = before ++ [DQUOTE] ++ t ++ [DQUOTE] ++ after.
Proof.
  unfold tokens, re_findall. intros H. apply findall_from_sound in H.
  destruct H as (before & pre & rest & g & -> & Hs & ->).
  apply sem_register in Hs. destruct Hs as (head & t & -> & -> & Hne & Hc).
  cbn [default from_option id]. split; [exact Hne|]. split; [exact Hc|].
  exists (before ++ head), rest. rewrite <- !app_assoc. reflexivity.
Qed.

Lemma sem_transcode_url pre g :
  sem re_transcode_url pre None g ->
  exists c mid,
    pre = [LF; c] ++ lit "https://" ++ mid ++ lit ".m3u8"
    /\ g = Some (lit "https://" ++ mid ++ lit ".m3u8")
    /\ c <> LF /\ mid <> [] /\ forallb re_m3u8_char mid = true.
Proof.
  unfold re_transcode_url. cbn [Seq sem]. intros H. sem_inv.
  match goal with
  | Hc : re_dot ?c = true, Hm : forallb re_m3u8_char ?m = true |- _ =>
      exists c, m
  end.
  rewrite !app_nil_r. repeat split; auto.
  intros ->. discriminate.
Qed.

Lemma transcode_url_parts (decoded u : str) :
  _search_regex re_transcode_url decoded = Some u ->
  exists before c mid after,
    u = lit "https://" ++ mid ++ lit ".m3u8"
    /\ decoded = before ++ [LF; c] ++ u ++ after
    /\ c <> LF /\ mid <> [] /\ forallb re_m3u8_char mid = true.
Proof.
  intros H. apply search_regex_sound in H.
  destruct H as (before & pre & rest & -> & Hs).
  apply sem_transcode_url in Hs.
  destruct Hs as (c & mid & -> & Hg & Hc & Hne & Hm).
  assert (u = lit "https://" ++ mid ++ lit ".m3u8") as -> by congruence.
  exists before, c, mid, rest. rewrite <- !app_assoc. auto.
Qed.

(** X2: a manifest URL found in a decoded text follows a line feed and
    one more character in that text, starts with https://, ends with .m3u8
    and holds, between the two, at least one character and none of the
    bytes 03, 08, 12 (hex) or a line feed.  It is never empty, so the loop
    passes over a token exactly when its text has no such URL. *)
Theorem transcode_url_shape (decoded u : str) :
  _search_regex re_transcode_url decoded = Some u ->
  (exists mid,
     u = lit "https://" ++ mid ++ lit ".m3u8"
     /\ mid <> [] /\ forallb re_m3u8_char mid = true)
  /\ (exists before c after,
        decoded = before ++ [LF; c] ++ u ++ after /\ c <> LF)
  /\ opt_truthy (Some u) = true.
Proof.
  intros H. apply transcode_url_parts in H.
  destruct H as (before & c & mid & after & -> & -> & Hc & Hne & Hm).
  split; [exists mid; auto|]. split; [|reflexivity].
  exists before, c, after. auto.
Qed.

Lemma sem_thumbnail_url pre g :
  sem re_thumbnail_url pre None g ->
  exists x y,
    pre = lit "https://" ++ x ++ lit "thumb" ++ y ++ lit ".jpeg"
    /\ g = Some pre
    /\ x <> [] /\ forallb re_dot x = true /\ forallb re_nonspace y = true.
Proof.
  unfold re_thumbnail_url. cbn [Seq sem]. intros H. sem_inv.
  match goal with
  | Hx : forallb re_dot ?x = true, Hy : forallb re_nonspace ?y = true |- _ =>
      exists x, y
  end.
  rewrite !app_nil_r. cbn [app]. repeat split; auto.
Qed.

Lemma sem_vtt_url pre g :
  sem re_vtt_url pre None g ->
  exists x y,
    pre = lit "https://" ++ x ++ lit "scrubber_thumb_vtt" ++ y ++ lit ".vtt"
    /\ g = Some pre
    /\ x <> [] /\ forallb re_dot x = true /\ forallb re_nonspace y = true.
Proof.
  unfold re_vtt_url. cbn [Seq sem]. intros H. sem_inv.
  match goal with
  | Hx : forallb re_dot ?x = true, Hy : forallb re_nonspace ?y = true |- _ =>
      exists x, y
  end.
  rewrite !app_nil_r. cbn [app]. repeat split; auto.
Qed.
Lemma forallb_In (p : N -> bool) (l : str) c :
  forallb p l = true -> In c l -> p c = true.
Proof. rewrite forallb_forall. auto. Qed.

(** X4: a thumbnail URL found in a decoded text occurs in that text,
    starts with https://, ends with .jpeg, holds the word thumb after at
    least one character, and has no line feed.  It is never empty, so a
    match always gives the seven thumbnails. *)
Theorem thumbnail_url_shape {World : Type} (self : InfoExtractor World)
    (decoded u : str) :
  _search_regex re_thumbnail_url decoded = Some u ->
  (exists x y,
     u = lit "https://" ++ x ++ lit "thumb" ++ y ++ lit ".jpeg"
     /\ x <> [] /\ forallb re_dot x = true /\ forallb re_nonspace y = true)
  /\ (exists before after, decoded = before ++ u ++ after)
  /\ ~ In LF u
  /\ length (thumbnails_of self (Some u)) = 7%nat.
Proof.
  intros H. apply search_regex_sound in H.
  destruct H as (before & pre & rest & -> & Hs).
  apply sem_thumbnail_url in Hs.
  destruct Hs as (x & y & E & Hg & Hne & Hx & Hy).
  assert (u = pre) as -> by congruence.
  split; [exists x, y; auto|]. split; [eauto|]. split.
  - rewrite E. rewrite !in_app_iff.
    intros [H|[H|[H|[H|H]]]].
    + vm_compute in H. intuition discriminate.
    + apply (forallb_In _ _ _ Hx) in H. discriminate.
    + vm_compute in H. intuition discriminate.
    + apply (forallb_In _ _ _ Hy) in H. discriminate.
    + vm_compute in H. intuition discriminate.
  - unfold thumbnails_of. rewrite E. reflexivity.
Qed.

(** X5: a storyboard URL found in a decoded text occurs in that text,
    starts with https://, ends with .vtt and holds scrubber_thumb_vtt after
    at least one character. *)
Theorem storyboard_url_shape (decoded u : str) :
  _search_regex re_vtt_url decoded = Some u ->
  (exists x y,
     u = lit "https://" ++ x ++ lit "scrubber_thumb_vtt" ++ y ++ lit ".vtt"
     /\ x <> [] /\ forallb re_dot x = true /\ forallb re_nonspace y = true)
  /\ exists before after, decoded = before ++ u ++ after.
Proof.
  intros H. apply search_regex_sound in H.
  destruct H as (before & pre & rest & -> & Hs).
  apply sem_vtt_url in Hs.
  destruct Hs as (x & y & E & Hg & Hne & Hx & Hy).
  assert (u = pre) as -> by congruence.
  split; [exists x, y; auto|eauto].
Qed.




End Pattern_shapes.

Section Valid_url.
Variable ua : N -> bool.

Lemma strip_prefix_same p s : strip_prefix p (p ++ s) = Some s.
Proof.
  induction p as [|c p IH]; [reflexivity|].
  cbn [app strip_prefix]. rewrite N.eqb_refl. exact IH.
Qed.

Lemma strip_prefix_diverge p a t :
  strip_prefix p a = None -> strip_prefix a p = None ->
  strip_prefix p (a ++ t) = None.
Proof.
  revert a. induction p as [|c p IH]; intros a; [discriminate|].
  destruct a as [|x a]; [discriminate|].
  cbn [app strip_prefix]. rewrite (N.eqb_sym x c).
  destruct (c =? x); [apply IH|reflexivity].
Qed.

Lemma run_Cat {R : Type} a b s g (k : str -> option str -> option R) :
  run (Cat a b) s g k = run a s g (fun s1 g1 => run b s1 g1 k).
Proof. reflexivity. Qed.

Lemma run_Lit_same {R : Type} p s g (k : str -> option str -> option R) :
  run (Lit p) (p ++ s) g k = k s g.
Proof. rewrite run_Lit, strip_prefix_same. reflexivity. Qed.

Lemma run_Opt_Lit_take {R : Type} p s g (k : str -> option str -> option R) x :
  k s g = Some x -> run (Opt (Lit p)) (p ++ s) g k = Some x.
Proof. intros H. cbn [run]. rewrite run_Lit_same, H. reflexivity. Qed.

Lemma run_Opt_Lit_skip {R : Type} p a t g (k : str -> option str -> option R) :
  strip_prefix p a = None -> strip_prefix a p = None ->
  run (Opt (Lit p)) (a ++ t) g k = k (a ++ t) g.
Proof.
  intros H1 H2. cbn [run]. rewrite run_Lit, (strip_prefix_diverge _ _ _ H1 H2).
  reflexivity.
Qed.

Lemma run_Lit_diverge {R : Type} p a t g (k : str -> option str -> option R) :
  strip_prefix p a = None -> strip_prefix a p = None ->
  run (Lit p) (a ++ t) g k = None.
Proof.
  intros H1 H2. rewrite run_Lit, (strip_prefix_diverge _ _ _ H1 H2).
  reflexivity.
Qed.

Lemma rep_greedy_exact {R : Type} p a rest (k : str -> option R) x :
  forallb p a = true -> run_ends p rest -> k rest = Some x ->
  rep_greedy p (a ++ rest) k = Some x.
Proof.
  intros Ha Hr Hk. induction a as [|c a IH].
  - cbn [app]. destruct Hr as [->|(c & r & -> & Hc)]; cbn [rep_greedy].
    + exact Hk.
    + rewrite Hc. exact Hk.
  - cbn [forallb] in Ha. apply andb_prop in Ha. destruct Ha as [Hc Ha].
    cbn [app rep_greedy]. rewrite Hc, (IH Ha). reflexivity.
Qed.

Lemma run_kind {R : Type} kind t g (k : str -> option str -> option R) x :
  In kind kinds ->
  k (lit "/" ++ t) g = Some x ->
  run (Alt (Cat (Opt (Lit (lit "e/"))) (Lit (lit "scl/fi")))
           (Cat (Lit (lit "s")) (Opt (Lit (lit "h")))))
      (kind ++ lit "/" ++ t) g k
  = Some x.
Proof.
  intros Hk H. unfold kinds in Hk. cbn [In] in Hk.
  destruct Hk as [<-|[<-|[<-|[<-|[]]]]]; cbn [run].
  - change (lit "s" ++ lit "/" ++ t) with (lit "s/" ++ t).
    rewrite (run_Lit (lit "e/")), (strip_prefix_diverge (lit "e/") (lit "s/") t)
      by reflexivity.
    rewrite (run_Lit_diverge (lit "scl/fi") (lit "s/") t) by reflexivity.
    change (lit "s/" ++ t) with (lit "s" ++ lit "/" ++ t).
    rewrite run_Lit_same.
    rewrite (run_Lit (lit "h")), (strip_prefix_diverge (lit "h") (lit "/") t)
      by reflexivity.
    exact H.
  - change (lit "sh" ++ lit "/" ++ t) with (lit "sh/" ++ t).
    rewrite (run_Lit (lit "e/")), (strip_prefix_diverge (lit "e/") (lit "sh/") t)
      by reflexivity.
    rewrite (run_Lit_diverge (lit "scl/fi") (lit "sh/") t) by reflexivity.
    change (lit "sh/" ++ t) with (lit "s" ++ lit "h" ++ lit "/" ++ t).
    rewrite run_Lit_same, run_Lit_same, H. reflexivity.
  - rewrite (run_Lit (lit "e/")),
      (strip_prefix_diverge (lit "e/") (lit "scl/fi") (lit "/" ++ t))
      by reflexivity.
    rewrite run_Lit_same, H. reflexivity.
  - change (lit "e/scl/fi" ++ lit "/" ++ t)
      with (lit "e/" ++ lit "scl/fi" ++ lit "/" ++ t).
    rewrite run_Lit_same, run_Lit_same, H. reflexivity.
Qed.

Lemma run_id {R : Type} id rest g (k : str -> option str -> option R) x :
  id <> [] -> forallb (re_word ua) id = true -> run_ends (re_word ua) rest ->
  k rest (Some id) = Some x ->
  run (Grp (Rep true true (re_word ua))) (id ++ rest) g k = Some x.
Proof.
  intros Hne Hw Hr Hk. destruct id as [|c id]; [congruence|].
  cbn [forallb] in Hw. apply andb_prop in Hw. destruct Hw as [Hc Hw].
  cbn [run app]. rewrite Hc. unfold rep.
  apply rep_greedy_exact; [exact Hw|exact Hr|].
  cbv beta. change (c :: id ++ rest) with ((c :: id) ++ rest).
  replace (length ((c :: id) ++ rest) - length rest)%nat
    with (length (c :: id)) by (rewrite length_app; lia).
  rewrite (take_app_length (c :: id) rest). exact Hk.
Qed.

(** X7: the URLs of the four kinds are accepted.  For the scheme http or
    https, with or without www., the host dropbox.com and one of the paths
    s, sh, scl/fi and e/scl/fi, the identifier is the run of word
    characters after the next slash, up to the first character that is not
    one. *)
Theorem valid_url_accepts (scheme www kind id rest : str) :
  In scheme [lit "http"; lit "https"] ->
  In www [[]; lit "www."] ->
  In kind kinds ->
  id <> [] ->
  forallb (re_word ua) id = true ->
  run_ends (re_word ua) rest ->
  re_match (_VALID_URL ua)
    (scheme ++ lit "://" ++ www ++ lit "dropbox.com/" ++ kind ++ lit "/"
     ++ id ++ rest)
  = Some (Some id).
Proof.
  intros Hs Hw Hk Hne Hid Hr.
  unfold re_match, match_at, _VALID_URL. cbn [Seq].
  set (k0 := fun (s1 : str) (g : option str) => Some (s1, g)).
  assert (T : run (Cat (Lit (lit "/")) (Cat (Grp (Rep true true (re_word ua))) Eps))
                (lit "/" ++ id ++ rest) None k0
              = Some (rest, Some id)).
  { rewrite run_Cat, run_Lit_same, run_Cat. apply run_id; auto. }
  assert (K : run
     (Cat (Alt (Cat (Opt (Lit (lit "e/"))) (Lit (lit "scl/fi")))
               (Cat (Lit (lit "s")) (Opt (Lit (lit "h")))))
          (Cat (Lit (lit "/")) (Cat (Grp (Rep true true (re_word ua))) Eps)))
     (kind ++ lit "/" ++ id ++ rest) None k0
     = Some (rest, Some id)).
  { rewrite run_Cat. apply run_kind; [exact Hk|exact T]. }
  assert (H : run
     (Cat (Opt (Lit (lit "www.")))
        (Cat (Lit (lit "dropbox.com/"))
           (Cat (Alt (Cat (Opt (Lit (lit "e/"))) (Lit (lit "scl/fi")))
                     (Cat (Lit (lit "s")) (Opt (Lit (lit "h")))))
              (Cat (Lit (lit "/"))
                 (Cat (Grp (Rep true true (re_word ua))) Eps)))))
     (www ++ lit "dropbox.com/" ++ kind ++ lit "/" ++ id ++ rest) None k0
     = Some (rest, Some id)).
  { rewrite run_Cat. cbn [In] in Hw. destruct Hw as [<-|[<-|[]]].
    - cbn [app]. rewrite run_Opt_Lit_skip by reflexivity.
      rewrite run_Cat, run_Lit_same. exact K.
    - apply run_Opt_Lit_take. rewrite run_Cat, run_Lit_same. exact K. }
  cbn [In] in Hs. destruct Hs as [<-|[<-|[]]].
  - rewrite run_Cat, run_Lit_same, run_Cat.
    rewrite run_Opt_Lit_skip by reflexivity.
    rewrite run_Cat, run_Lit_same. fold k0. rewrite H. reflexivity.
  - change (lit "https") with (lit "http" ++ lit "s"). rewrite <- app_assoc.
    rewrite run_Cat, run_Lit_same, run_Cat.
    rewrite (run_Opt_Lit_take _ _ _ _ (rest, Some id)); [reflexivity|].
    rewrite run_Cat, run_Lit_same. fold k0. exact H.
Qed.
Lemma sem_valid_url pre g :
  sem (_VALID_URL ua) pre None g ->
  exists scheme www kind id,
    In scheme [lit "http"; lit "https"]
    /\ In www [[]; lit "www."]
    /\ In kind kinds
    /\ pre = scheme ++ lit "://" ++ www ++ lit "dropbox.com/" ++ kind
             ++ lit "/" ++ id
    /\ g = Some id /\ id <> [] /\ forallb (re_word ua) id = true.
Proof.
  unfold _VALID_URL. cbn [Seq sem]. intros H.
  repeat match goal with
    | H : sem (Lit _) _ _ _ |- _ => apply sem_Lit in H
    | H : exists _, _ |- _ => destruct H
    | H : _ /\ _ |- _ => destruct H
    | H : _ \/ _ |- _ => destruct H
    end;
  subst;
  match goal with
  | Hw : forallb (re_word ua) ?i = true
    |- exists scheme www kind id, _ /\ _ /\ _
         /\ ?a1 ++ ?a2 ++ ?a3 ++ ?a4 ++ ?a5 ++ ?a6 ++ _ = _ /\ _ =>
      exists (a1 ++ a2), a4, a6, i
  end;
  (split; [vm_compute; tauto|]);
  (split; [vm_compute; tauto|]);
  (split; [vm_compute; tauto|]);
  (split; [repeat rewrite <- app_assoc; cbn [app]; rewrite ?app_nil_r;
           reflexivity|]);
  auto.
Qed.

(** X8: a URL that is accepted has the scheme http or https, the host
    dropbox.com with or without www., and one of the paths s, sh, scl/fi
    and e/scl/fi; the identifier is a non-empty run of word characters
    that follows the slash after the path. *)
Theorem valid_url_shape (u id : str) :
  re_match (_VALID_URL ua) u = Some (Some id) ->
  exists scheme www kind rest,
    In scheme [lit "http"; lit "https"]
    /\ In www [[]; lit "www."]
    /\ In kind kinds
    /\ u = scheme ++ lit "://" ++ www ++ lit "dropbox.com/" ++ kind
           ++ lit "/" ++ id ++ rest
    /\ id <> [] /\ forallb (re_word ua) id = true.
Proof.
  unfold re_match.
  destruct (match_at (_VALID_URL ua) u) as [[rest g]|] eqn:E; [|discriminate].
  cbn. intros [= ->]. apply match_at_sound in E.
  destruct E as (pre & -> & Hs). apply sem_valid_url in Hs.
  destruct Hs as (scheme & www & kind & id' & H1 & H2 & H3 & -> & Hg & Hne & Hw).
  assert (id = id') as <- by congruence.
  exists scheme, www, kind, rest. repeat split; auto.
  repeat rewrite <- app_assoc. reflexivity.
Qed.
End Valid_url.

Section Budget.
Context {World : Type} (self : InfoExtractor World).
Variable p : event -> bool.

Lemma within_weaken {A : Type} n n' (m : M World A) :
  (n <= n')%nat -> within p n m -> within p n' m.
Proof.
  intros Hn H w log. destruct (H w log) as (r & w' & ev & E & Hc).
  exists r, w', ev. split; [exact E|lia].
Qed.

Lemma within_silent {A : Type} (m : M World A) :
  (forall s, exists r, m s = (r, s)) -> within p 0 m.
Proof.
  intros H w log. destruct (H (w, log)) as [r E].
  exists r, w, []. rewrite app_nil_r. split; [exact E|reflexivity].
Qed.

Lemma within_ret {A : Type} (a : A) : within p 0 (mret a : M World A).
Proof. apply within_silent. intros s. exists (Return a). reflexivity. Qed.

Lemma within_raise {A : Type} e : within p 0 (raise e : M World A).
Proof. apply within_silent. intros s. exists (Raise e). reflexivity. Qed.

Lemma within_of_result {A : Type} (r : result A) :
  within p 0 (of_result r : M World A).
Proof. apply within_silent. intros s. exists r. reflexivity. Qed.

Lemma within_bind {A B : Type} n1 n2 (m : M World A) (f : A -> M World B) :
  within p n1 m -> (forall a, within p n2 (f a)) ->
  within p (n1 + n2) (m ≫= f).
Proof.
  intros Hm Hf w log. destruct (Hm w log) as (r & w1 & ev & E & Hc).
  rewrite bind_run, E. destruct r as [e|a].
  - exists (Raise e), w1, ev. split; [reflexivity|lia].
  - destruct (Hf a w1 (log ++ ev)) as (r' & w2 & ev' & E' & Hc').
    exists r', w2, (ev ++ ev'). rewrite E', app_assoc, count_app.
    split; [reflexivity|lia].
Qed.

Lemma within_download_webpage u :
  within p (count p [EvDownloadWebpage u]) (_download_webpage self u).
Proof.
  intros w log. unfold _download_webpage.
  destruct (download_webpage self u w) as [r w'].
  exists r, w', [EvDownloadWebpage u]. auto.
Qed.

Lemma within_download_json u data headers :
  within p (count p [EvDownloadJson u data headers])
    (_download_json self u data headers).
Proof.
  intros w log. unfold _download_json.
  destruct (download_json self u data headers w) as [r w'].
  exists r, w', [EvDownloadJson u data headers]. auto.
Qed.

Lemma within_download_json_nonfatal u data headers :
  within p (count p [EvDownloadJson u data headers])
    (_download_json_nonfatal self u data headers).
Proof.
  intros w log.
  destruct (within_download_json u data headers w log) as (r & w' & ev & E & H).
  unfold _download_json_nonfatal. rewrite E. destruct r; eauto.
Qed.

Lemma within_get_cookie u name :
  within p (count p [EvGetCookie u name]) (_get_cookie self u name).
Proof.
  intros w log.
  exists (Return (get_cookies self u w !! name)), w, [EvGetCookie u name]. auto.
Qed.

Lemma within_get_cookie_value u name :
  within p (count p [EvGetCookie u name]) (_get_cookie_value self u name).
Proof.
  rewrite <- (Nat.add_0_r (count _ _)).
  apply within_bind; [apply within_get_cookie|].
  intros [v|]; [apply within_ret|apply within_raise].
Qed.

Lemma within_extract_m3u8 u :
  within p (count p [EvExtractM3u8 u])
    (_extract_m3u8_formats_and_subtitles self u).
Proof.
  intros w log. unfold _extract_m3u8_formats_and_subtitles.
  destruct (extract_m3u8_formats_and_subtitles self u w) as [r w'].
  exists r, w', [EvExtractM3u8 u]. auto.
Qed.

(** bounds on what [p] counts, for each kind of request *)
Variables (n_page n_auth n_meta n_t n_sm n_m3u8 : nat).
Hypothesis Hpage : forall u, (count p [EvDownloadWebpage u] <= n_page)%nat.
Hypothesis Hauth :
  forall data headers,
    (count p [EvDownloadJson auth_url data headers] <= n_auth)%nat.
Hypothesis Hmeta :
  forall data headers,
    (count p [EvDownloadJson metadata_url data headers] <= n_meta)%nat.
Hypothesis Ht : (count p [EvGetCookie www_dropbox (lit "t")] <= n_t)%nat.
Hypothesis Hsm :
  (count p [EvGetCookie bare_dropbox (lit "sm_auth")] <= n_sm)%nat.
Hypothesis Hm3u8 : forall u, (count p [EvExtractM3u8 u] <= n_m3u8)%nat.

Lemma within_password_gate u webpage :
  within p (Nat.max (n_t + n_auth + n_page) (n_sm + n_page))
    (password_gate self u webpage).
Proof.
  unfold password_gate.
  destruct (is_gated self webpage);
    [|eapply within_weaken; [|apply within_ret]; lia].
  destruct (opt_truthy (videopassword self)).
  - apply (within_weaken (0 + (n_t + (0 + (n_auth + (0 + n_page)))))); [lia|].
    apply within_bind.
    { unfold _search_regex_fatal.
      destruct (_search_regex _ _); [apply within_ret|apply within_raise]. }
    intros content_id. apply within_bind.
    { eapply within_weaken; [|apply within_get_cookie_value]. apply Ht. }
    intros t. apply within_bind; [apply within_of_result|].
    intros data. apply within_bind.
    { eapply within_weaken; [|apply within_download_json]. apply Hauth. }
    intros response. apply within_bind; [apply within_of_result|].
    intros status. destruct (negb _).
    + eapply within_weaken; [|apply within_raise]. lia.
    + eapply within_weaken; [|apply within_download_webpage]. apply Hpage.
  - apply (within_weaken (n_sm + n_page)); [lia|].
    apply within_bind.
    { eapply within_weaken; [|apply within_get_cookie]. apply Hsm. }
    intros sm_auth. destruct (bool_decide _).
    + eapply within_weaken; [|apply within_download_webpage]. apply Hpage.
    + eapply within_weaken; [|apply within_raise]. lia.
Qed.

Lemma within_scan encodeds : within p n_m3u8 (scan self encodeds).
Proof.
  induction encodeds as [|encoded rest IH].
  - eapply within_weaken; [|apply within_ret]. lia.
  - cbn [scan]. apply (within_weaken (0 + n_m3u8)); [lia|].
    apply within_bind; [apply within_of_result|].
    intros decoded. destruct (negb _); [exact IH|].
    unfold commit. rewrite <- (Nat.add_0_r n_m3u8).
    apply within_bind.
    { eapply within_weaken; [|apply within_extract_m3u8]. apply Hm3u8. }
    intros [fmts subs]. apply within_ret.
Qed.

Lemma within_finish u video_id l :
  within p (n_t + n_meta) (finish self u video_id l).
Proof.
  unfold finish. rewrite <- (Nat.add_0_r (n_t + n_meta)).
  apply within_bind.
  - unfold fetch_metadata. destruct (opt_truthy (video_internal_id l));
      [|eapply within_weaken; [|apply within_ret]; lia].
    apply within_bind.
    { eapply within_weaken; [|apply within_get_cookie_value]. apply Ht. }
    intros t. rewrite <- (Nat.add_0_r n_meta). apply within_bind.
    { eapply within_weaken; [|apply within_download_json_nonfatal]. apply Hmeta. }
    intros json_result.
    destruct (py_truthy json_result); [apply within_of_result|apply within_ret].
  - intros md. rewrite <- (Nat.add_0_r 0). apply within_bind; [apply within_of_result|].
    intros fmts. rewrite <- (Nat.add_0_r 0). apply within_bind; [apply within_of_result|].
    intros duration. rewrite <- (Nat.add_0_r 0). apply within_bind; [apply within_of_result|].
    intros capture_date. rewrite <- (Nat.add_0_r 0).
    apply within_bind; [apply within_of_result|].
    intros upload_date. apply within_ret.
Qed.

Lemma within_real_extract u :
  within p
    (n_page + Nat.max (n_t + n_auth + n_page) (n_sm + n_page)
     + (n_m3u8 + (n_t + n_meta)))
    (_real_extract self u).
Proof.
  unfold _real_extract.
  apply (within_weaken
           ((0 + (n_page
                  + (Nat.max (n_t + n_auth + n_page) (n_sm + n_page) + 0)))
            + (n_m3u8 + (n_t + n_meta)))); [lia|].
  apply within_bind.
  - unfold fetch_page. apply within_bind.
    { unfold _match_id. destruct (re_match _ u) as [[g|]|];
        [apply within_ret|apply within_raise..]. }
    intros video_id. apply within_bind.
    { eapply within_weaken; [|apply within_download_webpage]. apply Hpage. }
    intros webpage. apply within_bind; [apply within_password_gate|].
    intros webpage'. apply within_ret.
  - intros [video_id webpage]. apply within_bind; [apply within_scan|].
    intros l. apply within_finish.
Qed.
End Budget.

Section Budget_of_a_call.
Context {World : Type} (self : InfoExtractor World).

(** X9: one call makes at most two page downloads, one POST to the auth
    endpoint and one POST to the metadata endpoint, and no POST to any
    other URL; at most one call of the manifest resolver and two cookie
    lookups: nothing is retried. *)
Theorem request_budget (u : str) (w : World) :
  exists r w' log,
    extract self u w = (r, (w', log))
    /\ (count is_page_download log <= 2)%nat
    /\ (count is_auth_post log <= 1)%nat
    /\ (count is_metadata_post log <= 1)%nat
    /\ (count is_json_post log <= 2)%nat
    /\ count is_other_post log = 0%nat
    /\ (count is_m3u8_call log <= 1)%nat
    /\ (count is_cookie_read log <= 2)%nat.
Proof.
  unfold extract.
  destruct (_real_extract self u (w, [])) as [r [w' log]] eqn:E.
  exists r, w', log. split; [reflexivity|].
  assert (B : forall p n_page n_auth n_meta n_t n_sm n_m3u8,
    (forall v, count p [EvDownloadWebpage v] <= n_page)%nat ->
    (forall d h, count p [EvDownloadJson auth_url d h] <= n_auth)%nat ->
    (forall d h, count p [EvDownloadJson metadata_url d h] <= n_meta)%nat ->
    (count p [EvGetCookie www_dropbox (lit "t")] <= n_t)%nat ->
    (count p [EvGetCookie bare_dropbox (lit "sm_auth")] <= n_sm)%nat ->
    (forall v, count p [EvExtractM3u8 v] <= n_m3u8)%nat ->
    (count p log
     <= n_page + Nat.max (n_t + n_auth + n_page) (n_sm + n_page)
        + (n_m3u8 + (n_t + n_meta)))%nat).
  { intros p n_page n_auth n_meta n_t n_sm n_m3u8 H1 H2 H3 H4 H5 H6.
    destruct (within_real_extract self p n_page n_auth n_meta n_t n_sm n_m3u8
                H1 H2 H3 H4 H5 H6 u w [])
      as (r' & w'' & ev & E' & Hc).
    rewrite E in E'. injection E' as _ _ ->. exact Hc. }
  repeat split.
  - apply (B is_page_download 1 0 0 0 0 0)%nat; intros; vm_compute; lia.
  - apply (B is_auth_post 0 1 0 0 0 0)%nat; intros; vm_compute; lia.
  - apply (B is_metadata_post 0 0 1 0 0 0)%nat; intros; vm_compute; lia.
  - apply (B is_json_post 0 1 1 0 0 0)%nat; intros; vm_compute; lia.
  - apply Nat.le_0_r.
    apply (B is_other_post 0 0 0 0 0 0)%nat; intros; vm_compute; lia.
  - apply (B is_m3u8_call 0 0 0 0 0 1)%nat; intros; vm_compute; lia.
  - apply (B is_cookie_read 0 0 0 1 1 0)%nat; intros; vm_compute; lia.
Qed.
End Budget_of_a_call.

Section Paths.
Context {World : Type} (self : InfoExtractor World).

Lemma fetch_page_download_raise u w log video_id e w1 :
  re_match (_VALID_URL (unicode_alnum self)) u = Some (Some video_id) ->
  download_webpage self u w = (Raise e, w1) ->
  fetch_page self u (w, log) = (Raise e, (w1, log ++ [EvDownloadWebpage u])).
Proof.
  intros Hid Hpage. unfold fetch_page, _match_id. rewrite Hid.
  rewrite bind_run. cbn [mret M_ret]. rewrite bind_run.
  unfold _download_webpage at 1. rewrite Hpage. reflexivity.
Qed.

Lemma after_gate_traced u video_id page :
  traced self after_gate_event
    (scan self (rev (tokens self page)) ≫= finish self u video_id).
Proof.
  apply traced_bind; [apply traced_scan|intros l; apply traced_finish];
    intros; (split; [reflexivity|split; [reflexivity|]]);
    intros cu name [=]; subst; reflexivity.
Qed.

Lemma after_gate_counts rest :
  Forall after_gate_event rest ->
  count is_page_download rest = 0%nat /\ count is_auth_post rest = 0%nat.
Proof.
  intros H. split; apply count_none; eapply Forall_impl; try exact H;
    intros e (H1 & H2 & _); assumption.
Qed.

(** X10: a URL that does not match is refused before any request: the
    call raises AttributeError with an empty log and the world untouched.
    For a URL that matches, the first request is the download of that URL,
    and if that download fails its error is the result and nothing else
    is requested. *)
Theorem url_decides_first_request (u : str) (w : World) :
  (mjoin (re_match (_VALID_URL (unicode_alnum self)) u) = None ->
   exists msg, extract self u w = (Raise (AttributeError msg), (w, [])))
  /\ (forall video_id,
        re_match (_VALID_URL (unicode_alnum self)) u = Some (Some video_id) ->
        (exists r w' rest,
           extract self u w = (r, (w', EvDownloadWebpage u :: rest)))
        /\ forall e w1,
             download_webpage self u w = (Raise e, w1) ->
             extract self u w = (Raise e, (w1, [EvDownloadWebpage u]))).
Proof.
  split.
  - intros H. eexists. unfold extract, _real_extract, fetch_page, _match_id.
    destruct (re_match _ u) as [[g|]|]; [discriminate|reflexivity..].
  - intros video_id Hid.
    assert (R : forall e w1,
      download_webpage self u w = (Raise e, w1) ->
      extract self u w = (Raise e, (w1, [EvDownloadWebpage u]))).
    { intros e w1 Hd. unfold extract. apply real_extract_raise.
      apply (fetch_page_download_raise u w [] video_id e w1 Hid Hd). }
    split; [|exact R].
    destruct (download_webpage self u w) as [[e|page] w1] eqn:Hd.
    { exists (Raise e), w1, []. apply R. reflexivity. }
    pose proof (fetch_page_run self u w [] video_id page w1 Hid Hd) as F.
    destruct (traced_password_gate self (fun _ => True) u page I
                (fun _ _ => I) I I w1 ([] ++ [EvDownloadWebpage u]))
      as (rg & ev & Eg & _).
    rewrite Eg in F. cbn [app] in F. destruct rg as [e|page'].
    { exists (Raise e), (replay self ev w1), ev.
      unfold extract. apply real_extract_raise. exact F. }
    destruct (after_gate_traced u video_id page' (replay self ev w1)
                (EvDownloadWebpage u :: ev))
      as (r & ev' & E & _).
    exists r, (replay self ev' (replay self ev w1)), (ev ++ ev').
    unfold extract. rewrite (real_extract_run self _ _ _ _ _ F), E.
    reflexivity.
Qed.

(** X11: on a gated page, without a password but with the [sm_auth]
    cookie, the page is downloaded once more and nothing is posted to the
    auth endpoint.  If that download fails, its error is the result;
    otherwise extraction goes on with the new page and downloads no page
    again. *)
Theorem session_cookie_refetches u w video_id page w1 v r2 w2 :
  re_match (_VALID_URL (unicode_alnum self)) u = Some (Some video_id) ->
  download_webpage self u w = (Return page, w1) ->
  is_gated self page = true ->
  opt_truthy (videopassword self) = false ->
  get_cookies self bare_dropbox w1 !! lit "sm_auth" = Some v ->
  download_webpage self u w1 = (r2, w2) ->
  let log3 := [EvDownloadWebpage u; EvGetCookie bare_dropbox (lit "sm_auth");
               EvDownloadWebpage u] in
  match r2 with
  | Raise e => extract self u w = (Raise e, (w2, log3))
  | Return page2 =>
      extract self u w
      = (scan self (rev (tokens self page2)) ≫= finish self u video_id)
          (w2, log3)
      /\ exists res w' rest,
           extract self u w = (res, (w', log3 ++ rest))
           /\ count is_page_download (log3 ++ rest) = 2%nat
           /\ count is_auth_post (log3 ++ rest) = 0%nat
  end.
Proof.
  intros Hid Hpage Hg Hp Hc H2 log3.
  pose proof (fetch_page_run self u w [] video_id page w1 Hid Hpage) as F.
  assert (G : password_gate self u page (w1, [] ++ [EvDownloadWebpage u])
              = (r2, (w2, log3))).
  { unfold password_gate. rewrite Hg, Hp. rewrite bind_run.
    unfold _get_cookie. rewrite Hc. cbn [bool_decide].
    rewrite bool_decide_eq_true_2 by eauto.
    unfold _download_webpage. rewrite H2. reflexivity. }
  rewrite G in F. destruct r2 as [e|page2].
  - unfold extract. apply real_extract_raise. exact F.
  - assert (R : extract self u w
                = (scan self (rev (tokens self page2)) ≫= finish self u video_id)
                    (w2, log3)).
    { unfold extract. apply real_extract_run. exact F. }
    split; [exact R|].
    destruct (after_gate_traced u video_id page2 w2 log3) as (res & rest & E & HP).
    exists res, (replay self rest w2), rest. rewrite R. split; [exact E|].
    destruct (after_gate_counts rest HP) as [C1 C2].
    rewrite !count_app, C1, C2. split; reflexivity.
Qed.

(** X12: on a page that is not gated the password and the session cookie
    play no part: extraction goes on with the page downloaded first, and
    the whole call makes that one page download, posts nothing to the auth
    endpoint and looks up no cookie but [t]. *)
Theorem open_page_needs_no_credentials u w video_id page w1 :
  re_match (_VALID_URL (unicode_alnum self)) u = Some (Some video_id) ->
  download_webpage self u w = (Return page, w1) ->
  is_gated self page = false ->
  extract self u w
  = (scan self (rev (tokens self page)) ≫= finish self u video_id)
      (w1, [EvDownloadWebpage u])
  /\ exists res w' rest,
       extract self u w = (res, (w', EvDownloadWebpage u :: rest))
       /\ count is_page_download (EvDownloadWebpage u :: rest) = 1%nat
       /\ count is_auth_post (EvDownloadWebpage u :: rest) = 0%nat
       /\ forall cu name,
            In (EvGetCookie cu name) (EvDownloadWebpage u :: rest) ->
            name = lit "t".
Proof.
  intros Hid Hpage Hg.
  pose proof (fetch_page_run self u w [] video_id page w1 Hid Hpage) as F.
  rewrite (gate_open self u page _ Hg) in F. cbn [app] in F.
  assert (R : extract self u w
              = (scan self (rev (tokens self page)) ≫= finish self u video_id)
                  (w1, [EvDownloadWebpage u])).
  { unfold extract. apply real_extract_run. exact F. }
  split; [exact R|].
  destruct (after_gate_traced u video_id page w1 [EvDownloadWebpage u])
    as (res & rest & E & HP).
  exists res, (replay self rest w1), rest. rewrite R. split; [exact E|].
  destruct (after_gate_counts rest HP) as [C1 C2].
  change (EvDownloadWebpage u :: rest) with ([EvDownloadWebpage u] ++ rest).
  rewrite !count_app, C1, C2. split; [reflexivity|]. split; [reflexivity|].
  intros cu name [H|H]; [discriminate|].
  rewrite Forall_forall in HP. apply list_elem_of_In, HP in H.
  destruct H as (_ & _ & H). exact (H cu name eq_refl).
Qed.

(** X13: when the manifest of the token the loop stops at cannot be
    resolved, the error of the resolver is the result of the call: the
    loop does not go back to an earlier token. *)
Theorem manifest_failure_is_fatal
    u w video_id page w1 log1 decoded transcode_url e w2 :
  fetch_page self u (w, []) = (Return (video_id, page), (w1, log1)) ->
  find_payload (rev (tokens self page))
  = Return (Some (decoded, transcode_url)) ->
  extract_m3u8_formats_and_subtitles self transcode_url w1 = (Raise e, w2) ->
  extract self u w = (Raise e, (w2, log1 ++ [EvExtractM3u8 transcode_url])).
Proof.
  intros Hf Hp Hm. unfold extract.
  rewrite (real_extract_run self _ _ _ _ _ Hf).
  apply bind_raise. rewrite scan_find_payload, Hp.
  unfold commit. apply bind_raise.
  unfold _extract_m3u8_formats_and_subtitles. rewrite Hm. reflexivity.
Qed.
End Paths.

Section Metadata.
Context {World : Type} (self : InfoExtractor World).

(** X14: when the metadata endpoint answers with a JSON object, the
    record is assembled from its [metadata] member, an object without that
    member counting as one with an empty member: the duration is the value
    of [duration], the upload date the normal form of [capture_date], and
    each is unset when the member has no such key. *)
Theorem metadata_enriches_result
    u w video_id page s1 l w2 log2 t d md w3 upload_date :
  fetch_page self u (w, []) = (Return (video_id, page), s1) ->
  scan self (rev (tokens self page)) s1 = (Return l, (w2, log2)) ->
  opt_truthy (video_internal_id l) = true ->
  get_cookies self www_dropbox w2 !! lit "t" = Some t ->
  let data :=
    encode_utf8 self
      (json_dumps self
         (metadata_payload (default [] (video_internal_id l)) u)) in
  download_json self metadata_url data (metadata_headers t) w2
  = (Return (VDict d), w3) ->
  default (VDict []) (dict_get d (lit "metadata")) = VDict md ->
  unified_strdate self (default VNone (dict_get md (lit "capture_date")))
  = Return upload_date ->
  exists r,
    extract self u w
    = (Return r,
       (w3, log2 ++ [EvGetCookie www_dropbox (lit "t");
                     EvDownloadJson metadata_url data (metadata_headers t)]))
    /\ r = assembled self u video_id l md upload_date
    /\ info_duration r = default VNone (dict_get md (lit "duration"))
    /\ info_upload_date r = upload_date.
Proof.
  intros Hf Hs Hid Ht data Hr Hmd Hud.
  destruct (extract_after_scan self u w video_id page s1 l _ Hf Hs) as [E _].
  pose proof (fetch_metadata_request self u _ w2 log2 t _ w3 Hid Ht Hr) as F.
  cbv zeta in F. fold data in F.
  assert (F' : fetch_metadata self u (video_internal_id l) (w2, log2)
               = (Return (VDict md),
                  (w3, log2 ++ [EvGetCookie www_dropbox (lit "t");
                                EvDownloadJson metadata_url data
                                  (metadata_headers t)]))).
  { rewrite F. destruct d as [|kv d'].
    - cbn in Hmd. cbn [py_truthy]. congruence.
    - cbn [py_truthy py_get]. rewrite Hmd. reflexivity. }
  eexists. split.
  - rewrite E, (finish_with_metadata self _ _ _ _ _ _ F'), Hud. reflexivity.
  - repeat split; reflexivity.
Qed.

(** X15: the non-fatal request does not guard against an answer of the
    wrong shape.  A truthy answer that is not a JSON object, or a JSON
    object whose [metadata] member is not one, makes the call raise
    AttributeError after the request. *)
Theorem malformed_metadata_raises
    u w video_id page s1 l w2 log2 t v w3 :
  fetch_page self u (w, []) = (Return (video_id, page), s1) ->
  scan self (rev (tokens self page)) s1 = (Return l, (w2, log2)) ->
  opt_truthy (video_internal_id l) = true ->
  get_cookies self www_dropbox w2 !! lit "t" = Some t ->
  let data :=
    encode_utf8 self
      (json_dumps self
         (metadata_payload (default [] (video_internal_id l)) u)) in
  download_json self metadata_url data (metadata_headers t) w2
  = (Return v, w3) ->
  py_truthy v = true ->
  (is_dict v = false
   \/ exists d v',
        v = VDict d /\ dict_get d (lit "metadata") = Some v'
        /\ is_dict v' = false) ->
  extract self u w
  = (Raise no_get,
     (w3, log2 ++ [EvGetCookie www_dropbox (lit "t");
                   EvDownloadJson metadata_url data (metadata_headers t)])).
Proof.
  intros Hf Hs Hid Ht data Hr Hv Hshape.
  destruct (extract_after_scan self u w video_id page s1 l _ Hf Hs) as [E _].
  pose proof (fetch_metadata_request self u _ w2 log2 t _ w3 Hid Ht Hr) as F.
  cbv beta iota zeta in F. fold data in F. rewrite Hv in F. rewrite E.
  destruct Hshape as [Hd|(d & v' & -> & Hm & Hd)].
  - apply finish_without_metadata_raise. rewrite F.
    destruct v; try discriminate; reflexivity.
  - cbn [py_get] in F. rewrite Hm in F. cbn [default from_option id] in F.
    unfold finish. rewrite (bind_return _ _ _ _ _ F).
    rewrite bind_of_result. unfold with_original.
    destruct (opt_truthy (has_anonymous_download l));
      destruct v'; try discriminate; reflexivity.
Qed.
End Metadata.

Section Payload.

(** X16: the password and the URL are put into the body of the auth POST
    as they are.  A password that holds the text &url= cannot be told from
    a shorter password with a longer URL: the two bodies are the same. *)
Theorem auth_payload_is_ambiguous (t content_id password x u : str) :
  auth_payload t content_id (password ++ lit "&url=" ++ x) u
  = auth_payload t content_id password (x ++ lit "&url=" ++ u)
  /\ (x ++ lit "&url=" ++ u <> u).
Proof.
  split.
  - unfold auth_payload. repeat rewrite <- app_assoc. reflexivity.
  - intros H. apply (f_equal length) in H. rewrite !length_app in H.
    cbn in H. lia.
Qed.
End Payload.

Section Decoded_text.

Lemma land_shift6 cp b : N.land (N.shiftl cp 6) (N.land b (N.ones 6)) = 0.
Proof.
  apply N.bits_inj_0. intros n. rewrite N.land_spec.
  destruct (N.lt_ge_cases n 6) as [H|H].
  - rewrite N.shiftl_spec_low by exact H. reflexivity.
  - rewrite N.land_spec, N.ones_spec_high by exact H.
    rewrite !andb_false_r. reflexivity.
Qed.

Lemma lor_shift6 cp b :
  N.lor (N.shiftl cp 6) (N.land b 63) = cp * 64 + b mod 64.
Proof.
  change 63 with (N.ones 6).
  rewrite <- N.lxor_lor, <- N.add_nocarry_lxor by apply land_shift6.
  rewrite N.shiftl_mul_pow2, N.land_ones. reflexivity.
Qed.

Lemma land_low b n : N.land b (N.ones n) = b mod 2 ^ n.
Proof. apply N.land_ones. Qed.

Lemma in_range_spec lo hi c : in_range lo hi c = true <-> lo <= c /\ c <= hi.
Proof.
  unfold in_range. rewrite andb_true_iff, !N.leb_le. reflexivity.
Qed.

Lemma utf8_start_ok b :
  match utf8_start b with
  | inr (Some c) => is_scalar c
  | inl (Some (n, c, l, h)) => pending_ok n c l h
  | _ => True
  end.
Proof.
  unfold utf8_start.
  destruct (N.ltb_spec b 128); [unfold is_scalar; lia|].
  destruct (in_range 194 223 b) eqn:E1.
  { apply in_range_spec in E1. change 31 with (N.ones 5).
    rewrite land_low. change (2 ^ 5) with 32. unfold pending_ok.
    right. left. split; [reflexivity|]. lia. }
  destruct (N.eqb_spec b 224) as [->|H224].
  { unfold pending_ok. right. right. left. vm_compute. intuition discriminate. }
  destruct (N.eqb_spec b 237) as [->|H237].
  { unfold pending_ok. right. right. left. vm_compute. intuition discriminate. }
  destruct (in_range 225 239 b) eqn:E2.
  { apply in_range_spec in E2. change 15 with (N.ones 4).
    rewrite land_low. change (2 ^ 4) with 16. unfold pending_ok.
    right. right. left. split; [reflexivity|]. lia. }
  destruct (N.eqb_spec b 240) as [->|H240].
  { unfold pending_ok. right. right. right. vm_compute. intuition discriminate. }
  destruct (in_range 241 243 b) eqn:E3.
  { apply in_range_spec in E3. change 7 with (N.ones 3).
    rewrite land_low. change (2 ^ 3) with 8. unfold pending_ok.
    right. right. right. split; [reflexivity|]. lia. }
  destruct (N.eqb_spec b 244) as [->|H244]; [|exact I].
  unfold pending_ok. right. right. right. vm_compute. intuition discriminate.
Qed.

Lemma utf8_ignore_scalar data :
  forall need cp lo hi,
    pending_ok need cp lo hi ->
    Forall is_scalar (utf8_ignore data need cp lo hi).
Proof.
  induction data as [|b rest IH]; intros need cp lo hi Hok; [constructor|].
  cbn [utf8_ignore].
  assert (Z0 : pending_ok 0 0 0 0) by (left; reflexivity).
  destruct ((0 <? need) && in_range lo hi b) eqn:E.
  - apply andb_prop in E. destruct E as [Hn Hb].
    apply N.ltb_lt in Hn. apply in_range_spec in Hb.
    rewrite lor_shift6.
    destruct Hok as [->|[(-> & H1 & H2)|[(-> & Hl & Hh & H2)|(-> & Hl & Hh & H3)]]].
    + lia.
    + cbn [N.eqb Pos.eqb]. constructor; [unfold is_scalar; lia|].
      apply IH, Z0.
    + cbn [N.eqb Pos.eqb]. apply IH. change (2 - 1) with 1.
      right. left. split; [reflexivity|]. lia.
    + cbn [N.eqb Pos.eqb]. apply IH. change (3 - 1) with 2.
      right. right. left. split; [reflexivity|]. lia.
  - pose proof (utf8_start_ok b) as Hs.
    destruct (utf8_start b) as [[[[[n c] l] h]|]|[c|]].
    + apply IH, Hs.
    + apply IH, Z0.
    + constructor; [exact Hs|apply IH, Z0].
    + apply IH, Z0.
Qed.

Lemma utf8_ignore_length data :
  forall need cp lo hi,
    (length (utf8_ignore data need cp lo hi) <= length data)%nat.
Proof.
  induction data as [|b rest IH]; intros need cp lo hi; [reflexivity|].
  cbn [utf8_ignore length].
  destruct ((0 <? need) && in_range lo hi b);
    [destruct (need =? 1)
    |destruct (utf8_start b) as [[[[[n c] l] h]|]|[c|]]];
    cbn [length];
    match goal with
    | |- context [utf8_ignore rest ?a ?b ?c ?d] => specialize (IH a b c d)
    end;
    lia.
Qed.

Lemma a2b_base64_length data :
  forall quad_pos leftchar pads out r,
    quad_pos < 4 ->
    a2b_base64 data quad_pos leftchar pads out = Return r ->
    (4 * length r
     <= 4 * length out + 3 * b64_data_count data + quad_slack quad_pos)%nat.
Proof.
  unfold b64_data_count.
  induction data as [|c rest IH]; intros q lc p out r Hq; cbn [a2b_base64].
  - destruct (N.eqb_spec q 0) as [->|H0].
    + intros [= <-]. cbn. lia.
    + destruct (q =? 1); discriminate.
  - cbn [List.filter]. destruct (N.eqb_spec c 61) as [->|Hc].
    + change (b64_is_data 61) with false. cbn match.
      destruct (2 <=? q).
      * destruct (4 <=? q + (p + 1)); [intros [= <-]; lia|apply IH, Hq].
      * apply IH, Hq.
    + unfold b64_is_data at 1. destruct (b64_value c) as [v|]; [|apply IH, Hq].
      cbn [length].
      destruct (N.eqb_spec q 0) as [->|H0].
      { intros H. apply IH in H; [|lia]. cbn in *. lia. }
      destruct (N.eqb_spec q 1) as [->|H1].
      { intros H. apply IH in H; [|lia]. rewrite length_app in H. cbn in *. lia. }
      destruct (N.eqb_spec q 2) as [->|H2].
      { intros H. apply IH in H; [|lia]. rewrite length_app in H. cbn in *. lia. }
      assert (q = 3) as -> by lia.
      intros H. apply IH in H; [|lia]. rewrite length_app in H. cbn in *. lia.
Qed.

(** X17: the text decoded from a token is made of Unicode scalar values
    only, with no surrogate, and it is short: four characters of text need
    at least three base64 characters of the token. *)
Theorem decoded_text_is_bounded (encoded decoded : str) :
  decode_token encoded = Return decoded ->
  Forall is_scalar decoded
  /\ (4 * length decoded <= 3 * b64_data_count encoded)%nat
  /\ (b64_data_count encoded <= length encoded)%nat.
Proof.
  unfold decode_token, b64decode.
  destruct (is_ascii encoded); [|discriminate].
  destruct (a2b_base64 encoded 0 0 0 []) as [e|data] eqn:E; [discriminate|].
  intros [= <-]. split; [|split].
  - apply utf8_ignore_scalar. left. reflexivity.
  - apply a2b_base64_length in E; [|reflexivity]. cbn in E.
    pose proof (utf8_ignore_length data 0 0 0 0) as L.
    unfold decode_utf8_ignore. lia.
  - unfold b64_data_count. apply List.filter_length_le.
Qed.
End Decoded_text.

Section Utf8_reader.

Lemma utf8_ignore_start b rest :
  utf8_ignore (b :: rest) 0 0 0 0
  = match utf8_start b with
    | inr (Some c) => c :: utf8_ignore rest 0 0 0 0
    | inr None => utf8_ignore rest 0 0 0 0
    | inl (Some (n, c, l, h)) => utf8_ignore rest n c l h
    | inl None => utf8_ignore rest 0 0 0 0
    end.
Proof. reflexivity. Qed.

Lemma utf8_ignore_continue b rest need cp lo hi :
  0 < need -> lo <= b -> b <= hi ->
  utf8_ignore (b :: rest) need cp lo hi
  = if need =? 1 then (cp * 64 + b mod 64) :: utf8_ignore rest 0 0 0 0
    else utf8_ignore rest (need - 1) (cp * 64 + b mod 64) 128 191.
Proof.
  intros Hn Hl Hh. cbn [utf8_ignore].
  replace (0 <? need) with true by (symmetry; apply N.ltb_lt, Hn).
  replace (in_range lo hi b) with true
    by (symmetry; apply in_range_spec; auto).
  cbn [andb]. rewrite lor_shift6. reflexivity.
Qed.

(** A sequence that is not continued is dropped. *)
Lemma utf8_ignore_resync rest need cp lo hi c k :
  (forall b, in_range lo hi b = continues c k b) ->
  left_short c k rest ->
  utf8_ignore rest need cp lo hi = utf8_ignore rest 0 0 0 0.
Proof.
  intros Hr Hs. destruct rest as [|b rest]; [reflexivity|].
  cbn [left_short] in Hs. cbn [utf8_ignore].
  rewrite Hr, Hs, andb_false_r. reflexivity.
Qed.

Lemma utf8_start_two b :
  194 <= b -> b <= 223 ->
  utf8_start b = inl (Some (1, b mod 32, 128, 191)).
Proof.
  intros H1 H2. unfold utf8_start.
  destruct (N.ltb_spec b 128); [lia|].
  replace (in_range 194 223 b) with true
    by (symmetry; apply in_range_spec; auto).
  change 31 with (N.ones 5). rewrite land_low. reflexivity.
Qed.

Lemma utf8_start_three b :
  224 <= b -> b <= 239 ->
  utf8_start b
  = inl (Some (2, b mod 16, if b =? 224 then 160 else 128,
               if b =? 237 then 159 else 191)).
Proof.
  intros H1 H2. unfold utf8_start.
  destruct (N.ltb_spec b 128); [lia|].
  replace (in_range 194 223 b) with false
    by (symmetry; apply not_true_is_false; rewrite in_range_spec; lia).
  destruct (N.eqb_spec b 224) as [->|H224]; [reflexivity|].
  destruct (N.eqb_spec b 237) as [->|H237]; [reflexivity|].
  replace (in_range 225 239 b) with true
    by (symmetry; apply in_range_spec; lia).
  change 15 with (N.ones 4). rewrite land_low. reflexivity.
Qed.

Lemma utf8_start_four b :
  240 <= b -> b <= 244 ->
  utf8_start b
  = inl (Some (3, b mod 8, if b =? 240 then 144 else 128,
               if b =? 244 then 143 else 191)).
Proof.
  intros H1 H2. unfold utf8_start.
  destruct (N.ltb_spec b 128); [lia|].
  replace (in_range 194 223 b) with false
    by (symmetry; apply not_true_is_false; rewrite in_range_spec; lia).
  destruct (N.eqb_spec b 224) as [->|H224]; [lia|].
  destruct (N.eqb_spec b 237) as [->|H237]; [lia|].
  replace (in_range 225 239 b) with false
    by (symmetry; apply not_true_is_false; rewrite in_range_spec; lia).
  destruct (N.eqb_spec b 240) as [->|H240]; [reflexivity|].
  replace (in_range 241 243 b) with (negb (b =? 244)).
  2:{ destruct (N.eqb_spec b 244) as [->|H244]; [reflexivity|].
      symmetry. apply in_range_spec. lia. }
  destruct (N.eqb_spec b 244) as [->|H244]; [reflexivity|].
  cbn [negb]. change 7 with (N.ones 3). rewrite land_low. reflexivity.
Qed.

(** The states of the reader inside the UTF-8 form of [c], after [k] of
    its bytes. *)
Lemma utf8_char_read c rest :
  is_scalar c ->
  utf8_ignore (utf8_char c ++ rest) 0 0 0 0 = c :: utf8_ignore rest 0 0 0 0.
Proof.
  intros [Hmax Hsur]. unfold utf8_char.
  destruct (N.ltb_spec c 128) as [H1|H1].
  { cbn [app]. rewrite utf8_ignore_start. unfold utf8_start.
    replace (c <? 128) with true by (symmetry; apply N.ltb_lt, H1).
    reflexivity. }
  destruct (N.ltb_spec c 2048) as [H2|H2].
  { cbn [app]. rewrite utf8_ignore_start, utf8_start_two by lia.
    rewrite utf8_ignore_continue by lia. cbn [N.eqb Pos.eqb].
    f_equal. lia. }
  destruct (N.ltb_spec c 65536) as [H3|H3].
  { cbn [app]. rewrite utf8_ignore_start, utf8_start_three by lia.
    rewrite utf8_ignore_continue.
    2: lia.
    2:{ destruct (N.eqb_spec (224 + c / 4096) 224); lia. }
    2:{ destruct (N.eqb_spec (224 + c / 4096) 237); lia. }
    cbn [N.eqb Pos.eqb]. change (2 - 1) with 1.
    rewrite utf8_ignore_continue by lia. cbn [N.eqb Pos.eqb].
    f_equal. lia. }
  cbn [app]. rewrite utf8_ignore_start, utf8_start_four by lia.
  rewrite utf8_ignore_continue.
  2: lia.
  2:{ destruct (N.eqb_spec (240 + c / 262144) 240); lia. }
  2:{ destruct (N.eqb_spec (240 + c / 262144) 244); lia. }
  cbn [N.eqb Pos.eqb]. change (3 - 1) with 2.
  rewrite utf8_ignore_continue by lia. cbn [N.eqb Pos.eqb].
  change (2 - 1) with 1.
  rewrite utf8_ignore_continue by lia. cbn [N.eqb Pos.eqb].
  f_equal. lia.
Qed.

Ltac lead_cases :=
  repeat match goal with
         | |- context [N.eqb ?a ?b] => destruct (N.eqb_spec a b)
         end;
  first [reflexivity | lia].

Lemma utf8_char_cut c k rest :
  is_scalar c ->
  (0 < k < length (utf8_char c))%nat ->
  left_short c k rest ->
  utf8_ignore (take k (utf8_char c) ++ rest) 0 0 0 0
  = utf8_ignore rest 0 0 0 0.
Proof.
  intros [Hmax Hsur] Hk Hs.
  assert (R : forall need cp lo hi,
    (forall b, in_range lo hi b = continues c k b) ->
    utf8_ignore rest need cp lo hi = utf8_ignore rest 0 0 0 0).
  { intros need cp lo hi Hr. exact (utf8_ignore_resync _ _ _ _ _ c k Hr Hs). }
  clear Hs. revert Hk R. unfold continues, utf8_char.
  destruct (N.ltb_spec c 128) as [H1|H1]; [cbn [length]; lia|].
  destruct (N.ltb_spec c 2048) as [H2|H2].
  { cbn [length hd]. intros Hk R.
    assert (k = 1%nat) as -> by lia. cbn [take app Nat.eqb] in *.
    rewrite utf8_ignore_start, utf8_start_two by lia.
    apply R. intros b. lead_cases. }
  destruct (N.ltb_spec c 65536) as [H3|H3].
  { cbn [length hd]. intros Hk R.
    assert (k = 1 \/ k = 2)%nat as [-> | ->] by lia;
      cbn [take app Nat.eqb] in *;
      rewrite utf8_ignore_start, utf8_start_three by lia.
    - apply R. intros b. lead_cases.
    - rewrite utf8_ignore_continue.
      2: lia.
      2:{ destruct (N.eqb_spec (224 + c / 4096) 224); lia. }
      2:{ destruct (N.eqb_spec (224 + c / 4096) 237); lia. }
      cbn [N.eqb Pos.eqb]. apply R. reflexivity. }
  cbn [length hd]. intros Hk R.
  assert (k = 1 \/ k = 2 \/ k = 3)%nat as [-> | [-> | ->] ] by lia;
    cbn [take app Nat.eqb] in *;
    rewrite utf8_ignore_start, utf8_start_four by lia.
  - apply R. intros b. lead_cases.
  - rewrite utf8_ignore_continue.
    2: lia.
    2:{ destruct (N.eqb_spec (240 + c / 262144) 240); lia. }
    2:{ destruct (N.eqb_spec (240 + c / 262144) 244); lia. }
    cbn [N.eqb Pos.eqb]. apply R. reflexivity.
  - rewrite utf8_ignore_continue.
    2: lia.
    2:{ destruct (N.eqb_spec (240 + c / 262144) 240); lia. }
    2:{ destruct (N.eqb_spec (240 + c / 262144) 244); lia. }
    cbn [N.eqb Pos.eqb]. change (3 - 1) with 2.
    rewrite utf8_ignore_continue by lia. cbn [N.eqb Pos.eqb].
    apply R. reflexivity.
Qed.

(** What the reader makes of a run of pieces: the whole forms, in order. *)
Lemma utf8_ignore_pieces ps :
  pieces_ok ps ->
  decode_utf8_ignore (flat_map piece_bytes ps) = flat_map piece_text ps.
Proof.
  unfold decode_utf8_ignore.
  induction ps as [|p ps IH]; [reflexivity|].
  cbn [pieces_ok flat_map]. intros [Hp Hps]. specialize (IH Hps).
  destruct p as [c|b|c k]; cbn [piece_ok piece_bytes piece_text] in *.
  - rewrite (utf8_char_read c _ Hp), IH. reflexivity.
  - cbn [app]. rewrite utf8_ignore_start, Hp. exact IH.
  - destruct Hp as (Hc & Hk & Hs).
    rewrite (utf8_char_cut c k _ Hc Hk Hs). exact IH.
Qed.
End Utf8_reader.

Section Decoder_errors.

Lemma a2b_base64_error data :
  forall quad_pos leftchar pads out e,
    a2b_base64 data quad_pos leftchar pads out = Raise e ->
    exists msg, e = BinasciiError msg.
Proof.
  induction data as [|c data IH]; intros q lc p out e; cbn [a2b_base64].
  - destruct (q =? 0); [discriminate|].
    destruct (q =? 1); intros [= <-]; eauto.
  - destruct (c =? 61).
    + destruct (2 <=? q); [destruct (4 <=? q + (p + 1)); [discriminate|]|];
        apply IH.
    + destruct (b64_value c); [|apply IH].
      destruct (q =? 0); [apply IH|].
      destruct (q =? 1); [apply IH|].
      destruct (q =? 2); apply IH.
Qed.
End Decoder_errors.

Section Visited_tokens.
Context {World : Type} (self : InfoExtractor World).

Lemma find_payload_visited before t after :
  forallb rejected after = true ->
  find_payload (rev (before ++ t :: after)) = find_payload (t :: rev before).
Proof.
  intros Hrej.
  assert (Hrej' : forallb rejected (rev after) = true).
  { rewrite forallb_forall in *. intros x Hx. apply Hrej, in_rev, Hx. }
  rewrite rev_app_distr. cbn [rev]. rewrite <- app_assoc.
  rewrite (find_payload_rejected _ _ Hrej'). reflexivity.
Qed.

(** Once the tokens after [t] are passed over, the call goes on from [t]. *)
Lemma extract_visited u w video_id page s1 before t after :
  fetch_page self u (w, []) = (Return (video_id, page), s1) ->
  tokens self page = before ++ t :: after ->
  forallb rejected after = true ->
  extract self u w
  = (scan self (t :: rev before) ≫= finish self u video_id) s1.
Proof.
  intros Hf Htok Hrej. unfold extract.
  rewrite (real_extract_run self _ _ _ _ _ Hf), Htok.
  rewrite !bind_run, !scan_find_payload, (find_payload_visited _ _ _ Hrej).
  reflexivity.
Qed.

Lemma scan_raise t rest e s :
  decode_token t = Raise e -> scan self (t :: rest) s = (Raise e, s).
Proof. intros H. cbn [scan]. rewrite bind_of_result, H. reflexivity. Qed.

Lemma scan_pass t rest decoded s :
  decode_token t = Return decoded ->
  _search_regex re_transcode_url decoded = None ->
  scan self (t :: rest) s = scan self rest s.
Proof. intros H E. cbn [scan]. rewrite bind_of_result, H, E. reflexivity. Qed.

Lemma scan_commit t rest decoded transcode_url s :
  decode_token t = Return decoded ->
  _search_regex re_transcode_url decoded = Some transcode_url ->
  scan self (t :: rest) s = commit self decoded transcode_url s.
Proof.
  intros H E. cbn [scan]. rewrite bind_of_result, H, E.
  destruct (transcode_url_parts decoded transcode_url E)
    as (b & c & mid & a & -> & _). reflexivity.
Qed.

(** What follows the scan calls the manifest resolver no more. *)
Lemma finish_resolves_nothing u video_id l w log :
  exists res w' rest,
    finish self u video_id l (w, log) = (res, (w', log ++ rest))
    /\ count is_m3u8_call rest = 0%nat.
Proof.
  destruct (traced_finish self (fun e => is_m3u8_call e = false) u video_id l)
    with (w := w) (log := log) as (res & rest & E & HP);
    [reflexivity|reflexivity|].
  exists res, (replay self rest w), rest. split; [exact E|].
  apply count_none, HP.
Qed.

(** C1, as the code has it: the tokens are the groups of the matches of
    the registration pattern, in document order, and the loop visits them
    from the last to the first.  When every token after [t] decodes to a
    text without a manifest URL and [t] decodes to a text with one, the
    call commits to [t]: whatever tokens stand before [t], it resolves the
    manifest of [t], and no other, and goes on with the locals taken from
    the text of [t].  When instead the decoding of [t] raises, the call
    ends with that exception, whatever tokens stand before [t]. *)
Theorem scan_commits_to_last_usable
    u w video_id page s1 before t after :
  fetch_page self u (w, []) = (Return (video_id, page), s1) ->
  tokens self page = before ++ t :: after ->
  forallb rejected after = true ->
  (forall decoded transcode_url,
     decode_token t = Return decoded ->
     _search_regex re_transcode_url decoded = Some transcode_url ->
     find_payload (rev (tokens self page))
     = Return (Some (decoded, transcode_url))
     /\ extract self u w
        = (commit self decoded transcode_url ≫= finish self u video_id) s1
     /\ exists res w' rest,
          extract self u w
          = (res, (w', s1.2 ++ EvExtractM3u8 transcode_url :: rest))
          /\ count is_m3u8_call rest = 0%nat)
  /\ (forall e,
        decode_token t = Raise e -> extract self u w = (Raise e, s1)).
Proof.
  intros Hf Htok Hrej.
  pose proof (extract_visited u w video_id page s1 before t after Hf Htok Hrej)
    as E.
  split.
  - intros decoded transcode_url Hd Hu.
    assert (C : extract self u w
                = (commit self decoded transcode_url ≫= finish self u video_id)
                    s1).
    { rewrite E, !bind_run, (scan_commit _ _ _ _ _ Hd Hu). reflexivity. }
    split; [|split; [exact C|]].
    + rewrite Htok, (find_payload_visited _ _ _ Hrej). cbn [find_payload].
      rewrite Hd, Hu.
      destruct (transcode_url_parts decoded transcode_url Hu)
        as (b & c & mid & a & -> & _). reflexivity.
    + rewrite C, bind_run. destruct s1 as [w1 log1]. cbn [snd].
      unfold commit. rewrite bind_run.
      unfold _extract_m3u8_formats_and_subtitles.
      destruct (extract_m3u8_formats_and_subtitles self transcode_url w1)
        as [[e|[fmts subs]] w2].
      * exists (Raise e), w2, []. split; reflexivity.
      * cbn [mret M_ret].
        destruct (finish_resolves_nothing u video_id
                    {| formats := fmts; subtitles := subs;
                       has_anonymous_download :=
                         _search_regex re_anonymous decoded;
                       thumbnail_url := _search_regex re_thumbnail_url decoded;
                       storyboard_url := _search_regex re_vtt_url decoded;
                       video_internal_id :=
                         _search_regex re_internal_id decoded |}
                    w2 (log1 ++ [EvExtractM3u8 transcode_url]))
          as (res & w' & rest & F & Hc).
        exists res, w', rest. rewrite F, <- app_assoc. auto.
  - intros e He. rewrite E, bind_run, (scan_raise _ _ _ _ He). reflexivity.
Qed.

(** C7, as the code has it: decoding a token that the loop visits is
    permissive, within limits.  When the token is made of ASCII characters
    and is well padded, decoding does not raise: the bytes are those of the
    token without the characters that are neither of the base64 alphabet
    nor padding; the text is the UTF-8 reading of the bytes, in which,
    however the bytes split into whole UTF-8 forms, stray bytes and forms
    cut short, only the whole forms are kept; and the call goes on with
    that text: it commits to the token when the text holds a manifest URL
    and passes on to the tokens before it otherwise.  When the token holds
    a character outside ASCII the decoder raises ValueError, and when it is
    not well padded binascii.Error: the call ends with that exception. *)
Theorem decoding_is_permissive u w video_id page s1 before t after :
  fetch_page self u (w, []) = (Return (video_id, page), s1) ->
  tokens self page = before ++ t :: after ->
  forallb rejected after = true ->
  (is_ascii t = true -> well_padded t ->
   exists data,
     b64decode t = Return data
     /\ b64decode (List.filter b64_relevant t) = Return data
     /\ decode_token t = Return (decode_utf8_ignore data)
     /\ (forall ps,
           data = flat_map piece_bytes ps -> pieces_ok ps ->
           decode_utf8_ignore data = flat_map piece_text ps)
     /\ extract self u w
        = (match _search_regex re_transcode_url (decode_utf8_ignore data) with
           | Some transcode_url =>
               commit self (decode_utf8_ignore data) transcode_url
           | None => scan self (rev before)
           end ≫= finish self u video_id) s1)
  /\ (is_ascii t = false ->
      decode_token t
      = Raise (ValueError "string argument should contain only ASCII characters")
      /\ extract self u w
         = (Raise (ValueError "string argument should contain only ASCII characters"),
            s1))
  /\ (is_ascii t = true -> ~ well_padded t ->
      exists msg,
        decode_token t = Raise (BinasciiError msg)
        /\ extract self u w = (Raise (BinasciiError msg), s1)).
Proof.
  intros Hf Htok Hrej.
  pose proof (extract_visited u w video_id page s1 before t after Hf Htok Hrej)
    as E.
  split; [|split].
  - intros Ha Hw. destruct (a2b_base64_returns t Hw) as [data Hd].
    assert (B : b64decode t = Return data)
      by (unfold b64decode; rewrite Ha; exact Hd).
    assert (D : decode_token t = Return (decode_utf8_ignore data))
      by (unfold decode_token; rewrite B; reflexivity).
    exists data. split; [exact B|]. split; [|split; [exact D|split]].
    + unfold b64decode. rewrite (is_ascii_filter _ _ Ha), <- a2b_base64_skips.
      exact Hd.
    + intros ps -> Hps. apply utf8_ignore_pieces, Hps.
    + rewrite E, !bind_run.
      destruct (_search_regex re_transcode_url (decode_utf8_ignore data))
        as [transcode_url|] eqn:Hu.
      * rewrite (scan_commit _ _ _ _ _ D Hu). reflexivity.
      * rewrite (scan_pass _ _ _ _ D Hu). reflexivity.
  - intros Ha.
    assert (D : decode_token t
                = Raise (ValueError "string argument should contain only ASCII characters"))
      by (unfold decode_token, b64decode; rewrite Ha; reflexivity).
    split; [exact D|].
    rewrite E, bind_run, (scan_raise _ _ _ _ D). reflexivity.
  - intros Ha Hw.
    destruct (a2b_base64 t 0 0 0 []) as [e|data] eqn:Hd.
    + destruct (a2b_base64_error _ _ _ _ _ _ Hd) as [msg ->].
      assert (D : decode_token t = Raise (BinasciiError msg))
        by (unfold decode_token, b64decode; rewrite Ha, Hd; reflexivity).
      exists msg. split; [exact D|].
      rewrite E, bind_run, (scan_raise _ _ _ _ D). reflexivity.
    + exfalso. apply Hw.
      destruct (a2b_base64_padded t 0 0 0 [] data eq_refl Hd)
        as [H|[(body & junk & rest & -> & H1 & H2)
              |[(body & rest & -> & H1)|(Hq & _)]]].
      * left. exact H.
      * right. left. exists body, junk, rest. auto.
      * right. right. exists body, rest. auto.
      * discriminate.
Qed.

(** X3: the loop passes over a token that decodes to a text without a
    manifest URL, and goes on with the tokens that follow in its order; at
    any other token it stops, by an exception or by committing, so that
    what follows has no part in the outcome. *)
Theorem scan_passes_over (t : str) (rest : list str) s :
  ((exists decoded,
      decode_token t = Return decoded
      /\ _search_regex re_transcode_url decoded = None) ->
   scan self (t :: rest) s = scan self rest s)
  /\ (~ (exists decoded,
           decode_token t = Return decoded
           /\ _search_regex re_transcode_url decoded = None) ->
      forall others, scan self (t :: rest) s = scan self (t :: others) s).
Proof.
  split.
  - intros (decoded & Hd & Hu). exact (scan_pass _ _ _ _ Hd Hu).
  - intros Hn others.
    destruct (decode_token t) as [e|decoded] eqn:Hd.
    + rewrite !(scan_raise _ _ _ _ Hd). reflexivity.
    + destruct (_search_regex re_transcode_url decoded) as [tu|] eqn:Hu.
      * rewrite !(scan_commit _ _ _ _ _ Hd Hu). reflexivity.
      * exfalso. apply Hn. eauto.
Qed.
End Visited_tokens.

Section Title.

Lemma rfind_from_notin c p :
  forall i acc, ~ In c p -> rfind_from c p i acc = acc.
Proof.
  induction p as [|x p IH]; intros i acc H; [reflexivity|].
  cbn [rfind_from]. destruct (N.eqb_spec x c) as [->|Hx].
  - exfalso. apply H. left. reflexivity.
  - apply IH. intros Hin. apply H. right. exact Hin.
Qed.

Lemma rfind_from_last c a b :
  forall i acc,
    ~ In c b ->
    rfind_from c (a ++ c :: b) i acc = (i + Z.of_nat (length a))%Z.
Proof.
  induction a as [|x a IH]; intros i acc H.
  - cbn [app rfind_from]. rewrite N.eqb_refl.
    rewrite (rfind_from_notin c b _ _ H). cbn. lia.
  - cbn [app rfind_from]. rewrite (IH _ _ H). cbn [length]. lia.
Qed.

Lemma not_in_app (c : N) a b : ~ In c a -> ~ In c b -> ~ In c (a ++ b).
Proof. rewrite in_app_iff. tauto. Qed.

Lemma rfind_from_app c a b :
  forall i acc,
    rfind_from c (a ++ b) i acc
    = rfind_from c b (i + Z.of_nat (length a))%Z (rfind_from c a i acc).
Proof.
  induction a as [|x a IH]; intros i acc.
  - cbn [app rfind_from length]. f_equal. lia.
  - cbn [app rfind_from length]. rewrite IH. f_equal. lia.
Qed.

Lemma rfind_from_bound c p :
  forall i acc,
    (acc < i)%Z -> (rfind_from c p i acc < i + Z.of_nat (length p))%Z.
Proof.
  induction p as [|x p IH]; intros i acc H; cbn [rfind_from length]; [lia|].
  specialize (IH (i + 1)%Z (if x =? c then i else acc)).
  destruct (x =? c); lia.
Qed.

(** The last dot in a name that has one, whatever was found before. *)
Lemma rfind_from_in c p :
  In c p ->
  exists k, (0 <= k < Z.of_nat (length p))%Z
            /\ forall i acc, rfind_from c p i acc = (i + k)%Z.
Proof.
  induction p as [|x p IH]; intros H; [destruct H|].
  destruct (in_dec N.eq_dec c p) as [Hin|Hnot].
  - destruct (IH Hin) as (k & Hk & Hr). exists (k + 1)%Z.
    cbn [length rfind_from]. split; [lia|].
    intros i acc. rewrite Hr. lia.
  - assert (x = c) as -> by (destruct H as [H|H]; [exact H|contradiction]).
    exists 0%Z. cbn [length rfind_from]. split; [lia|].
    intros i acc. rewrite N.eqb_refl, (rfind_from_notin c p _ _ Hnot). lia.
Qed.

(** The directory part takes no part in the split. *)
Lemma splitext_root_component d name :
  ~ In 47 name ->
  splitext_root (d ++ [47] ++ name) = d ++ [47] ++ splitext_root name.
Proof.
  intros Hsep. unfold splitext_root, rfind.
  rewrite (rfind_from_last 47 d name _ _ Hsep).
  rewrite (rfind_from_notin 47 name _ _ Hsep).
  change (d ++ [47] ++ name) with (d ++ 47 :: name).
  rewrite (rfind_from_app 46 d (47 :: name)). cbn [rfind_from].
  change (47 =? 46) with false. cbv iota.
  pose proof (rfind_from_bound 46 d 0 (-1) ltac:(lia)) as Hd.
  destruct (in_dec N.eq_dec 46 name) as [Hin|Hnot].
  - destruct (rfind_from_in 46 name Hin) as (k & Hk & Hr).
    rewrite !Hr.
    destruct (Z.ltb_spec (0 + Z.of_nat (length d))
                (0 + Z.of_nat (length d) + 1 + k)); [|lia].
    destruct (Z.ltb_spec (-1) (0 + k)); [|lia].
    replace (Z.to_nat (0 + Z.of_nat (length d) + 1 + k
                       - (0 + Z.of_nat (length d) + 1)))
      with (Z.to_nat k) by lia.
    replace (Z.to_nat (0 + Z.of_nat (length d) + 1))
      with (length (d ++ [47])) by (rewrite length_app; cbn [length]; lia).
    replace (Z.to_nat (0 + k - (-1 + 1))) with (Z.to_nat k) by lia.
    replace (Z.to_nat (-1 + 1)) with 0%nat by lia. rewrite drop_0.
    change (d ++ 47 :: name) with (d ++ [47] ++ name).
    rewrite app_assoc, drop_app_length.
    destruct (existsb _ (take (Z.to_nat k) name));
      [|rewrite <- app_assoc; reflexivity].
    replace (Z.to_nat (0 + Z.of_nat (length d) + 1 + k))
      with (Nat.add (length (d ++ [47])) (Z.to_nat k))
      by (rewrite length_app; cbn [length]; lia).
    rewrite take_app_add. replace (Z.to_nat (0 + k)) with (Z.to_nat k) by lia.
    rewrite <- app_assoc. reflexivity.
  - rewrite !(rfind_from_notin 46 name _ _ Hnot).
    destruct (Z.ltb_spec (0 + Z.of_nat (length d)) (rfind_from 46 d 0 (-1)));
      [lia|].
    destruct (Z.ltb_spec (-1) (-1)); [lia|]. reflexivity.
Qed.

Lemma splitext_root_no_dot p : ~ In 46 p -> splitext_root p = p.
Proof.
  intros H. unfold splitext_root, rfind.
  rewrite (rfind_from_notin 46 p _ _ H).
  destruct (Z.ltb_spec (rfind_from 47 p 0 (-1)) (-1)); [|reflexivity].
  exfalso.
  assert (G : forall q i acc, (-1 <= acc)%Z -> (0 <= i)%Z ->
                              (-1 <= rfind_from 47 q i acc)%Z).
  { induction q as [|x q IH]; intros i acc Ha Hi; cbn [rfind_from]; [exact Ha|].
    apply IH; [destruct (x =? 47); lia|lia]. }
  specialize (G p 0%Z (-1)%Z). lia.
Qed.

Lemma splitext_root_stem stem ext :
  ~ In 47 stem -> ~ In 47 ext -> ~ In 46 ext ->
  existsb (fun x => negb (x =? 46)) stem = true ->
  splitext_root (stem ++ [46] ++ ext) = stem.
Proof.
  intros Hs He Hd Hx. unfold splitext_root, rfind. cbn [app].
  rewrite (rfind_from_last 46 stem ext _ _ Hd).
  rewrite (rfind_from_notin 47 (stem ++ 46 :: ext)).
  2:{ apply not_in_app; [exact Hs|]. intros [H|H]; [discriminate|tauto]. }
  destruct (Z.ltb_spec (-1) (0 + Z.of_nat (length stem))); [|lia].
  replace (Z.to_nat (-1 + 1)) with 0%nat by lia. rewrite drop_0.
  replace (Z.to_nat (0 + Z.of_nat (length stem) - (-1 + 1)))
    with (length stem) by lia.
  replace (Z.to_nat (0 + Z.of_nat (length stem))) with (length stem) by lia.
  rewrite (take_app_length stem (46 :: ext)), Hx. reflexivity.
Qed.

Lemma splitext_root_dots dots ext :
  forallb (fun x => x =? 46) dots = true ->
  ~ In 47 ext -> ~ In 46 ext ->
  splitext_root (dots ++ [46] ++ ext) = dots ++ [46] ++ ext.
Proof.
  intros Hall He Hd. unfold splitext_root, rfind. cbn [app].
  rewrite (rfind_from_last 46 dots ext _ _ Hd).
  rewrite (rfind_from_notin 47 (dots ++ 46 :: ext)).
  2:{ apply not_in_app.
      - intros H. rewrite forallb_forall in Hall.
        apply Hall in H. discriminate.
      - intros [H|H]; [discriminate|tauto]. }
  destruct (Z.ltb_spec (-1) (0 + Z.of_nat (length dots))); [|lia].
  replace (Z.to_nat (-1 + 1)) with 0%nat by lia. rewrite drop_0.
  replace (Z.to_nat (0 + Z.of_nat (length dots) - (-1 + 1)))
    with (length dots) by lia.
  rewrite (take_app_length dots (46 :: ext)).
  assert (E : existsb (fun x => negb (x =? 46)) dots = false).
  { clear -Hall. induction dots as [|x dots IH]; [reflexivity|].
    cbn in *. apply andb_prop in Hall. destruct Hall as [-> H].
    apply IH, H. }
  rewrite E. reflexivity.
Qed.

(** X18: the title is the name without its extension, as posixpath
    splits it, with the slash as the only separator.  Take the name as a
    directory part, empty or ending in a slash, followed by a last
    component without a slash.  A component with no dot is kept as it is;
    so is one that has only dots before its last dot; otherwise the
    component loses its last dot and what follows it.  The directory part
    is kept in every case, and the title is a prefix of the name. *)
Theorem splitext_root_drops_extension (dir : str) :
  dir = [] \/ (exists d, dir = d ++ [47]) ->
  (forall name,
     ~ In 47 name -> ~ In 46 name -> splitext_root (dir ++ name) = dir ++ name)
  /\ (forall stem ext,
        ~ In 47 stem -> ~ In 47 ext -> ~ In 46 ext ->
        existsb (fun x => negb (x =? 46)) stem = true ->
        splitext_root (dir ++ stem ++ [46] ++ ext) = dir ++ stem)
  /\ (forall dots ext,
        forallb (fun x => x =? 46) dots = true ->
        ~ In 47 ext -> ~ In 46 ext ->
        splitext_root (dir ++ dots ++ [46] ++ ext) = dir ++ dots ++ [46] ++ ext)
  /\ (forall p, exists ext, p = splitext_root p ++ ext).
Proof.
  intros Hdir.
  assert (C : forall name,
    ~ In 47 name -> splitext_root (dir ++ name) = dir ++ splitext_root name).
  { intros name Hn. destruct Hdir as [->|[d ->]]; [reflexivity|].
    rewrite <- !app_assoc. apply splitext_root_component, Hn. }
  split; [|split; [|split]].
  - intros name Hs Hd. rewrite (C name Hs), (splitext_root_no_dot name Hd).
    reflexivity.
  - intros stem ext Hs He Hd Hx. rewrite C.
    + rewrite (splitext_root_stem stem ext Hs He Hd Hx). reflexivity.
    + apply not_in_app; [exact Hs|]. intros [H|H]; [discriminate|tauto].
  - intros dots ext Hall He Hd. rewrite C.
    + rewrite (splitext_root_dots dots ext Hall He Hd). reflexivity.
    + apply not_in_app.
      * intros H. rewrite forallb_forall in Hall. apply Hall in H. discriminate.
      * intros [H|H]; [discriminate|tauto].
  - intros p. unfold splitext_root.
    destruct (_ <? _)%Z; [|exists []; rewrite app_nil_r; reflexivity].
    destruct (existsb _ _); [|exists []; rewrite app_nil_r; reflexivity].
    eexists. symmetry. apply take_drop.
Qed.
End Title.

Section Returned_record.
Context {World : Type} (self : InfoExtractor World).

Lemma fetch_page_returns u w log video_id page s1 :
  fetch_page self u (w, log) = (Return (video_id, page), s1) ->
  re_match (_VALID_URL (unicode_alnum self)) u = Some (Some video_id).
Proof.
  intros F.
  destruct (re_match (_VALID_URL (unicode_alnum self)) u) as [[g|]|] eqn:Hid;
    try (unfold fetch_page, _match_id in F; rewrite Hid in F; discriminate).
  destruct (download_webpage self u w) as [[e|page0] w1] eqn:Hd.
  - rewrite (fetch_page_download_raise self u w log g e w1 Hid Hd) in F.
    discriminate.
  - rewrite (fetch_page_run self u w log g page0 w1 Hid Hd) in F.
    destruct (password_gate self u page0 _) as [[e|p] s]; [discriminate|].
    congruence.
Qed.

(** X21: every record that is returned carries the identifier matched in
    the URL and the title taken from the last segment of the URL, whatever
    the page holds; its thumbnails are none or seven; its subtitles and
    storyboard are those the scan left. *)
Theorem returned_record_identity (u : str) (w : World) r s :
  extract self u w = (Return r, s) ->
  exists video_id page s1 l s2,
    re_match (_VALID_URL (unicode_alnum self)) u = Some (Some video_id)
    /\ fetch_page self u (w, []) = (Return (video_id, page), s1)
    /\ scan self (rev (tokens self page)) s1 = (Return l, s2)
    /\ info_id r = video_id
    /\ info_title r
       = splitext_root (compat_urllib_parse_unquote self (url_basename self u))
    /\ info_subtitles r = subtitles l
    /\ info_storyboard_url r = storyboard_url l
    /\ (length (info_thumbnails r) = 0%nat
        \/ length (info_thumbnails r) = 7%nat).
Proof.
  intros H. unfold extract, _real_extract in H. rewrite bind_run in H.
  destruct (fetch_page self u (w, [])) as [[e|[video_id page]] s1] eqn:F;
    [discriminate|].
  cbv beta iota in H. rewrite bind_run in H.
  destruct (scan self (rev (tokens self page)) s1) as [[e|l] s2] eqn:S;
    [discriminate|].
  apply finish_returns in H. destruct H as (md & ud & _ & ->).
  exists video_id, page, s1, l, s2.
  split; [exact (fetch_page_returns u w [] video_id page s1 F)|].
  split; [reflexivity|]. split; [exact S|].
  repeat (split; [reflexivity|]).
  unfold assembled, thumbnails_of. cbn [info_thumbnails].
  destruct (opt_truthy (thumbnail_url l)); [right|left]; reflexivity.
Qed.
End Returned_record.

(** * The further properties on concrete pages *)

Section Concrete_further.
Import Mock.

Lemma open_page_tokens_are_quoted :
  lit token_full <> []
  /\ forallb (re_token_char (unicode_alnum open_site)) (lit token_full) = true
  /\ exists before after,
       open_page = before ++ [DQUOTE] ++ lit token_full ++ [DQUOTE] ++ after.
Proof.
  apply (tokens_are_quoted_runs open_site open_page (lit token_full)).
  vm_compute. auto.
Defined.

Lemma plain_text_manifest_shape :
  (exists mid,
     manifest_url = lit "https://" ++ mid ++ lit ".m3u8"
     /\ mid <> [] /\ forallb re_m3u8_char mid = true)
  /\ (exists before c after,
        plain_text = before ++ [LF; c] ++ manifest_url ++ after /\ c <> LF)
  /\ opt_truthy (Some manifest_url) = true.
Proof.
  apply (transcode_url_shape plain_text manifest_url).
  vm_compute. reflexivity.
Defined.

Lemma full_text_thumbnail_shape :
  (exists x y,
     thumb_url = lit "https://" ++ x ++ lit "thumb" ++ y ++ lit ".jpeg"
     /\ x <> [] /\ forallb re_dot x = true /\ forallb re_nonspace y = true)
  /\ (exists before after, full_text = before ++ thumb_url ++ after)
  /\ ~ In LF thumb_url
  /\ length (thumbnails_of open_site (Some thumb_url)) = 7%nat.
Proof.
  apply (thumbnail_url_shape open_site full_text thumb_url).
  vm_compute. reflexivity.
Defined.

Lemma full_text_storyboard_shape :
  (exists x y,
     vtt_url = lit "https://" ++ x ++ lit "scrubber_thumb_vtt" ++ y ++ lit ".vtt"
     /\ x <> [] /\ forallb re_dot x = true /\ forallb re_nonspace y = true)
  /\ exists before after, full_text = before ++ vtt_url ++ after.
Proof.
  apply (storyboard_url_shape full_text vtt_url).
  vm_compute. reflexivity.
Defined.


Lemma share_url_is_accepted :
  re_match (_VALID_URL (fun _ => false)) share_url = Some (Some video_id).
Proof.
  apply (valid_url_accepts (fun _ => false) (lit "https") (lit "www.") (lit "s")
           video_id (lit "/clip.final.mp4?dl=0")).
  - right. left. reflexivity.
  - right. left. reflexivity.
  - left. reflexivity.
  - discriminate.
  - vm_compute. reflexivity.
  - right. eexists _, _. split; vm_compute; reflexivity.
Defined.

Lemma share_url_has_the_shape :
  exists scheme www kind rest,
    In scheme [lit "http"; lit "https"]
    /\ In www [[]; lit "www."]
    /\ In kind kinds
    /\ share_url = scheme ++ lit "://" ++ www ++ lit "dropbox.com/" ++ kind
                   ++ lit "/" ++ video_id ++ rest
    /\ video_id <> [] /\ forallb (re_word (fun _ => false)) video_id = true.
Proof.
  apply (valid_url_shape (fun _ => false) share_url video_id).
  vm_compute. reflexivity.
Defined.

Lemma foreign_url_requests_nothing :
  exists msg,
    extract open_site foreign_url w0 = (Raise (AttributeError msg), (w0, [])).
Proof.
  apply (proj1 (url_decides_first_request open_site foreign_url w0)).
  vm_compute. reflexivity.
Defined.

Lemma session_cookie_on_gate_page :
  extract (locked_site None unreachable) share_url (start session_jar)
  = (scan (locked_site None unreachable)
       (rev (tokens (locked_site None unreachable) open_page))
     ≫= finish (locked_site None unreachable) share_url video_id)
      ({| served := 2; jar := session_jar |},
       [EvDownloadWebpage share_url;
        EvGetCookie bare_dropbox (lit "sm_auth");
        EvDownloadWebpage share_url]).
Proof.
  refine (proj1 (session_cookie_refetches (locked_site None unreachable)
                   share_url (start session_jar) video_id gate_page
                   {| served := 1; jar := session_jar |} (lit "1")
                   (Return open_page) {| served := 2; jar := session_jar |}
                   _ _ _ _ _ _)).
  all: vm_compute; reflexivity.
Defined.

Lemma open_page_without_credentials :
  exists res w' rest,
    extract open_site share_url w0
    = (res, (w', EvDownloadWebpage share_url :: rest))
    /\ count is_page_download (EvDownloadWebpage share_url :: rest) = 1%nat
    /\ count is_auth_post (EvDownloadWebpage share_url :: rest) = 0%nat
    /\ forall cu name,
         In (EvGetCookie cu name) (EvDownloadWebpage share_url :: rest) ->
         name = lit "t".
Proof.
  refine (proj2 (open_page_needs_no_credentials open_site share_url w0
                   video_id open_page {| served := 1; jar := csrf_jar |}
                   _ _ _)).
  all: vm_compute; reflexivity.
Defined.

Lemma dead_manifest_aborts :
  extract dead_manifest_site share_url w0
  = (Raise (ExtractorError "Failed to download m3u8" false),
     ({| served := 1; jar := csrf_jar |},
      [EvDownloadWebpage share_url] ++ [EvExtractM3u8 manifest_url])).
Proof.
  apply (manifest_failure_is_fatal dead_manifest_site share_url w0 video_id
           open_page {| served := 1; jar := csrf_jar |}
           [EvDownloadWebpage share_url] full_text manifest_url).
  all: vm_compute; reflexivity.
Defined.

Lemma open_page_is_enriched :
  exists r,
    extract open_site share_url w0
    = (Return r,
       ({| served := 1; jar := csrf_jar |},
        [EvDownloadWebpage share_url; EvExtractM3u8 manifest_url]
        ++ [EvGetCookie www_dropbox (lit "t");
            EvDownloadJson metadata_url (lit "{}")
              (metadata_headers (lit "tok"))]))
    /\ info_duration r = VInt 12
    /\ info_upload_date r = VStr (lit "20240131").
Proof.
  destruct (metadata_enriches_result open_site share_url w0 video_id open_page
              ({| served := 1; jar := csrf_jar |}, [EvDownloadWebpage share_url])
              full_locals {| served := 1; jar := csrf_jar |}
              [EvDownloadWebpage share_url; EvExtractM3u8 manifest_url]
              (lit "tok")
              [(lit "metadata",
                VDict [ (lit "resolution_width", VInt 1920);
                        (lit "resolution_height", VInt 1080);
                        (lit "frame_rate", VFloat (2997 # 100));
                        (lit "codec", VStr (lit "h264"));
                        (lit "duration", VInt 12);
                        (lit "capture_date", VStr (lit "20240131")) ])]
              [ (lit "resolution_width", VInt 1920);
                (lit "resolution_height", VInt 1080);
                (lit "frame_rate", VFloat (2997 # 100));
                (lit "codec", VStr (lit "h264"));
                (lit "duration", VInt 12);
                (lit "capture_date", VStr (lit "20240131")) ]
              {| served := 1; jar := csrf_jar |}
              (VStr (lit "20240131")))
    as (r & E & _ & Hd & Hu).
  1-7: vm_compute; reflexivity.
  exists r. split; [exact E|]. split; [rewrite Hd|rewrite Hu]; reflexivity.
Defined.

Lemma list_answer_raises :
  extract odd_metadata_site share_url w0
  = (Raise no_get,
     ({| served := 1; jar := csrf_jar |},
      [EvDownloadWebpage share_url; EvExtractM3u8 manifest_url]
      ++ [EvGetCookie www_dropbox (lit "t");
          EvDownloadJson metadata_url (lit "{}")
            (metadata_headers (lit "tok"))])).
Proof.
  apply (malformed_metadata_raises odd_metadata_site share_url w0 video_id
           open_page
           ({| served := 1; jar := csrf_jar |}, [EvDownloadWebpage share_url])
           full_locals {| served := 1; jar := csrf_jar |}
           [EvDownloadWebpage share_url; EvExtractM3u8 manifest_url]
           (lit "tok") (VList [VInt 1])).
  1-6: vm_compute; reflexivity.
  left. reflexivity.
Defined.

Lemma junk_text_is_bounded :
  exists decoded,
    decode_token (lit token_junk) = Return decoded
    /\ Forall is_scalar decoded
    /\ (4 * length decoded <= 3 * b64_data_count (lit token_junk))%nat.
Proof.
  eexists. split; [vm_compute; reflexivity|].
  refine (let H := decoded_text_is_bounded (lit token_junk) _ _ in
          conj (proj1 H) (proj1 (proj2 H))).
  vm_compute. reflexivity.
Defined.

Lemma clip_title :
  splitext_root (lit "a.b/" ++ lit "clip.final" ++ [46] ++ lit "mp4")
  = lit "a.b/" ++ lit "clip.final".
Proof.
  apply (proj1 (proj2 (splitext_root_drops_extension (lit "a.b/")
                         ltac:(right; exists (lit "a.b"); reflexivity)))).
  1-3: vm_compute; intuition discriminate.
  vm_compute. reflexivity.
Defined.
End Concrete_further.

Section Concrete_record.
Import Mock.

Lemma open_page_record_identity :
  exists r s,
    extract open_site share_url w0 = (Return r, s)
    /\ info_id r = video_id
    /\ info_title r = lit "clip.final"
    /\ length (info_thumbnails r) = 7%nat.
Proof.
  assert (E : exists r s, extract open_site share_url w0 = (Return r, s))
    by (vm_compute; eauto).
  destruct E as (r & s & E). exists r, s. split; [exact E|].
  destruct (returned_record_identity open_site share_url w0 r s E)
    as (vid & page & s1 & l & s2 & Hid & _ & _ & Hi & Ht & _ & _ & _).
  assert (vid = video_id) as ->
    by (vm_compute in Hid; injection Hid as <-; reflexivity).
  split; [exact Hi|]. split; [rewrite Ht; vm_compute; reflexivity|].
  revert E. vm_compute. intros [= <- _]. reflexivity.
Defined.
End Concrete_record.

Section Concrete_visited.
Import Mock.

(** On a page with three tokens, the last without a manifest, the call
    commits to the one in the middle and leaves the first alone. *)
Lemma scan_falls_back_to_earlier_token :
  tokens layered_site layered_page
  = [lit token_full; lit token_plain; lit token_junk]
  /\ extract layered_site share_url w0
     = (commit layered_site plain_text manifest_url
        ≫= finish layered_site share_url video_id)
         ({| served := 1; jar := csrf_jar |}, [EvDownloadWebpage share_url]).
Proof.
  split; [vm_compute; reflexivity|].
  refine (proj1 (proj2 (proj1
    (scan_commits_to_last_usable layered_site share_url w0 video_id
       layered_page
       ({| served := 1; jar := csrf_jar |}, [EvDownloadWebpage share_url])
       [lit token_full] (lit token_plain) [lit token_junk] _ _ _)
    plain_text manifest_url _ _))).
  all: vm_compute; reflexivity.
Defined.

(** A token with two characters outside the alphabet, whose bytes hold a
    stray byte and a sequence cut short: the characters are skipped, the
    bytes dropped, and the call commits to the manifest of the text that
    is left. *)
Lemma pieces_ok_whole s :
  forallb (fun c => (c <=? 1114111) && ((c <? 55296) || (57343 <? c))) s = true ->
  pieces_ok (map Whole s).
Proof.
  induction s as [|c s IH]; [intros _; exact I|].
  cbn [forallb map pieces_ok piece_ok].
  intros [[H1 H2]%andb_prop H]%andb_prop. split; [|apply IH, H].
  apply N.leb_le in H1. apply orb_prop in H2. unfold is_scalar.
  rewrite !N.ltb_lt in H2. tauto.
Qed.

Lemma noisy_pieces_ok : pieces_ok noisy_pieces.
Proof.
  unfold noisy_pieces. cbn [app pieces_ok piece_ok].
  split; [reflexivity|]. split.
  - split; [unfold is_scalar; lia|]. split; [vm_compute; lia|].
    vm_compute. reflexivity.
  - apply pieces_ok_whole. vm_compute. reflexivity.
Qed.

Lemma noisy_token_decodes :
  b64decode (lit token_noisy) = Return noisy_bytes
  /\ decode_token (lit token_noisy) = Return noisy_text
  /\ noisy_bytes = flat_map piece_bytes noisy_pieces
  /\ noisy_text = flat_map piece_text noisy_pieces
  /\ extract noisy_site share_url w0
     = (commit noisy_site noisy_text manifest_url
        ≫= finish noisy_site share_url video_id)
         ({| served := 1; jar := csrf_jar |}, [EvDownloadWebpage share_url]).
Proof.
  destruct (proj1
    (decoding_is_permissive noisy_site share_url w0 video_id noisy_page
       ({| served := 1; jar := csrf_jar |}, [EvDownloadWebpage share_url])
       [lit token_full] (lit token_noisy) []
       ltac:(vm_compute; reflexivity) ltac:(vm_compute; reflexivity)
       ltac:(vm_compute; reflexivity)))
    as (data & B & _ & D & P & E).
  - vm_compute. reflexivity.
  - right. left.
    exists (lit "/+KCCgFodH_RwczovL3YuZXhhbXBsZS_9obHMvbWFzdGVyLm0zdTgDCmNhZsOpCg"),
      [], [].
    split; [vm_compute; reflexivity|]. split; vm_compute; reflexivity.
  - assert (data = noisy_bytes) as ->
      by (vm_compute in B; injection B as <-; vm_compute; reflexivity).
    split; [exact B|]. split; [exact D|].
    split; [vm_compute; reflexivity|].
    split; [|exact E].
    exact (P noisy_pieces ltac:(vm_compute; reflexivity) noisy_pieces_ok).
Defined.

(** The token without a manifest is passed over. *)
Lemma junk_token_is_passed_over :
  scan open_site [lit token_junk; lit token_full] (w0, [])
  = scan open_site [lit token_full] (w0, []).
Proof.
  apply (proj1 (scan_passes_over open_site (lit token_junk) [lit token_full]
                  (w0, []))).
  exists (lit "nothing to see"). split; vm_compute; reflexivity.
Defined.
End Concrete_visited.
